(** * Package-health analysis core of the Python package manager

    A shallow embedding of the analysis logic of [PYLibrariesList_V1.py]:
    the reverse-dependency indexer, the orphan classifier, the damage
    classifier, the version sort key, the outdated lookup and the
    generation-stamped scan coordinator.

    Python text is modelled as [string], the UTF-8 encoding of the text: a
    character outside ASCII appears as its bytes, exactly as it is stored in
    the source file; equality and order of texts are those of their
    encodings.  Paths follow the POSIX conventions.  Exceptions are values
    of the type [res]; what the file system, the subprocesses and the
    metadata library answer is given by records of functions, a left value
    standing for the exception raised.  Widgets are left out, except the
    damaged-packages tree and the buttons the analysis enables.

    Further sections embed what surrounds this core: the settings and cache
    files, the pip actions and the restart for a package in use, the
    vulnerability scan, the package tree of the Manage tab with its sort
    and its search box, the completion callbacks with the refresh of that
    tree, and the list of interpreters. *)

From Stdlib Require Import ZArith Ascii String DecimalString.
From Stdlib Require Import Sorted.
From Stdlib Require OrderedTypeEx.
From stdpp Require Import base tactics option list gmap strings.

Local Open Scope list_scope.

(** ** Exceptions as values *)

Inductive exn : Type :=
  | IndexError
  | TypeError
  | InvalidVersion
  | TclError (msg : string).

Inductive res (A : Type) : Type :=
  | Ok (a : A)
  | Raise (e : exn).

Arguments Ok {A} a.
Arguments Raise {A} e.

Definition res_bind {A B : Type} (m : res A) (k : A → res B) : res B :=
  match m with
  | Ok a => k a
  | Raise e => Raise e
  end.

Notation "x ←! m ; k" := (res_bind m (fun x => k))
  (at level 100, m at next level, right associativity).

(** A [for] loop whose body may raise: the first exception leaves the loop. *)
Fixpoint for_each {A S : Type} (body : S → A → res S) (xs : list A) (s : S) : res S :=
  match xs with
  | [] => Ok s
  | x :: xs' => s' ←! body s x; for_each body xs' s'
  end.

(** [l[i]] on a Python list. *)
Definition getitem {A : Type} (l : list A) (i : nat) : res A :=
  match l !! i with
  | Some a => Ok a
  | None => Raise IndexError
  end.

(** ** Text primitives *)

Module PyStr.

(** The white space of [str.isspace], character by character of the UTF-8
    text.  One byte: TAB, LF, VT, FF, CR, the separators FS, GS, RS, US and
    the space. *)
Definition isspace (c : ascii) : bool :=
  let n := nat_of_ascii c in
  ((9 <=? n) && (n <=? 13)) || ((28 <=? n) && (n <=? 32)).

(** Two bytes: U+0085 and U+00A0. *)
Definition isspace2 (c1 c2 : ascii) : bool :=
  let n2 := nat_of_ascii c2 in
  (nat_of_ascii c1 =? 194) && ((n2 =? 133) || (n2 =? 160)).

(** Three bytes: U+1680, U+2000 to U+200A, U+2028, U+2029, U+202F, U+205F
    and U+3000. *)
Definition isspace3 (c1 c2 c3 : ascii) : bool :=
  let n1 := nat_of_ascii c1 in
  let n2 := nat_of_ascii c2 in
  let n3 := nat_of_ascii c3 in
  ((n1 =? 225) && (n2 =? 154) && (n3 =? 128))
  || ((n1 =? 226) && (n2 =? 128)
      && (((128 <=? n3) && (n3 <=? 138)) || (n3 =? 168) || (n3 =? 169)
          || (n3 =? 175)))
  || ((n1 =? 226) && (n2 =? 129) && (n3 =? 159))
  || ((n1 =? 227) && (n2 =? 128) && (n3 =? 128)).

(** Dropping the leading characters that the three tests recognise. *)
Fixpoint lstrip_with (t1 : ascii → bool) (t2 : ascii → ascii → bool)
    (t3 : ascii → ascii → ascii → bool) (s : string) : string :=
  match s with
  | "" => ""
  | String c1 s1 =>
      if t1 c1 then lstrip_with t1 t2 t3 s1
      else
        match s1 with
        | String c2 s2 =>
            if t2 c1 c2 then lstrip_with t1 t2 t3 s2
            else
              match s2 with
              | String c3 s3 =>
                  if t3 c1 c2 c3 then lstrip_with t1 t2 t3 s3 else s
              | "" => s
              end
        | "" => s
        end
  end.

(** [s.lstrip()] *)
Definition lstrip (s : string) : string :=
  lstrip_with isspace isspace2 isspace3 s.

(** [s.rstrip()]: the same on the reversed text, where the bytes of a
    character come last first. *)
Definition rstrip (s : string) : string :=
  String.rev
    (lstrip_with isspace (fun c2 c1 => isspace2 c1 c2)
       (fun c3 c2 c1 => isspace3 c1 c2 c3) (String.rev s)).

(** [s.strip()] *)
Definition strip (s : string) : string := rstrip (lstrip s).

(** [re.split(r'[...]', s)] for a pattern that is one character class:
    the pieces between the matching characters. *)
Fixpoint re_split_class (cls : ascii → bool) (s : string) : list string :=
  match s with
  | "" => [""]
  | String c s' =>
      if cls c then "" :: re_split_class cls s'
      else match re_split_class cls s' with
           | [] => [String c ""]
           | p :: ps => String c p :: ps
           end
  end.

(** The prefix of [s] before the first character of the class, the whole
    of [s] when there is none. *)
Fixpoint prefix_before (cls : ascii → bool) (s : string) : string :=
  match s with
  | "" => ""
  | String c s' => if cls c then "" else String c (prefix_before cls s')
  end.

(** [s.startswith(p)] *)
Fixpoint startswith (p s : string) : bool :=
  match p, s with
  | "", _ => true
  | String a p', String b s' => bool_decide (a = b) && startswith p' s'
  | String _ _, "" => false
  end.

(** The tail of [s] after its first [n] characters. *)
Fixpoint skip (n : nat) (s : string) : string :=
  match n, s with
  | S n', String _ s' => skip n' s'
  | _, _ => s
  end.

(** [s.split(sep)] for a non-empty separator [sep], scanning left to right;
    [skipn] counts the characters of a separator that was just matched and
    is still being passed over, [cur] is the piece under construction. *)
Fixpoint split_go (sep : string) (skipn : nat) (cur : string) (s : string)
  : list string :=
  match s with
  | "" => [String.rev cur]
  | String c s' =>
      match skipn with
      | S k => split_go sep k cur s'
      | O =>
          if startswith sep s
          then String.rev cur :: split_go sep (String.length sep - 1) "" s'
          else split_go sep 0 (String c cur) s'
      end
  end.

Definition split (sep s : string) : list string := split_go sep 0 "" s.

(** The prefix of [s] before the first occurrence of [sep], the whole of
    [s] when [sep] does not occur. *)
Fixpoint before_first (sep s : string) : string :=
  match s with
  | "" => ""
  | String c s' => if startswith sep s then "" else String c (before_first sep s')
  end.

(** [sep in s] *)
Fixpoint contains (sep s : string) : bool :=
  match s with
  | "" => startswith sep ""
  | String _ s' => startswith sep s || contains sep s'
  end.

(** [s.lower()]: the letters A to Z are mapped, a letter outside ASCII is
    left as it is. *)
Definition lower_char (c : ascii) : ascii :=
  let n := nat_of_ascii c in
  if (65 <=? n) && (n <=? 90) then ascii_of_nat (n + 32) else c.

Fixpoint lower (s : string) : string :=
  match s with
  | "" => ""
  | String c s' => String (lower_char c) (lower s')
  end.

(** [re.sub(r'[...]+', repl, s)] for a pattern that is one or more
    characters of one class: every maximal run is replaced by [repl];
    [in_run] tells that the previous character belonged to a run. *)
Fixpoint re_sub_runs (cls : ascii → bool) (repl : string) (in_run : bool)
    (s : string) : string :=
  match s with
  | "" => ""
  | String c s' =>
      if cls c
      then if in_run then re_sub_runs cls repl true s'
           else repl +:+ re_sub_runs cls repl true s'
      else String c (re_sub_runs cls repl false s')
  end.

(** [s.endswith(p)] *)
Fixpoint endswith (p s : string) : bool :=
  match s with
  | "" => bool_decide (p = "")
  | String _ s' => bool_decide (p = s) || endswith p s'
  end.

(** [os.path.join(a, b)] with the POSIX separator. *)
Definition path_join (a b : string) : string :=
  if startswith "/" b then b
  else if bool_decide (a = "") || endswith "/" a then a +:+ b
  else a +:+ "/" +:+ b.

(** [os.path.basename(p)] with the POSIX separator: what follows the last
    slash; [cur] is the component being read. *)
Fixpoint basename_go (cur : string) (s : string) : string :=
  match s with
  | "" => String.rev cur
  | String c s' =>
      if bool_decide (c = "/"%char) then basename_go "" s'
      else basename_go (String c cur) s'
  end.

Definition basename (p : string) : string := basename_go "" p.

(** Dropping the trailing slashes. *)
Fixpoint rstrip_slashes (s : string) : string :=
  match s with
  | "" => ""
  | String c s' =>
      match rstrip_slashes s' with
      | "" => if bool_decide (c = "/"%char) then "" else String c ""
      | r => String c r
      end
  end.

(** [os.path.dirname(p)] with the POSIX separator: what precedes the last
    slash, without its trailing slashes unless it consists of slashes. *)
Fixpoint dirname_go (s : string) : option string :=
  match s with
  | "" => None
  | String c s' =>
      match dirname_go s' with
      | Some head => Some (String c head)
      | None => if bool_decide (c = "/"%char) then Some "/" else None
      end
  end.

Definition dirname (p : string) : string :=
  match dirname_go p with
  | Some head =>
      match rstrip_slashes head with
      | "" => head
      | stripped => stripped
      end
  | None => ""
  end.

(** [s.replace(old, new)] for a non-empty [old]. *)
Fixpoint replace_go (old new : string) (skipn : nat) (s : string) : string :=
  match s with
  | "" => ""
  | String c s' =>
      match skipn with
      | S k => replace_go old new k s'
      | O =>
          if startswith old s
          then new +:+ replace_go old new (String.length old - 1) s'
          else String c (replace_go old new 0 s')
      end
  end.

Definition replace (old new s : string) : string := replace_go old new 0 s.

(** [s.rpartition(c)] for a one-character separator, [None] when [c] does
    not occur. *)
Fixpoint rpartition (c : ascii) (s : string) : option (string * string) :=
  match s with
  | "" => None
  | String b s' =>
      match rpartition c s' with
      | Some (before, after) => Some (String b before, after)
      | None => if bool_decide (b = c) then Some ("", s') else None
      end
  end.

(** [s.rsplit(c, 1)] *)
Definition rsplit1 (c : ascii) (s : string) : list string :=
  match rpartition c s with
  | Some (before, after) => [before; after]
  | None => [s]
  end.

(** [s.partition(sep)] for a non-empty separator, [None] when [sep] does
    not occur. *)
Fixpoint partition (sep s : string) : option (string * string) :=
  match s with
  | "" => None
  | String c s' =>
      if startswith sep s then Some ("", skip (String.length sep) s)
      else match partition sep s' with
           | Some (before, after) => Some (String c before, after)
           | None => None
           end
  end.

(** [s.split(sep, 1)] *)
Definition split1 (sep s : string) : list string :=
  match partition sep s with
  | Some (before, after) => [before; after]
  | None => [s]
  end.

(** The line boundaries of [str.splitlines].  One byte: LF, VT, FF, CR, FS,
    GS, RS. *)
Definition is_linebreak (c : ascii) : bool :=
  let n := nat_of_ascii c in
  ((10 <=? n) && (n <=? 13)) || ((28 <=? n) && (n <=? 30)).

(** Two bytes: U+0085. *)
Definition is_linebreak2 (c1 c2 : ascii) : bool :=
  (nat_of_ascii c1 =? 194) && (nat_of_ascii c2 =? 133).

(** Three bytes: U+2028 and U+2029. *)
Definition is_linebreak3 (c1 c2 c3 : ascii) : bool :=
  let n3 := nat_of_ascii c3 in
  (nat_of_ascii c1 =? 226) && (nat_of_ascii c2 =? 128)
  && ((n3 =? 168) || (n3 =? 169)).

(** [s.splitlines()]; CR LF counts as one boundary. *)
Fixpoint splitlines_go (cur : string) (s : string) : list string :=
  match s with
  | "" => if bool_decide (cur = "") then [] else [String.rev cur]
  | String c1 s1 =>
      if is_linebreak c1 then
        String.rev cur ::
          match s1 with
          | String c2 s2 =>
              if bool_decide (c1 = ascii_of_nat 13) && bool_decide (c2 = ascii_of_nat 10)
              then splitlines_go "" s2
              else splitlines_go "" s1
          | "" => splitlines_go "" s1
          end
      else
        match s1 with
        | String c2 s2 =>
            if is_linebreak2 c1 c2 then String.rev cur :: splitlines_go "" s2
            else
              match s2 with
              | String c3 s3 =>
                  if is_linebreak3 c1 c2 c3
                  then String.rev cur :: splitlines_go "" s3
                  else splitlines_go (String c1 cur) s1
              | "" => splitlines_go (String c1 cur) s1
              end
        | "" => splitlines_go (String c1 cur) s1
        end
  end.

Definition splitlines (s : string) : list string := splitlines_go "" s.

(** [str(n)] for a non-negative [int]. *)
Definition of_nat (n : nat) : string := NilZero.string_of_uint (Nat.to_uint n).

(** The line feed of the [\n] escapes. *)
Definition nl : string := String (ascii_of_nat 10) "".

End PyStr.

(** ** Package descriptors *)

(** The dict built by [PackageUtils.get_package_info_modern]; of the
    modification time [install_date_ts] the whole seconds are kept. *)
Record pkg_info : Type := {
  name : string;
  version : string;
  size : N;
  install_date_ts : option N;
  location : string;
  installer : string;
  metadata : list (string * string);
  requires : list string
}.

(** ** Reverse-dependency indexer (the tail of [_load_packages_task]) *)

(** The character class of [r'[<>=!~ (]']. *)
Definition req_delim (c : ascii) : bool :=
  match c with
  | "<" | ">" | "=" | "!" | "~" | " " | "(" => true
  | _ => false
  end%char.

(** [d[k].append(v)] on a [defaultdict(list)]. *)
Definition defaultdict_append (k v : string) (d : gmap string (list string))
  : gmap string (list string) :=
  <[k := default [] (d !! k) ++ [v]]> d.

(** One round of the inner loop over [pkg['requires']]. *)
Definition index_requirement (pkg_name : string)
    (reverse_deps : gmap string (list string)) (req_str : string)
  : res (gmap string (list string)) :=
  first ←! getitem (PyStr.re_split_class req_delim req_str) 0;
  let req_name := PyStr.strip first in
  if bool_decide (req_name ≠ "") && bool_decide (req_name ≠ pkg_name)
  then Ok (defaultdict_append req_name pkg_name reverse_deps)
  else Ok reverse_deps.

(** One round of the outer loop over [packages]. *)
Definition index_package (reverse_deps : gmap string (list string)) (pkg : pkg_info)
  : res (gmap string (list string)) :=
  match requires pkg with
  | [] => Ok reverse_deps
  | reqs => for_each (index_requirement (name pkg)) reqs reverse_deps
  end.

Definition build_reverse_deps (packages : list pkg_info)
  : res (gmap string (list string)) :=
  for_each index_package packages ∅.

(** The bare name of a requirement, in the words of the specification. *)
Definition bare_name (s : string) : string :=
  PyStr.strip (PyStr.prefix_before req_delim s).

(** ** Orphan classifier ([find_orphaned_packages]) *)

Definition essential_packages : gset string :=
  {[ "pip"; "setuptools"; "wheel" ]}.

(** The set [orphan_names]. *)
Definition orphan_names (all_packages : list pkg_info)
    (reverse_deps : gmap string (list string)) : gset string :=
  let all_installed_names : gset string := list_to_set (name <$> all_packages) in
  let dependency_names : gset string := dom reverse_deps in
  all_installed_names ∖ dependency_names ∖ essential_packages.

(** [sorted(l, key=...)] for keys that are [str]: a stable sort. *)
Fixpoint insert_by {A : Type} (key : A → string) (x : A) (l : list A) : list A :=
  match l with
  | [] => [x]
  | y :: l' =>
      if String.ltb (key x) (key y) then x :: y :: l'
      else y :: insert_by key x l'
  end.

Definition sorted_by {A : Type} (key : A → string) (l : list A) : list A :=
  fold_left (fun acc x => insert_by key x acc) l [].

(** The list stored in [orphaned_packages_cache]. *)
Definition orphaned_packages (all_packages : list pkg_info)
    (reverse_deps : gmap string (list string)) : list pkg_info :=
  let orphans := orphan_names all_packages reverse_deps in
  sorted_by (fun p => PyStr.lower (name p))
    (filter (fun pkg => name pkg ∈ orphans) all_packages).

(** ** Outdated lookup ([_is_package_outdated]) *)

(** One entry of [pip list --outdated --format json]. *)
Record outdated_info : Type := {
  o_name : string;
  o_version : string;
  o_latest_version : string;
  o_latest_filetype : string
}.

(** A [dict] with [str] keys, in insertion order. *)
Fixpoint dict_get {V : Type} (d : list (string * V)) (k : string) : option V :=
  match d with
  | [] => None
  | (k', v) :: d' => if bool_decide (k' = k) then Some v else dict_get d' k
  end.

(** [d[k] = v] on a [dict] in insertion order. *)
Fixpoint dict_set {V : Type} (k : string) (v : V) (d : list (string * V))
  : list (string * V) :=
  match d with
  | [] => [(k, v)]
  | (k', v') :: d' =>
      if bool_decide (k' = k) then (k, v) :: d' else (k', v') :: dict_set k v d'
  end.

(** [d.pop(k, None)] *)
Fixpoint dict_pop {V : Type} (k : string) (d : list (string * V))
  : list (string * V) :=
  match d with
  | [] => []
  | (k', v') :: d' =>
      if bool_decide (k' = k) then d' else (k', v') :: dict_pop k d'
  end.

Definition dash_dot (c : ascii) : bool :=
  match c with
  | "-" | "." => true
  | _ => false
  end%char.

(** [re.sub(r"[-.]+", "_", s).lower()] *)
Definition normalize_name (s : string) : string :=
  PyStr.lower (PyStr.re_sub_runs dash_dot "_" false s).

(** The loop over [outdated_packages.items()], left at the first match. *)
Fixpoint first_normalized_match (normalized_name : string)
    (items : list (string * outdated_info)) : option outdated_info :=
  match items with
  | [] => None
  | (outdated_name, info) :: items' =>
      let normalized_outdated_name := normalize_name outdated_name in
      if bool_decide (normalized_name = normalized_outdated_name) then Some info
      else first_normalized_match normalized_name items'
  end.

Definition _is_package_outdated (outdated_packages : list (string * outdated_info))
    (pkg_name : string) : option outdated_info :=
  match dict_get outdated_packages pkg_name with
  | Some info => Some info
  | None =>
      let normalized_name := normalize_name pkg_name in
      first_normalized_match normalized_name outdated_packages
  end.

(** ** Version comparator ([PackageUtils.get_version_sort_key], [_sort_column]) *)

(** The separator between the installed and the latest version in the
    Version column, as the literal is stored in the source file (in
    [get_version_sort_key] and in [_populate_tree] alike). *)
Definition ARROW : string := "â†’".

(** [f"{pkg['version']} <ARROW> {latest_ver}"] in [_populate_tree]. *)
Definition version_display (installed latest_ver : string) : string :=
  installed +:+ " " +:+ ARROW +:+ " " +:+ latest_ver.

(** What the program imports from the third-party [packaging] library:
    [parse_version] ([None] stands for [InvalidVersion]) and the order of
    [Version] objects. *)
Record packaging_lib : Type := {
  Version : Type;
  parse_version : string → option Version;
  version_lt : Version → Version → bool
}.

(** A sort key is a [Version] object or a [str]. *)
Inductive sort_key (V : Type) : Type :=
  | KVersion (v : V)
  | KStr (s : string).

Arguments KVersion {V} v.
Arguments KStr {V} s.

(** [for x in xs: out.append(f(x))] where [f] may raise. *)
Fixpoint map_res {A B : Type} (f : A → res B) (xs : list A) : res (list B) :=
  match xs with
  | [] => Ok []
  | x :: xs' => y ←! f x; ys ←! map_res f xs'; Ok (y :: ys)
  end.

(** A stable sort of [(key, item)] pairs by key whose comparison may raise. *)
Fixpoint insert_key {K A : Type} (lt : K → K → res bool) (x : K * A)
    (l : list (K * A)) : res (list (K * A)) :=
  match l with
  | [] => Ok [x]
  | y :: l' =>
      b ←! lt x.1 y.1;
      if b then Ok (x :: y :: l')
      else r ←! insert_key lt x l'; Ok (y :: r)
  end.

Definition list_sort {K A : Type} (lt : K → K → res bool) (reverse : bool)
    (data : list (K * A)) : res (list (K * A)) :=
  if reverse
  then r ←! for_each (fun acc x => insert_key lt x acc) (rev data) []; Ok (rev r)
  else for_each (fun acc x => insert_key lt x acc) data [].

Section VersionComparator.

Context (P : packaging_lib).

(** The module-level flag set by the guarded import of [packaging]. *)
Variable PACKAGING_AVAILABLE : bool.

Definition get_version_sort_key (version_string : string)
  : res (sort_key (Version P)) :=
  first ←! getitem (PyStr.split ARROW version_string) 0;
  let base_version_str := PyStr.strip first in
  if PACKAGING_AVAILABLE then
    match parse_version P base_version_str with
    | Some v => Ok (KVersion v)
    | None =>
        match parse_version P "0.0.0" with
        | Some v0 => Ok (KVersion v0)
        | None => Raise InvalidVersion
        end
    end
  else Ok (KStr base_version_str).

(** [a < b] on sort keys; [Version] and [str] do not compare. *)
Definition key_lt (a b : sort_key (Version P)) : res bool :=
  match a, b with
  | KVersion x, KVersion y => Ok (version_lt P x y)
  | KStr x, KStr y => Ok (String.ltb x y)
  | _, _ => Raise TypeError
  end.

(** [_sort_column("Version", reverse)] on the rows [(iid, Version cell)] of
    the tree: the new order of the row ids. *)
Definition sort_version_column (rows : list (string * string)) (reverse : bool)
  : res (list string) :=
  data ←! map_res (fun row : string * string =>
                     k ←! get_version_sort_key row.2; Ok (k, row.1)) rows;
  sorted ←! list_sort key_lt reverse data;
  Ok (snd <$> sorted).

End VersionComparator.

(** A stand-in for the [packaging] library, which is third-party and not
    part of the repository. *)
Module Packaging.

Definition digit (c : ascii) : option N :=
  let n := nat_of_ascii c in
  if (48 <=? n) && (n <=? 57) then Some (N.of_nat (n - 48)) else None.

(** [cur] is the component being read, [None] before its first digit. *)
Fixpoint release_go (cur : option N) (s : string) : option (list N) :=
  match s with
  | "" => match cur with Some n => Some [n] | None => None end
  | String c s' =>
      if bool_decide (c = "."%char)
      then match cur with
           | Some n => cons n <$> release_go None s'
           | None => None
           end
      else match digit c with
           | Some d => release_go (Some (10 * default 0%N cur + d)%N) s'
           | None => None
           end
  end.

Fixpoint drop_zeros (l : list N) : list N :=
  match l with
  | 0%N :: l' => drop_zeros l'
  | _ => l
  end.

Definition strip_trailing_zeros (l : list N) : list N := rev (drop_zeros (rev l)).

(** Modelled from the spec: [packaging.version.parse], the parser of the
    third-party library; the model covers the versions the specification
    calls semantic-version-like, a release segment of decimal components
    separated by dots, with trailing zero components ignored, and rejects
    every other text. *)
Definition parse (s : string) : option (list N) :=
  strip_trailing_zeros <$> release_go None s.

(** Modelled from the spec: the order of [Version] objects, numeric
    component by component. *)
Fixpoint release_lt (a b : list N) : bool :=
  match a, b with
  | [], [] => false
  | [], _ :: _ => true
  | _ :: _, [] => false
  | x :: a', y :: b' => (x <? y)%N || ((x =? y)%N && release_lt a' b')
  end.

Definition lib : packaging_lib :=
  {| Version := list N; parse_version := parse; version_lt := release_lt |}.

End Packaging.

(** ** Application state ([PackageManagerApp]) *)

(** What [CacheManager.save] writes for one interpreter. *)
Record cache_data : Type := {
  c_packages : list pkg_info;
  c_reverse_deps : gmap string (list string);
  c_damaged_packages : list string
}.

(** A row of the damaged-packages Treeview. *)
Record tree_item : Type := {
  iid : string;
  values : list string;
  tags : list string
}.

(** The attributes of the application object that the analysis core reads
    and writes; a button is [true] when its state is [tk.NORMAL]. *)
Record app : Type := {
  all_packages : list pkg_info;
  outdated_packages : list (string * outdated_info);
  reverse_deps : gmap string (list string);
  orphaned_packages_cache : list pkg_info;
  damaged_packages_cache : list string;
  current_interpreter : string;
  current_scan_id : Z;
  cache_files : gmap string cache_data;
  ui_busy : bool;
  upgrade_all_btn : bool;
  action_status : string;
  damaged_tree : list tree_item;
  damaged_selection : list string;
  reinstall_damaged_btn : bool
}.

Definition set_all_packages (v : list pkg_info) (self : app) : app :=
  {| all_packages := v; outdated_packages := outdated_packages self;
    reverse_deps := reverse_deps self;
    orphaned_packages_cache := orphaned_packages_cache self;
    damaged_packages_cache := damaged_packages_cache self;
    current_interpreter := current_interpreter self;
    current_scan_id := current_scan_id self; cache_files := cache_files self;
    ui_busy := ui_busy self; upgrade_all_btn := upgrade_all_btn self;
    action_status := action_status self; damaged_tree := damaged_tree self;
    damaged_selection := damaged_selection self;
    reinstall_damaged_btn := reinstall_damaged_btn self |}.

Definition set_outdated_packages (v : list (string * outdated_info)) (self : app) : app :=
  {| all_packages := all_packages self; outdated_packages := v;
    reverse_deps := reverse_deps self;
    orphaned_packages_cache := orphaned_packages_cache self;
    damaged_packages_cache := damaged_packages_cache self;
    current_interpreter := current_interpreter self;
    current_scan_id := current_scan_id self; cache_files := cache_files self;
    ui_busy := ui_busy self; upgrade_all_btn := upgrade_all_btn self;
    action_status := action_status self; damaged_tree := damaged_tree self;
    damaged_selection := damaged_selection self;
    reinstall_damaged_btn := reinstall_damaged_btn self |}.

Definition set_reverse_deps (v : gmap string (list string)) (self : app) : app :=
  {| all_packages := all_packages self;
    outdated_packages := outdated_packages self; reverse_deps := v;
    orphaned_packages_cache := orphaned_packages_cache self;
    damaged_packages_cache := damaged_packages_cache self;
    current_interpreter := current_interpreter self;
    current_scan_id := current_scan_id self; cache_files := cache_files self;
    ui_busy := ui_busy self; upgrade_all_btn := upgrade_all_btn self;
    action_status := action_status self; damaged_tree := damaged_tree self;
    damaged_selection := damaged_selection self;
    reinstall_damaged_btn := reinstall_damaged_btn self |}.

Definition set_orphaned_packages_cache (v : list pkg_info) (self : app) : app :=
  {| all_packages := all_packages self;
    outdated_packages := outdated_packages self;
    reverse_deps := reverse_deps self; orphaned_packages_cache := v;
    damaged_packages_cache := damaged_packages_cache self;
    current_interpreter := current_interpreter self;
    current_scan_id := current_scan_id self; cache_files := cache_files self;
    ui_busy := ui_busy self; upgrade_all_btn := upgrade_all_btn self;
    action_status := action_status self; damaged_tree := damaged_tree self;
    damaged_selection := damaged_selection self;
    reinstall_damaged_btn := reinstall_damaged_btn self |}.

Definition set_damaged_packages_cache (v : list string) (self : app) : app :=
  {| all_packages := all_packages self;
    outdated_packages := outdated_packages self;
    reverse_deps := reverse_deps self;
    orphaned_packages_cache := orphaned_packages_cache self;
    damaged_packages_cache := v;
    current_interpreter := current_interpreter self;
    current_scan_id := current_scan_id self; cache_files := cache_files self;
    ui_busy := ui_busy self; upgrade_all_btn := upgrade_all_btn self;
    action_status := action_status self; damaged_tree := damaged_tree self;
    damaged_selection := damaged_selection self;
    reinstall_damaged_btn := reinstall_damaged_btn self |}.

Definition set_current_interpreter (v : string) (self : app) : app :=
  {| all_packages := all_packages self;
    outdated_packages := outdated_packages self;
    reverse_deps := reverse_deps self;
    orphaned_packages_cache := orphaned_packages_cache self;
    damaged_packages_cache := damaged_packages_cache self;
    current_interpreter := v; current_scan_id := current_scan_id self;
    cache_files := cache_files self; ui_busy := ui_busy self;
    upgrade_all_btn := upgrade_all_btn self;
    action_status := action_status self; damaged_tree := damaged_tree self;
    damaged_selection := damaged_selection self;
    reinstall_damaged_btn := reinstall_damaged_btn self |}.

Definition set_current_scan_id (v : Z) (self : app) : app :=
  {| all_packages := all_packages self;
    outdated_packages := outdated_packages self;
    reverse_deps := reverse_deps self;
    orphaned_packages_cache := orphaned_packages_cache self;
    damaged_packages_cache := damaged_packages_cache self;
    current_interpreter := current_interpreter self; current_scan_id := v;
    cache_files := cache_files self; ui_busy := ui_busy self;
    upgrade_all_btn := upgrade_all_btn self;
    action_status := action_status self; damaged_tree := damaged_tree self;
    damaged_selection := damaged_selection self;
    reinstall_damaged_btn := reinstall_damaged_btn self |}.

Definition set_cache_files (v : gmap string cache_data) (self : app) : app :=
  {| all_packages := all_packages self;
    outdated_packages := outdated_packages self;
    reverse_deps := reverse_deps self;
    orphaned_packages_cache := orphaned_packages_cache self;
    damaged_packages_cache := damaged_packages_cache self;
    current_interpreter := current_interpreter self;
    current_scan_id := current_scan_id self; cache_files := v;
    ui_busy := ui_busy self; upgrade_all_btn := upgrade_all_btn self;
    action_status := action_status self; damaged_tree := damaged_tree self;
    damaged_selection := damaged_selection self;
    reinstall_damaged_btn := reinstall_damaged_btn self |}.

Definition set_ui_busy (v : bool) (self : app) : app :=
  {| all_packages := all_packages self;
    outdated_packages := outdated_packages self;
    reverse_deps := reverse_deps self;
    orphaned_packages_cache := orphaned_packages_cache self;
    damaged_packages_cache := damaged_packages_cache self;
    current_interpreter := current_interpreter self;
    current_scan_id := current_scan_id self; cache_files := cache_files self;
    ui_busy := v; upgrade_all_btn := upgrade_all_btn self;
    action_status := action_status self; damaged_tree := damaged_tree self;
    damaged_selection := damaged_selection self;
    reinstall_damaged_btn := reinstall_damaged_btn self |}.

Definition set_upgrade_all_btn (v : bool) (self : app) : app :=
  {| all_packages := all_packages self;
    outdated_packages := outdated_packages self;
    reverse_deps := reverse_deps self;
    orphaned_packages_cache := orphaned_packages_cache self;
    damaged_packages_cache := damaged_packages_cache self;
    current_interpreter := current_interpreter self;
    current_scan_id := current_scan_id self; cache_files := cache_files self;
    ui_busy := ui_busy self; upgrade_all_btn := v;
    action_status := action_status self; damaged_tree := damaged_tree self;
    damaged_selection := damaged_selection self;
    reinstall_damaged_btn := reinstall_damaged_btn self |}.

Definition set_action_status (v : string) (self : app) : app :=
  {| all_packages := all_packages self;
    outdated_packages := outdated_packages self;
    reverse_deps := reverse_deps self;
    orphaned_packages_cache := orphaned_packages_cache self;
    damaged_packages_cache := damaged_packages_cache self;
    current_interpreter := current_interpreter self;
    current_scan_id := current_scan_id self; cache_files := cache_files self;
    ui_busy := ui_busy self; upgrade_all_btn := upgrade_all_btn self;
    action_status := v; damaged_tree := damaged_tree self;
    damaged_selection := damaged_selection self;
    reinstall_damaged_btn := reinstall_damaged_btn self |}.

Definition set_damaged_tree (v : list tree_item) (self : app) : app :=
  {| all_packages := all_packages self;
    outdated_packages := outdated_packages self;
    reverse_deps := reverse_deps self;
    orphaned_packages_cache := orphaned_packages_cache self;
    damaged_packages_cache := damaged_packages_cache self;
    current_interpreter := current_interpreter self;
    current_scan_id := current_scan_id self; cache_files := cache_files self;
    ui_busy := ui_busy self; upgrade_all_btn := upgrade_all_btn self;
    action_status := action_status self; damaged_tree := v;
    damaged_selection := damaged_selection self;
    reinstall_damaged_btn := reinstall_damaged_btn self |}.

Definition set_damaged_selection (v : list string) (self : app) : app :=
  {| all_packages := all_packages self;
    outdated_packages := outdated_packages self;
    reverse_deps := reverse_deps self;
    orphaned_packages_cache := orphaned_packages_cache self;
    damaged_packages_cache := damaged_packages_cache self;
    current_interpreter := current_interpreter self;
    current_scan_id := current_scan_id self; cache_files := cache_files self;
    ui_busy := ui_busy self; upgrade_all_btn := upgrade_all_btn self;
    action_status := action_status self; damaged_tree := damaged_tree self;
    damaged_selection := v;
    reinstall_damaged_btn := reinstall_damaged_btn self |}.

Definition set_reinstall_damaged_btn (v : bool) (self : app) : app :=
  {| all_packages := all_packages self;
    outdated_packages := outdated_packages self;
    reverse_deps := reverse_deps self;
    orphaned_packages_cache := orphaned_packages_cache self;
    damaged_packages_cache := damaged_packages_cache self;
    current_interpreter := current_interpreter self;
    current_scan_id := current_scan_id self; cache_files := cache_files self;
    ui_busy := ui_busy self; upgrade_all_btn := upgrade_all_btn self;
    action_status := action_status self; damaged_tree := damaged_tree self;
    damaged_selection := damaged_selection self;
    reinstall_damaged_btn := v |}.


(** ** Scan coordinator *)

(** The triple returned by [_load_packages_task]. *)
Definition scan_result : Type :=
  (list pkg_info * gmap string (list string) * list string)%type.

(** What a worker puts on [task_queue] besides its completion callback. *)
Inductive queued : Type :=
  | QStatus (message : string) (scan_id : Z)
  | QShowError (title message : string).

(** A worker thread started by [_run_in_thread], with the generation stamp
    bound in its completion callback. *)
Inductive task : Type :=
  | LoadPackages (scan_id : Z) (run_update_check : bool)
  | CheckOutdated (scan_id : Z).

Definition stamp (t : task) : Z :=
  match t with
  | LoadPackages scan_id _ => scan_id
  | CheckOutdated scan_id => scan_id
  end.

Global Instance task_eq_dec : EqDecision task.
Proof. solve_decision. Defined.

(** The inner [update_task] of [_queue_status_update], run by the
    coordinating thread. *)
Definition update_task (message : string) (scan_id : Z) (self : app) : app :=
  if bool_decide (scan_id = current_scan_id self)
  then set_action_status message self
  else self.

Definition _update_ui_state (is_busy : bool) (self : app) : app :=
  set_upgrade_all_btn
    (bool_decide (outdated_packages self ≠ []) && negb is_busy)
    (set_ui_busy is_busy self).

(** [cache_manager.save(self.current_interpreter, {...})], one file per
    interpreter (a failure to write is printed and ignored by the program;
    here the write succeeds). *)
Definition cache_save (self : app) : app :=
  set_cache_files
    (<[current_interpreter self :=
         {| c_packages := all_packages self;
            c_reverse_deps := reverse_deps self;
            c_damaged_packages := damaged_packages_cache self |}]>
       (cache_files self))
    self.

(** The statements shared by [_on_installed_loaded] and
    [_on_packages_loaded_then_check] once the stamp is current: unpack the
    result, replace the snapshot when [packages] is not empty, store the
    damaged list and write the cache.  These are the statements that
    precede the refresh of the package tree ([_filter_packages]), which
    may raise; the callbacks with that refresh are those of [WithTree]. *)
Definition store_scan_result (result : scan_result) (self : app) : app :=
  let '(packages, reverse_deps, damaged) := result in
  let self :=
    match packages with
    | [] => self
    | _ :: _ =>
        set_reverse_deps reverse_deps
          (set_all_packages
             (sorted_by (fun p => PyStr.lower (name p)) packages) self)
    end in
  let self := set_damaged_packages_cache damaged self in
  cache_save self.

(** What [_on_installed_loaded] writes to the application object when it
    runs to its end, that is, when the refresh of the package tree between
    the cache write and [_update_ui_state] returns
    ([WithTree._on_installed_loaded] has the refresh and what an exception
    in it leaves behind). *)
Definition _on_installed_loaded (result : scan_result) (scan_id : Z)
    (self : app) : app :=
  if bool_decide (scan_id ≠ current_scan_id self) then self
  else
    let self := store_scan_result result self in
    let self := _update_ui_state false self in
    set_action_status "Ready." self.

(** What [_on_packages_loaded_then_check] does when it runs to its end
    (the refresh of the package tree before the status update returns; see
    [WithTree._on_packages_loaded_then_check] for the refresh): the new
    state, the queued status update and the thread started. *)
Definition _on_packages_loaded_then_check (result : scan_result) (scan_id : Z)
    (self : app) : app * list queued * list task :=
  if bool_decide (scan_id ≠ current_scan_id self) then (self, [], [])
  else
    let self := store_scan_result result self in
    (self,
     [QStatus "Checking for outdated packages..." scan_id],
     [CheckOutdated scan_id]).

(** What [_on_outdated_checked] writes when it runs to its end (the two
    refreshes of the package tree before [_update_ui_state] return; see
    [WithTree._on_outdated_checked] for the refreshes). *)
Definition _on_outdated_checked (outdated_map : list (string * outdated_info))
    (scan_id : Z) (self : app) : app :=
  if bool_decide (scan_id ≠ current_scan_id self) then self
  else
    let self := set_outdated_packages outdated_map self in
    let self := set_upgrade_all_btn (bool_decide (outdated_map ≠ [])) self in
    let self := _update_ui_state false self in
    let num_outdated := length (outdated_packages self) in
    let status :=
      if bool_decide (0 < num_outdated)
      then "Found " +:+ PyStr.of_nat num_outdated +:+ " outdated package(s)."
      else "All packages are up-to-date." in
    set_action_status status self.

Definition _start_full_refresh_chain (run_update_check : bool) (self : app)
  : app * list queued * list task :=
  let self := _update_ui_state true self in
  let scan_id := (current_scan_id self + 1)%Z in
  let self := set_current_scan_id scan_id self in
  (self, [], [LoadPackages scan_id run_update_check]).

Definition refresh_installed_only (self : app) : app * list queued * list task :=
  _start_full_refresh_chain false self.

Definition refresh_and_check_updates (self : app) : app * list queued * list task :=
  _start_full_refresh_chain true self.

Definition check_for_updates_only (self : app) : app * list queued * list task :=
  match all_packages self with
  | [] => (self, [], [])
  | _ :: _ =>
      let self := _update_ui_state true self in
      let scan_id := (current_scan_id self + 1)%Z in
      let self := set_current_scan_id scan_id self in
      (self,
       [QStatus "Checking for outdated packages..." scan_id],
       [CheckOutdated scan_id])
  end.

(** [initial_load]; [cache_usable] tells that [cache_manager.load] accepts
    the file of the current interpreter (right version, not expired).  With
    a cache the program refreshes the package tree before it starts the
    scan; this is the run in which that refresh returns
    ([WithTree.initial_load] has the refresh). *)
Definition initial_load (cache_usable run_update_check : bool) (self : app)
  : app * list queued * list task :=
  let cache_data :=
    if cache_usable then cache_files self !! current_interpreter self else None in
  match cache_data with
  | Some c =>
      let self := set_all_packages (c_packages c) self in
      let self := set_reverse_deps (c_reverse_deps c) self in
      let self := set_damaged_packages_cache (c_damaged_packages c) self in
      _start_full_refresh_chain run_update_check self
  | None => _start_full_refresh_chain run_update_check self
  end.

(** [_on_interpreter_selected]; [initial_load] is scheduled on a timer. *)
Definition _on_interpreter_selected (new_interpreter : string) (self : app) : app :=
  if bool_decide (new_interpreter ≠ current_interpreter self) then
    let self := set_current_scan_id (current_scan_id self + 1)%Z self in
    let self := set_current_interpreter new_interpreter self in
    let self := set_action_status
                  ("Switched to environment: "
                   +:+ PyStr.basename (PyStr.dirname new_interpreter)) self in
    let self := set_all_packages [] self in
    let self := set_outdated_packages [] self in
    set_reverse_deps ∅ self
  else self.

(** *** The package scan ([_load_packages_task]) *)

(** The target environment as the scan sees it. *)
Record world : Type := {
  (** the [sysconfig] probe run in an interpreter: the text of the
      exception, or the paths it printed *)
  w_site_packages : string → string + list string;
  w_isdir : string → bool;
  (** [os.listdir]; [None] stands for [OSError] *)
  w_listdir : string → option (list string);
  (** [Distribution.at] followed by [get_package_info_modern]; [None]
      stands for an exception *)
  w_package_info : string → option pkg_info;
  (** [dist.metadata.get('Name', '')] *)
  w_metadata_name : string → string;
  (** [pip list --outdated --format json] run for an interpreter: the text
      of the exception, or the parsed entries *)
  w_pip_outdated : string → string + list outdated_info
}.

Definition all_dist_info_dirs (w : world) (search_paths : list string) : list string :=
  flat_map
    (fun path =>
       match w_listdir w path with
       | Some ds =>
           PyStr.path_join path
             <$> filter (fun d => PyStr.endswith ".dist-info" d = true) ds
       | None => []
       end)
    search_paths.

Definition scanning_message (i total : nat) (what : string) : string :=
  "Scanning... (" +:+ PyStr.of_nat (i + 1) +:+ "/" +:+ PyStr.of_nat total
  +:+ ") " +:+ what.

(** One round of the loop over [enumerate(all_dist_info_dirs)]. *)
Definition scan_dist (w : world) (scan_id : Z) (total : nat)
    (st : list pkg_info * list string * list queued) (entry : nat * string)
  : list pkg_info * list string * list queued :=
  let '(packages, damaged_packages, queue) := st in
  let '(i, dist_path) := entry in
  match w_package_info w dist_path with
  | Some pkg_info =>
      let '(packages, damaged_packages) :=
        if bool_decide (name pkg_info ≠ "N/A")
        then (packages ++ [pkg_info], damaged_packages)
        else (packages, damaged_packages ++ [dist_path]) in
      (packages, damaged_packages,
       queue ++ [QStatus (scanning_message i total (w_metadata_name w dist_path)) scan_id])
  | None =>
      (packages, damaged_packages ++ [dist_path],
       queue ++ [QStatus (scanning_message i total "Found damaged package!") scan_id])
  end.

(** Returns the triple handed to the completion callback and what was put
    on the queue meanwhile. *)
Definition _load_packages_task (self : app) (w : world) (scan_id : Z)
  : res (scan_result * list queued) :=
  let queue := [QStatus "Finding site-packages..." scan_id] in
  match w_site_packages w (current_interpreter self) with
  | inl e =>
      let msg := "Failed to locate site-packages for:" +:+ PyStr.nl
                 +:+ current_interpreter self +:+ PyStr.nl +:+ PyStr.nl
                 +:+ "Error: " +:+ e in
      Ok (([], ∅, []), queue ++ [QShowError "Environment Error" msg])
  | inr paths =>
      let search_paths := filter (fun p => w_isdir w p = true) paths in
      let queue := queue ++ [QStatus "Scanning installed packages..." scan_id] in
      let dirs := all_dist_info_dirs w search_paths in
      let total := length dirs in
      let '(packages, damaged_packages, queue) :=
        fold_left (scan_dist w scan_id total) (imap pair dirs) ([], [], queue) in
      reverse_deps ←! build_reverse_deps packages;
      Ok ((packages, reverse_deps, damaged_packages), queue)
  end.

(** *** The outdated check ([_check_for_outdated_packages_task]) *)

(** Returns the map handed to the completion callback and what was put on
    the queue. *)
Definition _check_for_outdated_packages_task (self : app) (w : world) (scan_id : Z)
  : list (string * outdated_info) * list queued :=
  match w_pip_outdated w (current_interpreter self) with
  | inr items =>
      (fold_left (fun d item => dict_set (o_name item) item d) items [], [])
  | inl e =>
      ([], [QShowError "Update Check Failed"
              ("Could not check for outdated packages." +:+ PyStr.nl
               +:+ PyStr.nl +:+ "Error: " +:+ e)])
  end.

(** *** The orphans tool and the end of a pip action *)

Definition find_orphaned_packages (self : app) : app :=
  match all_packages self with
  | [] => self
  | _ :: _ =>
      set_orphaned_packages_cache
        (orphaned_packages (all_packages self) (reverse_deps self)) self
  end.

(** The inner [on_complete] of [_pip_action] without its [on_complete_extra];
    [auto_check] is the value of the auto-check setting. *)
Definition pip_action_complete (packages_to_clear_from_outdated : list string)
    (auto_check : bool) (self : app) : app * list queued * list task :=
  let self :=
    set_outdated_packages
      (fold_left (fun d pkg_name => dict_pop pkg_name d)
         packages_to_clear_from_outdated (outdated_packages self)) self in
  if auto_check then refresh_and_check_updates self
  else refresh_installed_only self.

(** ** Damage classifier ([_scan_for_damaged_packages_task]) *)

(** A problem dict, with its keys ["id"], ["name"], ["problem"],
    ["details"] and ["type"]. *)
Record problem : Type := {
  p_id : string;
  p_name : string;
  p_problem : string;
  p_details : string;
  p_type : string
}.

Record options : Type := {
  check_deps : bool;
  check_hashes : bool;
  check_import : bool;
  check_metadata_files : bool
}.

(** An entry of [dist.files]. *)
Record file_info : Type := {
  (** [str(file_info)] *)
  fi_str : string;
  (** [file_info.locate()]: the text of the exception, or the full path *)
  fi_locate : string + string;
  (** [file_info.hash.value], [None] when no hash is recorded *)
  fi_hash : option string
}.

(** The object returned by [importlib.metadata.distribution]. *)
Record dist : Type := {
  (** [dist._path] *)
  d_path : string;
  (** [dist.files]: the text of the exception, [None], or the list *)
  d_files : string + option (list file_info)
}.

(** A [subprocess.CompletedProcess]. *)
Record completed : Type := {
  returncode : Z;
  stdout : string;
  stderr : string
}.

(** The collaborators of the damage scan; a left value is the text of the
    exception raised. *)
Record health_world : Type := {
  (** [pip check] run in the current interpreter *)
  hw_pip_check : string + completed;
  (** [packages_distributions()]: modules with their distributions *)
  hw_packages_distributions : string + list (string * list string);
  (** [importlib.metadata.distribution(name)] *)
  hw_distribution : string → string + dist;
  (** the import of a module in a fresh interpreter *)
  hw_run_import : string → string + completed;
  hw_exists : string → bool;
  hw_isfile : string → bool;
  (** reading a file and encoding its SHA-256 digest in URL-safe base 64
      without padding *)
  hw_sha256_b64 : string → string + string
}.

Definition reinstallable : string := "reinstallable".

(** The record appended for an entry of [damaged_packages_cache]. *)
Definition unparseable_record (path : string) : problem :=
  let basename := PyStr.replace ".dist-info" "" (PyStr.basename path) in
  let package_name :=
    match getitem (PyStr.rsplit1 "-" basename) 0 with
    | Ok first => first
    | Raise _ => basename
    end in
  {| p_id := path; p_name := package_name;
     p_problem := "Unparseable metadata";
     p_details := "Could not parse metadata from: " +:+ path;
     p_type := reinstallable |}.

(** One round of the loop over the lines of the [pip check] report. *)
Definition dep_line (problems : list problem) (line : string) : list problem :=
  match PyStr.split1 " has requirement " line with
  | [package_part; req_part] =>
      let package_name_from_check :=
        default "" (head (PyStr.split " " package_part)) in
      problems ++
        [{| p_id := "dep-" +:+ package_name_from_check;
            p_name := package_name_from_check;
            p_problem := "Dependency conflict";
            p_details := req_part;
            p_type := reinstallable |}]
  | _ => problems
  end.

(** The dependency check; an exception of the subprocess is printed and
    the scan goes on. *)
Definition dep_check (w : health_world) (problems : list problem) : list problem :=
  match hw_pip_check w with
  | inr result_proc =>
      let output := stdout result_proc in
      fold_left dep_line (PyStr.splitlines (PyStr.strip output)) problems
  | inl _ => problems
  end.

(** The two nested loops that fill [dist_to_module_map]. *)
Definition build_import_map (w : health_world) : list (string * string) :=
  match hw_packages_distributions w with
  | inr all_mappings =>
      fold_left
        (fun m (entry : string * list string) =>
           let '(module, dists) := entry in
           fold_left (fun m dist_name => dict_set dist_name module m) dists m)
        all_mappings []
  | inl _ => []
  end.

(** The records appended by the [except] clauses of the loop over the
    packages. *)
Definition dist_fail_record (pkg_name e : string) : problem :=
  {| p_id := "dist-fail-" +:+ pkg_name; p_name := pkg_name;
     p_problem := "Distribution lookup failed";
     p_details := e;
     p_type := reinstallable |}.

Definition import_fail_record (pkg_name e : string) : problem :=
  {| p_id := "import-fail-" +:+ pkg_name; p_name := pkg_name;
     p_problem := "Import check failed";
     p_details := e;
     p_type := reinstallable |}.

Definition record_read_fail_record (pkg_name e : string) : problem :=
  {| p_id := "record-read-fail-" +:+ pkg_name; p_name := pkg_name;
     p_problem := "Corrupted RECORD file";
     p_details := "Could not parse file list. Error: " +:+ e;
     p_type := reinstallable |}.

Definition import_test (w : health_world) (dist_to_module_map : list (string * string))
    (pkg_name : string) (problems : list problem) : list problem :=
  match dict_get dist_to_module_map pkg_name with
  | Some import_name_to_test =>
      if bool_decide (import_name_to_test ≠ "") then
        match hw_run_import w import_name_to_test with
        | inr result =>
            if bool_decide (returncode result ≠ 0%Z) then
              let error_details :=
                PyStr.strip (if bool_decide (stderr result ≠ "")
                             then stderr result else stdout result) in
              problems ++
                [{| p_id := "import-" +:+ pkg_name; p_name := pkg_name;
                    p_problem := "Import failed";
                    p_details := default "" (last (PyStr.split PyStr.nl error_details));
                    p_type := reinstallable |}]
            else problems
        | inl e => problems ++ [import_fail_record pkg_name e]
        end
      else problems
  | None => problems
  end.

Definition filecheck_fail_record (pkg_name : string) (fi : file_info) (e : string)
  : problem :=
  {| p_id := "filecheck-fail-" +:+ pkg_name +:+ "-" +:+ fi_str fi;
     p_name := pkg_name;
     p_problem := "File check failed";
     p_details := "Error checking file " +:+ fi_str fi +:+ ": " +:+ e;
     p_type := reinstallable |}.

(** The loop over [("METADATA", "RECORD", "WHEEL")]. *)
Definition missing_metadata (w : health_world) (pkg_name : string) (d : dist)
    (problems : list problem) : list problem :=
  fold_left
    (fun problems name =>
       let meta_path := PyStr.path_join (d_path d) name in
       if negb (hw_exists w meta_path) then
         problems ++
           [{| p_id := "missing-meta-" +:+ pkg_name +:+ "-" +:+ name;
               p_name := pkg_name;
               p_problem := "Missing metadata file";
               p_details := "Metadata file not found: " +:+ name;
               p_type := reinstallable |}]
       else problems)
    ["METADATA"; "RECORD"; "WHEEL"] problems.

(** One round of the loop over [dist_files], with its own [try]. *)
Definition check_file (opts : options) (w : health_world) (pkg_name : string)
    (d : dist) (problems : list problem) (fi : file_info) : list problem :=
  let file_path_str := fi_str fi in
  match fi_locate fi with
  | inl e => problems ++ [filecheck_fail_record pkg_name fi e]
  | inr full_path =>
      let problems :=
        if check_metadata_files opts then missing_metadata w pkg_name d problems
        else problems in
      if check_hashes opts && bool_decide (fi_hash fi ≠ None)
         && hw_isfile w full_path then
        match hw_sha256_b64 w full_path with
        | inr actual_hash_b64 =>
            if bool_decide (fi_hash fi ≠ Some actual_hash_b64) then
              problems ++
                [{| p_id := "hash-" +:+ pkg_name +:+ "-" +:+ file_path_str;
                    p_name := pkg_name;
                    p_problem := "File hash mismatch";
                    p_details := "File: " +:+ file_path_str;
                    p_type := reinstallable |}]
            else problems
        | inl e => problems ++ [filecheck_fail_record pkg_name fi e]
        end
      else problems
  end.

(** One round of the loop over [self.all_packages]. *)
Definition check_package (opts : options) (w : health_world)
    (dist_to_module_map : list (string * string))
    (problems : list problem) (pkg_data : pkg_info) : list problem :=
  let pkg_name := name pkg_data in
  match hw_distribution w pkg_name with
  | inl e => problems ++ [dist_fail_record pkg_name e]
  | inr d =>
      let problems :=
        if check_import opts
        then import_test w dist_to_module_map pkg_name problems
        else problems in
      if check_hashes opts || check_metadata_files opts then
        match d_files d with
        | inr (Some (fi :: fis)) =>
            fold_left (check_file opts w pkg_name d) (fi :: fis) problems
        | inr _ => problems
        | inl e => problems ++ [record_read_fail_record pkg_name e]
        end
      else problems
  end.

(** [dist_to_module_map] at the start of the loop over the packages. *)
Definition import_map (opts : options) (w : health_world) : list (string * string) :=
  if check_import opts then build_import_map w else [].

(** The list [problems] before it is merged by id.  (The updates of the
    status label queued meanwhile are advisory and left out.) *)
Definition raw_problems (self : app) (opts : options) (w : health_world)
  : list problem :=
  let problems := unparseable_record <$> damaged_packages_cache self in
  let problems := if check_deps opts then dep_check w problems else problems in
  fold_left (check_package opts w (import_map opts w)) (all_packages self) problems.

(** [{p['id']: p for p in problems}.values()] *)
Definition unique_problems (problems : list problem) : list problem :=
  snd <$> fold_left (fun d p => dict_set (p_id p) p d) problems [].

Definition _scan_for_damaged_packages_task (self : app) (opts : options)
    (w : health_world) : list problem :=
  unique_problems (raw_problems self opts w).

(** *** The damaged-packages tool on the coordinating thread *)

(** [tree.insert("", tk.END, iid=..., ...)]: Tk refuses an id that is
    already in the tree. *)
Definition tree_insert (item : tree_item) (tree : list tree_item) : res (list tree_item) :=
  if bool_decide (iid item ∈ iid <$> tree)
  then Raise (TclError ("Item " +:+ iid item +:+ " already exists"))
  else Ok (tree ++ [item]).

(** [tree.item(item_id, 'tags')] *)
Fixpoint tree_tags (tree : list tree_item) (item_id : string) : res (list string) :=
  match tree with
  | [] => Raise (TclError ("Item " +:+ item_id +:+ " not found"))
  | item :: tree' =>
      if bool_decide (iid item = item_id) then Ok (tags item)
      else tree_tags tree' item_id
  end.

(** The loop of [_on_damaged_selection_changed], left at the first item
    that is not reinstallable. *)
Fixpoint all_reinstallable (tree : list tree_item) (selection : list string) : res bool :=
  match selection with
  | [] => Ok true
  | item_id :: selection' =>
      tags ←! tree_tags tree item_id;
      if bool_decide (reinstallable ∈ tags) then all_reinstallable tree selection'
      else Ok false
  end.

Definition _on_damaged_selection_changed (self : app) : res app :=
  match damaged_selection self with
  | [] => Ok (set_reinstall_damaged_btn false self)
  | selection =>
      b ←! all_reinstallable (damaged_tree self) selection;
      Ok (set_reinstall_damaged_btn b self)
  end.

(** [find_damaged_packages] up to the start of the worker: the new state
    and whether the scan was started. *)
Definition find_damaged_packages (opts : options) (self : app) : app * bool :=
  match all_packages self with
  | [] => (self, false)
  | _ :: _ =>
      if negb (check_deps opts || check_hashes opts || check_import opts
               || check_metadata_files opts)
         && bool_decide (damaged_packages_cache self = [])
      then (self, false)
      else
        let self := _update_ui_state true self in
        let self := set_damaged_tree [] self in
        let self := set_damaged_selection [] self in
        (self, true)
  end.

Definition _on_damaged_scan_complete (problems : list problem) (self : app) : res app :=
  let self := _update_ui_state false self in
  tree ←! for_each
            (fun tree p =>
               tree_insert {| iid := p_id p;
                              values := [p_name p; p_problem p; p_details p];
                              tags := [p_type p] |} tree)
            problems (damaged_tree self);
  _on_damaged_selection_changed (set_damaged_tree tree self).

(** The user changing the selection of the damaged-packages tree. *)
Definition select_damaged (selection : list string) (self : app) : res app :=
  _on_damaged_selection_changed (set_damaged_selection selection self).

(** A whole run of the tool: the button, the worker, the callback. *)
Definition run_damage_scan (opts : options) (w : health_world) (self : app) : res app :=
  let '(self, started) := find_damaged_packages opts self in
  if started
  then _on_damaged_scan_complete (_scan_for_damaged_packages_task self opts w) self
  else Ok self.

(** *** The coordinating thread and its workers as a transition system *)

(** [in_flight] holds the worker threads that have not delivered yet,
    [requested] the stamps of the scans requested so far, newest first. *)
Record sys : Type := {
  sys_app : app;
  in_flight : list task;
  requested : list Z
}.

Inductive event : Type :=
  | EvInitialLoad (cache_usable run_update_check : bool)
  | EvRefresh (run_update_check : bool)
  | EvCheckUpdatesOnly
  | EvSelectInterpreter (new_interpreter : string)
  | EvStatus (message : string) (scan_id : Z)
  | EvLoaded (scan_id : Z) (run_update_check : bool) (result : scan_result)
  | EvOutdated (scan_id : Z) (outdated_map : list (string * outdated_info))
  | EvPipDone (packages_to_clear_from_outdated : list string) (auto_check : bool)
  | EvFindOrphans
  | EvDamageScan (opts : options) (w : health_world).

Fixpoint remove_first (t : task) (l : list task) : list task :=
  match l with
  | [] => []
  | u :: l' => if bool_decide (u = t) then l' else u :: remove_first t l'
  end.

(** A user action that requests scans: its threads are new requests. *)
Definition request (s : sys) (r : app * list queued * list task) : sys :=
  let '(a, _, ts) := r in
  {| sys_app := a;
     in_flight := in_flight s ++ ts;
     requested := rev (stamp <$> ts) ++ requested s |}.

(** One step of the coordinating thread: a user action, a timer, or the
    delivery of a worker's result to its completion callback; [None] when
    the step cannot happen (no such worker is in flight). *)
Definition sys_step (s : sys) (e : event) : option sys :=
  match e with
  | EvInitialLoad cache_usable run_update_check =>
      Some (request s (initial_load cache_usable run_update_check (sys_app s)))
  | EvRefresh run_update_check =>
      Some (request s (_start_full_refresh_chain run_update_check (sys_app s)))
  | EvCheckUpdatesOnly =>
      Some (request s (check_for_updates_only (sys_app s)))
  | EvSelectInterpreter new_interpreter =>
      Some {| sys_app := _on_interpreter_selected new_interpreter (sys_app s);
              in_flight := in_flight s;
              requested := requested s |}
  | EvStatus message scan_id =>
      Some {| sys_app := update_task message scan_id (sys_app s);
              in_flight := in_flight s;
              requested := requested s |}
  | EvLoaded scan_id run_update_check result =>
      let t := LoadPackages scan_id run_update_check in
      if bool_decide (t ∈ in_flight s) then
        if run_update_check then
          let '(a, _, ts) :=
            _on_packages_loaded_then_check result scan_id (sys_app s) in
          Some {| sys_app := a;
                  in_flight := remove_first t (in_flight s) ++ ts;
                  requested := requested s |}
        else
          Some {| sys_app := _on_installed_loaded result scan_id (sys_app s);
                  in_flight := remove_first t (in_flight s);
                  requested := requested s |}
      else None
  | EvOutdated scan_id outdated_map =>
      let t := CheckOutdated scan_id in
      if bool_decide (t ∈ in_flight s) then
        Some {| sys_app := _on_outdated_checked outdated_map scan_id (sys_app s);
                in_flight := remove_first t (in_flight s);
                requested := requested s |}
      else None
  | EvPipDone packages_to_clear_from_outdated auto_check =>
      Some (request s (pip_action_complete packages_to_clear_from_outdated
                         auto_check (sys_app s)))
  | EvFindOrphans =>
      Some {| sys_app := find_orphaned_packages (sys_app s);
              in_flight := in_flight s;
              requested := requested s |}
  | EvDamageScan opts w =>
      match run_damage_scan opts w (sys_app s) with
      | Ok a => Some {| sys_app := a;
                        in_flight := in_flight s;
                        requested := requested s |}
      | Raise _ => None
      end
  end.

(** The state built by [__init__]. *)
Definition init_app (interpreter : string) : app :=
  {| all_packages := []; outdated_packages := []; reverse_deps := ∅;
     orphaned_packages_cache := []; damaged_packages_cache := [];
     current_interpreter := interpreter; current_scan_id := 0;
     cache_files := ∅; ui_busy := false; upgrade_all_btn := false;
     action_status := ""; damaged_tree := []; damaged_selection := [];
     reinstall_damaged_btn := false |}.

Inductive reachable : sys → Prop :=
  | reachable_init interpreter files :
      reachable {| sys_app := set_cache_files files (init_app interpreter);
                   in_flight := []; requested := [] |}
  | reachable_step s e s' :
      reachable s → sys_step s e = Some s' → reachable s'.

(** The state the claims call authoritative. *)
Definition authoritative (self : app)
  : list pkg_info * gmap string (list string) * list (string * outdated_info) :=
  (all_packages self, reverse_deps self, outdated_packages self).

(** ** Specification-level definitions *)

(** The entries package [A] contributes to the index under the name [k]:
    one for each of its requirements whose bare name is [k], unless [k] is
    empty or is [A]'s own name. *)
Definition records (k : string) (A : pkg_info) : list string :=
  flat_map
    (fun s => if bool_decide (bare_name s = k ∧ k ≠ "" ∧ k ≠ name A)
              then [name A] else [])
    (requires A).

(** The packages that depend on [k], in the order of the scan. *)
Definition dependents_of (k : string) (packages : list pkg_info) : list string :=
  flat_map (records k) packages.

(** Every character of [s] belongs to the class. *)
Fixpoint all_in (cls : ascii → bool) (s : string) : bool :=
  match s with
  | "" => true
  | String c s' => cls c && all_in cls s'
  end.

(** [s] is empty or ends with a character outside the class. *)
Definition ends_outside (cls : ascii → bool) (s : string) : Prop :=
  s = "" ∨ ∃ s' c, s = s' +:+ String c "" ∧ cls c = false.

(** [s] is empty or starts with a character outside the class. *)
Definition starts_outside (cls : ascii → bool) (s : string) : Prop :=
  s = "" ∨ ∃ c s', s = String c s' ∧ cls c = false.

(** The left-hand side of a Version cell: what precedes the first arrow,
    stripped. *)
Definition left_hand_side (version_string : string) : string :=
  PyStr.strip (PyStr.before_first ARROW version_string).

(** Under the sort key, [x] sorts strictly after [y]. *)
Definition sorts_strictly_after (P : packaging_lib) (PACKAGING_AVAILABLE : bool)
    (x y : string) : Prop :=
  ∃ kx ky,
    get_version_sort_key P PACKAGING_AVAILABLE x = Ok kx ∧
    get_version_sort_key P PACKAGING_AVAILABLE y = Ok ky ∧
    key_lt P ky kx = Ok true.

(** The keys computed under one setting of the flag are of one kind. *)
Definition same_kind {V : Type} (flag : bool) (k : sort_key V) : Prop :=
  if flag then ∃ v, k = KVersion v else ∃ s, k = KStr s.

(** The key that the flag, the parser and the parsed ["0.0.0"] determine. *)
Definition the_key (P : packaging_lib) (flag : bool) (v0 : Version P)
    (s : string) : sort_key (Version P) :=
  if flag then
    match parse_version P (left_hand_side s) with
    | Some v => KVersion v
    | None => KVersion v0
    end
  else KStr (left_hand_side s).

(** No key of the index is bound to the empty list. *)
Definition no_empty_entry (d : gmap string (list string)) : Prop :=
  ∀ k, d !! k ≠ Some [].

(** The stamp of a delivery. *)
Definition delivery_stamp (e : event) : option Z :=
  match e with
  | EvLoaded scan_id _ _ => Some scan_id
  | EvOutdated scan_id _ => Some scan_id
  | _ => None
  end.

(** No worker in flight carries a stamp of the future, and a worker that
    carries the current stamp belongs to the newest request. *)
Definition stamps_ok (s : sys) : Prop :=
  ∀ t, t ∈ in_flight s →
       (stamp t ≤ current_scan_id (sys_app s))%Z ∧
       (stamp t = current_scan_id (sys_app s) →
        head (requested s) = Some (stamp t)).



(** Every entry of the dict is filed under the id of its problem. *)
Definition keyed_by_id (d : list (string * problem)) : Prop :=
  ∀ k p, (k, p) ∈ d → p_id p = k.

(** The kinds of problem the scan reports. *)
Definition problem_kinds : list string :=
  [ "Unparseable metadata"; "Dependency conflict"; "Import failed";
    "File hash mismatch"; "Missing metadata file";
    "Distribution lookup failed"; "Import check failed"; "File check failed";
    "Corrupted RECORD file" ].

(** A record of one of these kinds that is marked for reinstallation. *)
Definition well_formed (p : problem) : Prop :=
  p_type p = reinstallable ∧ p_problem p ∈ problem_kinds.

(** The row [_on_damaged_scan_complete] inserts for a problem. *)
Definition item_of (p : problem) : tree_item :=
  {| iid := p_id p; values := [p_name p; p_problem p; p_details p];
     tags := [p_type p] |}.

(** ** Sample data *)

Definition sample_info : outdated_info :=
  {| o_name := "my_package"; o_version := "1.0"; o_latest_version := "2.0";
     o_latest_filetype := "wheel" |}.

Definition sample_pkg (n : string) (reqs : list string) : pkg_info :=
  {| name := n; version := "1.0"; size := 0; install_date_ts := None;
     location := ""; installer := "pip"; metadata := []; requires := reqs |}.

(** Five packages, one of them essential: [app] requires [lib] and [util],
    [lib] requires [core]. *)
Definition sample_packages : list pkg_info :=
  [ sample_pkg "app" ["lib>=1.0"; "util (>=2)"];
    sample_pkg "core" [];
    sample_pkg "lib" ["core"];
    sample_pkg "pip" [];
    sample_pkg "util" [] ].

Definition sample_index : gmap string (list string) :=
  {[ "lib" := ["app"]; "util" := ["app"]; "core" := ["lib"] ]}.

(** A state with a snapshot of the sample, one damaged entry, and two
    refreshes requested. *)
Definition sample_app : app :=
  {| all_packages := sample_packages; outdated_packages := [];
     reverse_deps := sample_index; orphaned_packages_cache := [];
     damaged_packages_cache := ["/site-packages/broken-0.1.dist-info"];
     current_interpreter := "/usr/bin/python3"; current_scan_id := 2;
     cache_files := ∅; ui_busy := true; upgrade_all_btn := false;
     action_status := ""; damaged_tree := []; damaged_selection := [];
     reinstall_damaged_btn := false |}.


(** The system after two refreshes were requested at start-up. *)
Definition sample_sys : sys :=
  {| sys_app := set_current_scan_id 2 (set_ui_busy true (init_app "/usr/bin/python3"));
     in_flight := [LoadPackages 1 false; LoadPackages 2 false];
     requested := [2; 1]%Z |}.

(** An environment in which the lookup of [core] raises, the import of
    the module of [lib] raises, the file list of [util] cannot be read, and
    hashing any [b.py] raises; the WHEEL files are missing. *)
Definition sample_health_world : health_world :=
  {| hw_pip_check :=
       inr {| returncode := 1;
              stdout := "foo 1.0 has requirement bar>=2, but you have bar 1.0."
                        +:+ PyStr.nl
                        +:+ "foo 1.0 has requirement baz, which is not installed."
                        +:+ PyStr.nl;
              stderr := "" |};
     hw_packages_distributions :=
       inr [("libmod", ["lib"]); ("appmod", ["app"; "core"])];
     hw_distribution := fun n =>
       if bool_decide (n = "core") then inl "boom"
       else inr {| d_path := "/site-packages/" +:+ n +:+ "-1.0.dist-info";
                   d_files :=
                     if bool_decide (n = "util") then inl "bad record"
                     else inr (Some [ {| fi_str := n +:+ "/a.py";
                                         fi_locate := inr ("/site-packages/" +:+ n +:+ "/a.py");
                                         fi_hash := Some "h" |};
                                      {| fi_str := n +:+ "/b.py";
                                         fi_locate := inr ("/site-packages/" +:+ n +:+ "/b.py");
                                         fi_hash := Some "h" |} ]) |};
     hw_run_import := fun m =>
       if bool_decide (m = "libmod") then inl "timed out"
       else inr {| returncode := 1; stdout := ""; stderr := "ImportError: x" |};
     hw_exists := fun p => negb (PyStr.endswith "WHEEL" p);
     hw_isfile := fun _ => true;
     hw_sha256_b64 := fun p =>
       if PyStr.endswith "b.py" p then inl "Permission denied" else inr "h" |}.



Definition all_checks : options :=
  {| check_deps := true; check_hashes := true; check_import := true;
     check_metadata_files := true |}.

(** ** Built-ins on lists of texts *)

Module PyList.

(** [sep.join(l)] *)
Fixpoint join (sep : string) (l : list string) : string :=
  match l with
  | [] => ""
  | x :: l' =>
      match l' with
      | [] => x
      | _ :: _ => x +:+ sep +:+ join sep l'
      end
  end.

(** [l.index(x)], [None] standing for [ValueError]. *)
Fixpoint index (x : string) (l : list string) : option nat :=
  match l with
  | [] => None
  | y :: l' => if bool_decide (y = x) then Some 0 else S <$> index x l'
  end.

(** [sorted(l)] for a list of [str]. *)
Definition sorted (l : list string) : list string := sorted_by (fun x => x) l.

(** [[x for x in l if not (x in seen or seen.add(x))]]: the first
    occurrence of every element. *)
Fixpoint unique_go (seen : gset string) (l : list string) : list string :=
  match l with
  | [] => []
  | x :: l' =>
      if bool_decide (x ∈ seen) then unique_go seen l'
      else x :: unique_go ({[ x ]} ∪ seen) l'
  end.

(** [next((f(p) for p in l if test(p)), default)] *)
Fixpoint next_or {A B : Type} (test : A → bool) (f : A → B) (dflt : B) (l : list A) : B :=
  match l with
  | [] => dflt
  | p :: l' => if test p then f p else next_or test f dflt l'
  end.

(** [l.remove(x)]: the first occurrence goes ([ValueError] when there is
    none; the callers test [x in l] first). *)
Fixpoint remove (x : string) (l : list string) : list string :=
  match l with
  | [] => []
  | y :: l' => if bool_decide (y = x) then l' else y :: remove x l'
  end.

End PyList.

(** ** Settings ([SettingsManager]) *)

Record settings : Type := {
  auto_check_updates : bool;
  cache_expiry_hours : Z;
  interpreters : list string
}.

(** The dict [json.load] reads from the settings file, with values of the
    types the program writes; a key may be missing. *)
Record settings_json : Type := {
  j_auto_check_updates : option bool;
  j_cache_expiry_hours : option Z;
  j_interpreters : option (list string)
}.

Module SettingsManager.

Section WithExecutable.

(** [sys.executable] *)
Variable sys_executable : string.

Definition defaults : settings :=
  {| auto_check_updates := true; cache_expiry_hours := 24;
     interpreters := [sys_executable] |}.

(** The loop of [settings.setdefault(key, value)]. *)
Definition setdefaults (j : settings_json) : settings :=
  {| auto_check_updates := default (auto_check_updates defaults) (j_auto_check_updates j);
     cache_expiry_hours := default (cache_expiry_hours defaults) (j_cache_expiry_hours j);
     interpreters := default (interpreters defaults) (j_interpreters j) |}.

(** [False < True] *)
Definition bool_lt (a b : bool) : res bool := Ok (negb a && b).

(** [load] on the files the application leaves: the file is absent
    ([None]), is not JSON (a left value, [json.JSONDecodeError]) or holds a
    dict with values of the types [save] writes.  [load] on any other file
    is [SettingsFile.load] below. *)
Definition load (file : option (string + settings_json)) : res settings :=
  let settings :=
    match file with
    | Some (inr j) => setdefaults j
    | Some (inl _) => defaults
    | None => defaults
    end in
  let listed :=
    if bool_decide (sys_executable ∉ interpreters settings)
    then sys_executable :: interpreters settings
    else interpreters settings in
  let unique_interpreters := PyList.unique_go ∅ listed in
  sorted ←! list_sort bool_lt true
              ((fun x => (bool_decide (x = sys_executable), x)) <$> unique_interpreters);
  Ok {| auto_check_updates := auto_check_updates settings;
        cache_expiry_hours := cache_expiry_hours settings;
        interpreters := snd <$> sorted |}.

End WithExecutable.

(** [save]: what [json.dump] leaves in the file, read as [json.load]
    reads it. *)
Definition save (s : settings) : option (string + settings_json) :=
  Some (inr {| j_auto_check_updates := Some (auto_check_updates s);
               j_cache_expiry_hours := Some (cache_expiry_hours s);
               j_interpreters := Some (interpreters s) |}).

End SettingsManager.

(** ** The settings file as [json.load] reads it *)

(** [SettingsManager.load] above takes the files the application writes
    itself ([save]) and the files that are missing or are not JSON.  What
    follows is [load] on any file: whatever [json.load] returns, and the
    exceptions of reading.  [SettingsFile.load] agrees with
    [SettingsManager.load] on the files of the latter (lemma
    [load_refines]).  [load] is called once, when the application starts
    ([App.__init__]), so [self.defaults] are those of [__init__]. *)

(** A number of a JSON text as Python holds it: an [int]; a [float], given
    by its sign and its exact value [m * 2^e]; an infinity; or the NaN of
    the [json] module (one object, so that it is found again in a set). *)
Inductive number : Type :=
  | NInt (z : Z)
  | NFloat (negative : bool) (m : N) (e : Z)
  | NInf (negative : bool)
  | NNaN.

(** The values [json.load] returns; an object is a [dict] in the order
    of its keys. *)
#[local] Unset Elimination Schemes.
Inductive json : Type :=
  | JNull
  | JBool (b : bool)
  | JNumber (n : number)
  | JString (s : string)
  | JArray (items : list json)
  | JObject (members : list (string * json)).
#[local] Set Elimination Schemes.

(** Hashing: two values are one element of a [set] when they are equal
    under [==], that is, when they have the same key here; [True] is [1],
    [1.0] is [1], [-0.0] is [0]; a [list] and a [dict] have no hash. *)
Module PyHash.

Inductive key : Type :=
  | KNull
  | KString (s : string)
  | KZero
  | KFinite (negative : bool) (m : positive) (e : Z)
  | KInf (negative : bool)
  | KNaN.

Global Instance key_eq_dec : EqDecision key.
Proof. solve_decision. Defined.

(** [p * 2^e] with an odd mantissa. *)
Fixpoint odd_part (p : positive) (e : Z) : positive * Z :=
  match p with
  | xO p' => odd_part p' (e + 1)
  | _ => (p, e)
  end.

Definition finite (negative : bool) (m : N) (e : Z) : key :=
  match m with
  | N0 => KZero
  | Npos p => let '(p', e') := odd_part p e in KFinite negative p' e'
  end.

Definition of_number (n : number) : key :=
  match n with
  | NInt Z0 => KZero
  | NInt (Zpos p) => finite false (Npos p) 0
  | NInt (Zneg p) => finite true (Npos p) 0
  | NFloat negative m e => finite negative m e
  | NInf negative => KInf negative
  | NNaN => KNaN
  end.

(** [None] stands for [TypeError: unhashable type]. *)
Definition of_json (x : json) : option key :=
  match x with
  | JNull => Some KNull
  | JBool b => Some (if b then finite false 1 0 else KZero)
  | JNumber n => Some (of_number n)
  | JString s => Some (KString s)
  | JArray _ | JObject _ => None
  end.

End PyHash.

(** The characters of a text, which iterating over a [str] gives: the
    UTF-8 encoding is cut before every byte that does not continue a
    character. *)
Definition is_continuation_byte (c : ascii) : bool :=
  let n := nat_of_ascii c in (128 <=? n) && (n <? 192).

Fixpoint str_iter (s : string) : list string :=
  match s with
  | "" => []
  | String c s' =>
      match str_iter s' with
      | first :: rest =>
          if match s' with
             | String c' _ => is_continuation_byte c'
             | "" => false
             end
          then String c first :: rest
          else String c "" :: first :: rest
      | [] => [String c ""]
      end
  end.

Module SettingsFile.

(** The exceptions that leave [load]; [OtherError] is any other class
    ([OSError], [UnicodeDecodeError], ...). *)
Inductive error : Type :=
  | AttributeError
  | TypeError
  | KeyError
  | JSONDecodeError
  | OtherError (name : string).

(** The file: absent; or opening it, decoding it or [json.load] raises; or
    [json.load] returns a value. *)
Inductive content : Type :=
  | Missing
  | Unreadable (e : error)
  | Holds (v : json).

(** [except (json.JSONDecodeError, TypeError)] *)
Definition caught (e : error) : bool :=
  match e with
  | JSONDecodeError | TypeError => true
  | _ => false
  end.

Section WithExecutable.

Variable sys_executable : string.

Definition defaults : list (string * json) :=
  [ ("auto_check_updates", JBool true);
    ("cache_expiry_hours", JNumber (NInt 24));
    ("interpreters", JArray [JString sys_executable]) ].

(** [settings.setdefault(key, value)] *)
Definition setdefault (key : string) (value : json) (settings : list (string * json))
  : list (string * json) :=
  if bool_decide (key ∈ settings.*1) then settings else settings ++ [(key, value)].

(** [x == sys.executable] *)
Definition is_executable (x : json) : bool :=
  match x with
  | JString s => bool_decide (s = sys_executable)
  | _ => false
  end.

(** The [try] statement and the [else] branch: the dict the rest of [load]
    works on.  A value that is not a dict has no [setdefault]. *)
Definition read (file : content) : error + list (string * json) :=
  match file with
  | Missing => inr defaults
  | Unreadable e => if caught e then inr defaults else inl e
  | Holds (JObject settings) =>
      inr (fold_left (fun settings kv => setdefault kv.1 kv.2 settings)
             defaults settings)
  | Holds _ => inl AttributeError
  end.

(** [if sys.executable not in v: v.insert(0, sys.executable)], then what
    iterating over [v] gives: the items of a list, the characters of a
    text, the keys of a dict.  Only a list has [insert]; [None], a number
    and a truth value are not iterable. *)
Definition listed (v : json) : error + list json :=
  match v with
  | JArray items =>
      inr (if existsb is_executable items then items
           else JString sys_executable :: items)
  | JString s =>
      if PyStr.contains sys_executable s then inr (JString <$> str_iter s)
      else inl AttributeError
  | JObject members =>
      if bool_decide (sys_executable ∈ members.*1) then inr (JString <$> members.*1)
      else inl AttributeError
  | JNull | JBool _ | JNumber _ => inl TypeError
  end.

(** [[x for x in l if not (x in seen or seen.add(x))]] *)
Fixpoint unique (seen : list PyHash.key) (l : list json) : error + list json :=
  match l with
  | [] => inr []
  | x :: l' =>
      match PyHash.of_json x with
      | None => inl TypeError
      | Some k =>
          if bool_decide (k ∈ seen) then unique seen l'
          else
            match unique (k :: seen) l' with
            | inr r => inr (x :: r)
            | inl e => inl e
            end
      end
  end.

Definition load (file : content) : error + list (string * json) :=
  match read file with
  | inl e => inl e
  | inr settings =>
      match dict_get settings "interpreters" with
      | None => inl KeyError
      | Some v =>
          match listed v with
          | inl e => inl e
          | inr interpreters =>
              match unique [] interpreters with
              | inl e => inl e
              | inr unique_interpreters =>
                  match list_sort SettingsManager.bool_lt true
                          ((fun x => (is_executable x, x)) <$> unique_interpreters)
                  with
                  | Raise _ => inl TypeError
                  | Ok sorted =>
                      inr (dict_set "interpreters" (JArray (snd <$> sorted)) settings)
                  end
              end
          end
      end
  end.

End WithExecutable.

(** [save]: what [json.dump] leaves in the file, read as [json.load]
    reads it. *)
Definition save (settings : list (string * json)) : content :=
  Holds (JObject settings).

(** The files of [SettingsManager.load] as contents. *)
Definition of_typed (file : option (string + settings_json)) : content :=
  match file with
  | None => Missing
  | Some (inl _) => Unreadable JSONDecodeError
  | Some (inr j) =>
      Holds
        (JObject
           (match j_auto_check_updates j with
            | Some b => [("auto_check_updates", JBool b)]
            | None => []
            end
            ++ match j_cache_expiry_hours j with
               | Some h => [("cache_expiry_hours", JNumber (NInt h))]
               | None => []
               end
            ++ match j_interpreters j with
               | Some l => [("interpreters", JArray (JString <$> l))]
               | None => []
               end))
  end.

End SettingsFile.

(** ** Cache files ([CacheManager]) *)

Definition CACHE_VERSION : Z := 4.

(** The dict of a cache file: its ["version"], its ["timestamp"] as the
    microseconds of the instant written in ISO format ([None] when the key
    is missing or is not in that format), and the three lists. *)
Record cache_file : Type := {
  cf_version : option Z;
  cf_timestamp : option Z;
  cf_data : cache_data
}.

Module CacheManager.

Section WithHash.

(** [os.path.expanduser("~")], free of braces. *)
Variable home : string.

(** [hashlib.sha1(text.encode()).hexdigest()] *)
Variable sha1_hexdigest : string → string.

(** [CACHE_FILE_TEMPLATE.format(env_hash=...)] *)
Definition template_path (env_hash : string) : string :=
  PyStr.path_join home (".pylibs_manager_cache_" +:+ env_hash +:+ ".json").

Definition _get_path (interpreter_path : string) : string :=
  let env_hash := String.substring 0 10 (sha1_hexdigest interpreter_path) in
  template_path env_hash.

(** The files of the home directory: a path is bound to [None] when its
    file cannot be read as JSON. *)
Definition disk : Type := gmap string (option cache_file).

(** [load]; [now] is [datetime.datetime.now()] in microseconds.  Every
    exception, the overflow of [timedelta(hours=...)] included, ends in
    [None]. *)
Definition load (d : disk) (now : Z) (interpreter_path : string) (expiry_hours : Z)
  : option cache_file :=
  let cache_path := _get_path interpreter_path in
  match d !! cache_path with
  | None => None
  | Some None => None
  | Some (Some cache_data) =>
      if bool_decide (cf_version cache_data ≠ Some CACHE_VERSION) then None
      else if bool_decide (0 < expiry_hours)%Z then
        match cf_timestamp cache_data with
        | None => None
        | Some cache_time =>
            if bool_decide (24 * 1000000000 ≤ expiry_hours)%Z then None
            else if bool_decide (now - cache_time > expiry_hours * 3600000000)%Z
            then None
            else Some cache_data
        end
      else Some cache_data
  end.

(** [save] (a failure to write is printed and ignored by the program;
    here the write succeeds). *)
Definition save (d : disk) (now : Z) (interpreter_path : string) (data : cache_data)
  : disk :=
  let cache_path := _get_path interpreter_path in
  let data_to_save :=
    {| cf_version := Some CACHE_VERSION; cf_timestamp := Some now;
       cf_data := data |} in
  <[cache_path := Some data_to_save]> d.

End WithHash.

End CacheManager.

(** ** Running pip ([_pip_action] and its callers) *)

(** [self.package_manager] with [self.package_manager_path], which
    [_detect_package_manager] sets together: the path of the [uv]
    executable exactly when the manager is ['uv']. *)
Inductive pkg_manager : Type :=
  | pip
  | uv (package_manager_path : string).

(** The callbacks passed as [on_complete_extra]. *)
Inductive extra : Type :=
  | no_extra
  | clear_package_entry
  | on_uninstall_complete
  | rescan_damaged.

(** A call of [_run_pip_command] by [_pip_action]: the command line, the
    title of the log window, and what the inner [on_complete] does. *)
Record pip_run : Type := {
  command : list string;
  log_title : string;
  on_complete_extra : extra;
  packages_to_clear_from_outdated : list string
}.

(** How a handler of the user interface ends. *)
Inductive action_result : Type :=
  | Returned
  | Restarted (args : list string)
  | MessageBox (title message : string)
  | Started (run : pip_run).

Definition RESTART_REQUIRED_PACKAGES : gset string :=
  {[ "tkinterdnd2"; "packaging" ]}.

Definition allowed_installers (package_manager : pkg_manager) : list string :=
  match package_manager with
  | uv _ => ["pip"; "uv"]
  | pip => ["pip"]
  end.

(** [{p['name']: p for p in self.all_packages}] *)
Definition package_map (all_packages : list pkg_info) : list (string * pkg_info) :=
  fold_left (fun d p => dict_set (name p) p d) all_packages [].

(** [tree.item(item_id, 'values')] *)
Fixpoint tree_values (tree : list tree_item) (item_id : string) : res (list string) :=
  match tree with
  | [] => Raise (TclError ("Item " +:+ item_id +:+ " not found"))
  | item :: tree' =>
      if bool_decide (iid item = item_id) then Ok (values item)
      else tree_values tree' item_id
  end.

(** The question [_pip_action] asks about the packages it shows. *)
Definition pip_question (question : string) (display_packages : list string)
  : string :=
  question +:+ " " +:+ PyStr.of_nat (length display_packages)
  +:+ " package(s)?" +:+ PyStr.nl +:+ PyStr.nl
  +:+ PyList.join ", " display_packages.

(** The question [confirm_and_install_from_file] asks about the lines of
    the file that are neither blank nor comments. *)
Definition install_from_file_question (filepath : string) (lines : list string)
  : string :=
  let packages_to_show := PyList.join PyStr.nl (take 15 lines) in
  let packages_to_show :=
    if bool_decide (15 < length lines)
    then packages_to_show +:+ PyStr.nl +:+ "...and "
         +:+ PyStr.of_nat (length lines - 15) +:+ " more."
    else packages_to_show in
  "Are you sure you want to install " +:+ PyStr.of_nat (length lines)
  +:+ " package(s) from " +:+ PyStr.basename filepath +:+ "?"
  +:+ PyStr.nl +:+ PyStr.nl +:+ packages_to_show.

Section PipActions.

(** [sys.executable] and [sys.argv[0]] *)
Variable sys_executable : string.
Variable argv0 : string.

(** The answers of the user to [messagebox.askyesno(title, message)]. *)
Variable askyesno : string → string → bool.

(** [list(s)[0]] for a set [s]: the element its iteration gives first. *)
Variable first_of : gset string → string.

Variable package_manager : pkg_manager.

(** [_pip_action]; [flags=None] is the empty list.  (The subprocess still
    running is terminated first.) *)
Definition _pip_action (action : string) (packages : list string)
    (title question : string) (is_question : bool) (flags : list string)
    (on_complete_extra : extra) (packages_to_clear_from_outdated : list string)
    (self : app) : app * action_result :=
  if bool_decide (packages = [])
     && negb (bool_decide (action = "install") && bool_decide ("-r" ∈ flags))
  then (self, Returned)
  else
    let display_packages := if bool_decide ("-r" ∉ flags) then packages else [] in
    let question_str :=
      question +:+ " " +:+ PyStr.of_nat (length display_packages)
      +:+ " package(s)?" +:+ PyStr.nl +:+ PyStr.nl
      +:+ PyList.join ", " display_packages in
    if is_question && negb (askyesno title question_str) then (self, Returned)
    else
      let self := _update_ui_state true self in
      let status_msg_count :=
        if bool_decide (packages ≠ []) then PyStr.of_nat (length packages)
        else "from file" in
      let self :=
        set_action_status
          ("Running '" +:+ action +:+ "' on " +:+ status_msg_count
           +:+ " package(s)...") self in
      let local_flags := flags in
      let '(command, local_flags) :=
        match package_manager with
        | uv package_manager_path =>
            ([package_manager_path; "pip"; action; "-p"; current_interpreter self],
             local_flags)
        | pip =>
            ([current_interpreter self; "-m"; "pip"; action],
             if bool_decide (action = "uninstall") then local_flags ++ ["--yes"]
             else local_flags)
        end in
      let command := command ++ local_flags in
      let command := command ++ packages in
      (self,
       Started {| command := command; log_title := title +:+ " Log";
                  on_complete_extra := on_complete_extra;
                  packages_to_clear_from_outdated := packages_to_clear_from_outdated |}).

(** [delete_selected]; [selected] is [self.tree.selection()]. *)
Definition delete_selected (selected : list string) (self : app)
  : app * action_result :=
  match selected with
  | [] => (self, Returned)
  | _ :: _ =>
      let critical_to_uninstall : gset string :=
        list_to_set (PyStr.lower <$> selected) ∩ RESTART_REQUIRED_PACKAGES in
      if bool_decide (critical_to_uninstall ≠ ∅)
         && bool_decide (current_interpreter self = sys_executable) then
        let pkg_name := first_of critical_to_uninstall in
        let msg :=
          "To safely uninstall '" +:+ pkg_name
          +:+ "', which is currently in use, the application needs to restart."
          +:+ PyStr.nl +:+ PyStr.nl
          +:+ "The app will close, run the uninstallation, and then restart automatically. Continue?" in
        if askyesno "Restart Required for Uninstallation" msg
        then (self, Restarted [sys_executable; argv0; "--uninstall-on-startup"; pkg_name])
        else (self, Returned)
      else if bool_decide ("pip" ∈ PyStr.lower <$> selected) then
        (self,
         MessageBox "Action Not Recommended"
           "Uninstalling 'pip' is a potentially destructive action and is not directly supported through this UI.")
      else
        _pip_action "uninstall" selected "Confirm Deletion"
          "Are you sure you want to delete" true [] no_extra selected self
  end.

Definition upgrade_all_outdated (self : app) : app * action_result :=
  let allowed_installers := allowed_installers package_manager in
  let package_map := package_map (all_packages self) in
  let all_outdated_names := (outdated_packages self).*1 in
  let packages_to_upgrade :=
    filter
      (fun name =>
         match dict_get package_map name with
         | Some p => bool_decide (installer p ∈ allowed_installers)
         | None => false
         end = true)
      all_outdated_names in
  match packages_to_upgrade with
  | [] => (self, Returned)
  | _ :: _ =>
      let warning_message :=
        "Are you sure you want to upgrade all "
        +:+ PyStr.of_nat (length packages_to_upgrade)
        +:+ " manageable outdated packages?" +:+ PyStr.nl +:+ PyStr.nl
        +:+ "WARNING: This can potentially break dependencies." in
      if askyesno "Confirm Upgrade All" warning_message then
        _pip_action "install" packages_to_upgrade "Upgrade All Log"
          "Upgrading all outdated packages..." false ["--upgrade"] no_extra
          packages_to_upgrade self
      else (self, Returned)
  end.

(** [reinstall_selected_damaged]; the set of names is sorted, so the order
    in which the set is iterated does not show. *)
Definition reinstall_selected_damaged (self : app) : res (app * action_result) :=
  match damaged_selection self with
  | [] => Ok (self, Returned)
  | selection =>
      names ←! map_res
                 (fun item_id =>
                    values ←! tree_values (damaged_tree self) item_id;
                    getitem values 0)
                 selection;
      let name_set : gset string := list_to_set names in
      let packages_to_reinstall := PyList.sorted (elements name_set) in
      let msg :=
        "This will attempt to force-reinstall "
        +:+ PyStr.of_nat (length packages_to_reinstall) +:+ " package(s):"
        +:+ PyStr.nl +:+ PyStr.nl
        +:+ PyList.join ", " packages_to_reinstall +:+ PyStr.nl +:+ PyStr.nl
        +:+ "This is often effective for fixing the detected issues. Continue?" in
      if askyesno "Confirm Reinstallation" msg then
        let flags :=
          match package_manager with
          | uv _ => ["--reinstall"; "--no-cache"]
          | pip => ["--force-reinstall"; "--no-cache-dir"]
          end in
        Ok (_pip_action "install" packages_to_reinstall
              "Reinstalling Damaged Packages" "Reinstalling..." false flags
              rescan_damaged [] self)
      else Ok (self, Returned)
  end.

(** [uninstall_selected_orphans]; [selected] is
    [self.orphan_tree.selection()]. *)
Definition uninstall_selected_orphans (selected : list string) (self : app)
  : app * action_result :=
  match selected with
  | [] => (self, Returned)
  | _ :: _ =>
      let package_list := PyList.join PyStr.nl (take 10 selected) in
      let package_list :=
        if bool_decide (10 < length selected)
        then package_list +:+ PyStr.nl +:+ "...and "
             +:+ PyStr.of_nat (length selected - 10) +:+ " more."
        else package_list in
      let question :=
        "Are you sure you want to uninstall these "
        +:+ PyStr.of_nat (length selected) +:+ " selected package(s)?"
        +:+ PyStr.nl +:+ PyStr.nl
        +:+ "These are packages that do not appear to be required by any other installed package. "
        +:+ "Ensure they are not top-level tools you wish to keep (e.g., pytest, black, mypy)."
        +:+ PyStr.nl +:+ PyStr.nl +:+ package_list in
      if askyesno "Confirm Uninstall Orphans" question then
        _pip_action "uninstall" selected "Uninstalling Orphaned Packages"
          "Uninstalling..." false [] on_uninstall_complete [] self
      else (self, Returned)
  end.

(** [confirm_and_install_from_file]; [read_lines] gives the lines of a
    text file, or the text of the exception raised while reading it. *)
Definition confirm_and_install_from_file (read_lines : string → string + list string)
    (filepath : string) (self : app) : app * action_result :=
  match read_lines filepath with
  | inl e => (self, MessageBox "Error Reading File" ("Could not read the file: " +:+ e))
  | inr file_lines =>
      let lines :=
        PyStr.strip
          <$> filter
                (fun line =>
                   (bool_decide (PyStr.strip line ≠ "")
                    && negb (PyStr.startswith "#" (PyStr.strip line))) = true)
                file_lines in
      match lines with
      | [] =>
          (self,
           MessageBox "Empty File"
             "The selected requirements file is empty or only contains comments.")
      | _ :: _ =>
          let question := install_from_file_question filepath lines in
          if askyesno "Confirm Installation from File" question then
            _pip_action "install" [] "Installation from File" "" false
              ["-r"; filepath] no_extra [] self
          else (self, Returned)
      end
  end.

End PipActions.

(** *** Start-up ([main], [handle_startup_uninstall]) *)

(** What the process does once started. *)
Inductive startup : Type :=
  | StartupUninstall (command relaunch : list string)
  | StartupFlagError (message : string)
  | StartGui.

(** [handle_startup_uninstall]: the pip command it runs and the command
    that relaunches the application in its [finally] clause. *)
Definition handle_startup_uninstall (sys_executable : string) (argv : list string)
    (package_name : string) : res startup :=
  let command := [sys_executable; "-m"; "pip"; "uninstall"; "--yes"; package_name] in
  argv0 ←! getitem argv 0;
  Ok (StartupUninstall command [sys_executable; argv0]).

(** [main]; [argv] is [sys.argv]. *)
Definition main (sys_executable : string) (argv : list string) : res startup :=
  if bool_decide ("--uninstall-on-startup" ∈ argv) then
    let attempt :=
      match PyList.index "--uninstall-on-startup" argv with
      | Some idx =>
          package_to_uninstall ←! getitem argv (idx + 1);
          handle_startup_uninstall sys_executable argv package_to_uninstall
      | None => Raise IndexError
      end in
    match attempt with
    | Raise IndexError =>
        Ok (StartupFlagError
              "Error: --uninstall-on-startup flag found without a package name.")
    | r => r
    end
  else Ok StartGui.

(** ** Vulnerability scan ([_run_vulnerability_scan_task]) *)

(** An entry of ["vulns"] in the report of pip-audit; a key may be
    missing. *)
Record vuln : Type := {
  v_id : option string;
  v_description : option string;
  v_fix_versions : option (list string)
}.

(** An entry of ["dependencies"]; pip-audit names every dependency, and a
    report in which an entry with vulnerabilities has no name counts among
    those that raise (see [aw_dependencies]). *)
Record audit_dep : Type := {
  dep_name : string;
  dep_vulns : option (list vuln)
}.

(** What the scan task returns: the dict [{"error": text}], or the
    [defaultdict] of the vulnerabilities filed under lowercased names
    (the empty dict when pip-audit printed nothing at all). *)
Inductive audit_result : Type :=
  | AuditError (e : string)
  | AuditVulns (vulns_by_pkg : list (string * list vuln)).

(** [d[k].append(v)] on a [defaultdict(list)] in insertion order. *)
Fixpoint dict_append {V : Type} (k : string) (v : V) (d : list (string * list V))
  : list (string * list V) :=
  match d with
  | [] => [(k, [v])]
  | (k', vs) :: d' =>
      if bool_decide (k' = k) then (k', vs ++ [v]) :: d'
      else (k', vs) :: dict_append k v d'
  end.

(** The collaborators of the scan: pip-audit run in the current
    interpreter and [json.loads] with [data.get('dependencies', [])]; a
    left value is the text of the exception raised. *)
Record audit_world : Type := {
  aw_pip_audit : string + completed;
  aw_dependencies : string → string + list audit_dep
}.

Definition _run_vulnerability_scan_task (w : audit_world) : audit_result :=
  match aw_pip_audit w with
  | inl e => AuditError e
  | inr result_proc =>
      if bool_decide (stdout result_proc = "") then
        if bool_decide (stderr result_proc ≠ "") then AuditError (stderr result_proc)
        else AuditVulns []
      else
        match aw_dependencies w (stdout result_proc) with
        | inl e => AuditError e
        | inr dependencies =>
            AuditVulns
              (fold_left
                 (fun vulns_by_pkg dep =>
                    match dep_vulns dep with
                    | Some (v :: vs) =>
                        fold_left
                          (fun d v => dict_append (PyStr.lower (dep_name dep)) v d)
                          (v :: vs) vulns_by_pkg
                    | _ => vulns_by_pkg
                    end)
                 dependencies [])
        end
  end.

(** The state of the vulnerability tool: the cache, the rows of its tree
    and its status label. *)
Record vuln_tool : Type := {
  vulnerabilities_cache : list (string * list vuln);
  vuln_tree : list (list string);
  vuln_status_label : string
}.

(** ["error" in result] *)
Definition has_error_key (result : audit_result) : bool :=
  match result with
  | AuditError _ => true
  | AuditVulns d => bool_decide ("error" ∈ d.*1)
  end.

(** The row inserted for one vulnerability. *)
Definition vuln_row (all_packages : list pkg_info) (name' : string) (v : vuln)
  : list string :=
  let version' :=
    PyList.next_or
      (fun p => bool_decide (PyStr.lower (name p) = PyStr.lower name'))
      version "?" all_packages in
  [ name'; version'; default "N/A" (v_id v); default "N/A" (v_description v);
    PyList.join ", " (default [] (v_fix_versions v)) ].

(** [_on_vulnerability_scan_complete] up to the refresh of the package
    tree. *)
Definition _on_vulnerability_scan_complete (result : audit_result) (self : app)
  : app * vuln_tool :=
  let self := _update_ui_state false self in
  if has_error_key result then
    (self,
     {| vulnerabilities_cache := []; vuln_tree := [];
        vuln_status_label := "Scan failed. See console for details." |})
  else
    let d := match result with AuditVulns d => d | AuditError _ => [] end in
    let rows :=
      flat_map
        (fun entry : string * list vuln =>
           vuln_row (all_packages self) entry.1 <$> entry.2)
        d in
    let total_vulns := length rows in
    (self,
     {| vulnerabilities_cache := d; vuln_tree := rows;
        vuln_status_label :=
          "Scan complete. Found " +:+ PyStr.of_nat total_vulns
          +:+ " vulnerabilit(y/ies)." |}).

(** ** The package tree of the Manage tab *)

Inductive column : Type :=
  | Name_col
  | Version_col
  | Size_col
  | Date_col.

(** The key of a row under one column: a [Version] or a [str] for the
    Version column, an [int] or a [float] for Size and Date, [None] for a
    package without install date, a [str] for Name. *)
Inductive column_key (V : Type) : Type :=
  | ColVersion (k : sort_key V)
  | ColNum (n : N)
  | ColNone
  | ColStr (s : string).

Arguments ColVersion {V} k.
Arguments ColNum {V} n.
Arguments ColNone {V}.
Arguments ColStr {V} s.

(** The widgets of the Manage tab the handlers read and write. *)
Record manage_tab : Type := {
  tree : list tree_item;
  search_var : string;
  show_outdated_var : bool;
  last_sort_column : column;
  last_sort_reverse : bool
}.

(** [tree.insert("", tk.END, iid=...)] on a tree whose root is the item
    with the empty id. *)
Definition tree_insert_end (item : tree_item) (tree : list tree_item)
  : res (list tree_item) :=
  if bool_decide (iid item = "")
  then Raise (TclError ("Item " +:+ iid item +:+ " already exists"))
  else tree_insert item tree.

Section ManageTab.

Context (P : packaging_lib).
Variable PACKAGING_AVAILABLE : bool.

(** The texts of the Size and Date cells: [PackageUtils.format_size] of
    the size, which formats a floating-point number, and
    [PackageUtils.format_date] of the local date of the time stamp. *)
Variable format_size : N → string.
Variable format_date : option N → string.

(** [a < b] on the keys of a column; [None] compares with nothing. *)
Definition column_key_lt (a b : column_key (Version P)) : res bool :=
  match a, b with
  | ColVersion x, ColVersion y => key_lt P x y
  | ColNum x, ColNum y => Ok (x <? y)%N
  | ColStr x, ColStr y => Ok (String.ltb x y)
  | _, _ => Raise TypeError
  end.

(** [tree.set(iid, col)] read off the row. *)
Definition cell (item : tree_item) (col : column) : string :=
  default ""
    (values item !! match col with Name_col => 0 | Version_col => 1 | Size_col => 2 | Date_col => 3 end).

(** The entries of [key_func_map] and the default key. *)
Definition key_func (all_packages : list pkg_info) (col : column) (item : tree_item)
  : res (column_key (Version P)) :=
  match col with
  | Version_col =>
      k ←! get_version_sort_key P PACKAGING_AVAILABLE (cell item Version_col);
      Ok (ColVersion k)
  | Size_col =>
      Ok (PyList.next_or (fun p => bool_decide (name p = iid item))
            (fun p => ColNum (size p)) (ColNum 0) all_packages)
  | Date_col =>
      Ok (PyList.next_or (fun p => bool_decide (name p = iid item))
            (fun p => match install_date_ts p with
                      | Some t => ColNum t
                      | None => ColNone
                      end)
            (ColNum 0) all_packages)
  | Name_col => Ok (ColStr (PyStr.lower (cell item Name_col)))
  end.

(** [_sort_column]; the rows are moved to the order of the sorted pairs.
    (The arrows of the headings are left out.) *)
Definition _sort_column (all_packages : list pkg_info) (col : column)
    (reverse : bool) (tab : manage_tab) : res manage_tab :=
  data ←! map_res (fun child => k ←! key_func all_packages col child; Ok (k, child))
            (tree tab);
  data ←! list_sort column_key_lt reverse data;
  Ok {| tree := snd <$> data; search_var := search_var tab;
        show_outdated_var := show_outdated_var tab;
        last_sort_column := col; last_sort_reverse := reverse |}.

(** The row [_populate_tree] inserts for a package. *)
Definition package_row (outdated_packages : list (string * outdated_info))
    (vulnerabilities_cache : list (string * list vuln)) (pkg : pkg_info) : tree_item :=
  let outdated_info := _is_package_outdated outdated_packages (name pkg) in
  let tags := match outdated_info with Some _ => ["outdated"] | None => [] end in
  let version_display :=
    match outdated_info with
    | Some info => version_display (version pkg) (o_latest_version info)
    | None => version pkg
    end in
  let tags :=
    if bool_decide (PyStr.lower (name pkg) ∈ vulnerabilities_cache.*1)
    then tags ++ ["vulnerable"] else tags in
  {| iid := name pkg;
     values := [name pkg; version_display; format_size (size pkg);
                format_date (install_date_ts pkg)];
     tags := tags |}.

(** [_populate_tree(packages)]: the tree is emptied, filled and sorted by
    the column sorted last.  (The selection is restored and the status bar
    updated afterwards.) *)
Definition _populate_tree (self : app)
    (vulnerabilities_cache : list (string * list vuln))
    (package_source : list pkg_info) (tab : manage_tab) : res manage_tab :=
  rows ←! for_each
            (fun tree pkg =>
               tree_insert_end
                 (package_row (outdated_packages self) vulnerabilities_cache pkg) tree)
            package_source [];
  _sort_column (all_packages self) (last_sort_column tab) (last_sort_reverse tab)
    {| tree := rows; search_var := search_var tab;
       show_outdated_var := show_outdated_var tab;
       last_sort_column := last_sort_column tab;
       last_sort_reverse := last_sort_reverse tab |}.

Definition _filter_packages (self : app)
    (vulnerabilities_cache : list (string * list vuln)) (tab : manage_tab)
  : res manage_tab :=
  let query := PyStr.lower (search_var tab) in
  let show_outdated_only := show_outdated_var tab in
  let filtered :=
    filter
      (fun pkg =>
         (PyStr.contains query (PyStr.lower (name pkg))
          && (negb show_outdated_only
              || bool_decide (_is_package_outdated (outdated_packages self) (name pkg)
                              ≠ None))) = true)
      (all_packages self) in
  _populate_tree self vulnerabilities_cache filtered tab.

End ManageTab.

(** ** The completion callbacks with the refresh of the package tree *)

(** The callbacks of the scan coordinator as the program runs them: the
    statements of [store_scan_result] and of [_on_outdated_checked], then
    the refresh of the package tree, then the statements that follow it.
    The refresh may raise ([TclError] from [tree.insert], [TypeError] from
    the sort); the exception leaves the callback, so the statements after
    the refresh are not run.  A callback returns the application object as
    its statements left it and the Manage tab, or the exception in place of
    the tab (the tree is then partly filled). *)
Module WithTree.

Section Callbacks.

Context (P : packaging_lib).
Variable PACKAGING_AVAILABLE : bool.
Variable format_size : N → string.
Variable format_date : option N → string.

(** [self.vulnerabilities_cache], which the callbacks read only *)
Variable vulnerabilities_cache : list (string * list vuln).

Definition _on_installed_loaded (result : scan_result) (scan_id : Z)
    (self : app) (tab : manage_tab) : app * res manage_tab :=
  if bool_decide (scan_id ≠ current_scan_id self) then (self, Ok tab)
  else
    let self := store_scan_result result self in
    match _filter_packages P PACKAGING_AVAILABLE format_size format_date self
            vulnerabilities_cache tab with
    | Ok tab =>
        let self := _update_ui_state false self in
        (set_action_status "Ready." self, Ok tab)
    | Raise e => (self, Raise e)
    end.

(** Besides the state: the queued status update and the thread started. *)
Definition _on_packages_loaded_then_check (result : scan_result) (scan_id : Z)
    (self : app) (tab : manage_tab)
  : app * list queued * list task * res manage_tab :=
  if bool_decide (scan_id ≠ current_scan_id self) then (self, [], [], Ok tab)
  else
    let self := store_scan_result result self in
    match _filter_packages P PACKAGING_AVAILABLE format_size format_date self
            vulnerabilities_cache tab with
    | Ok tab =>
        (self,
         [QStatus "Checking for outdated packages..." scan_id],
         [CheckOutdated scan_id],
         Ok tab)
    | Raise e => (self, [], [], Raise e)
    end.

Definition _on_outdated_checked (outdated_map : list (string * outdated_info))
    (scan_id : Z) (self : app) (tab : manage_tab) : app * res manage_tab :=
  if bool_decide (scan_id ≠ current_scan_id self) then (self, Ok tab)
  else
    let self := set_outdated_packages outdated_map self in
    let self := set_upgrade_all_btn (bool_decide (outdated_map ≠ [])) self in
    let refreshed :=
      tab ←! _populate_tree P PACKAGING_AVAILABLE format_size format_date self
               vulnerabilities_cache (all_packages self) tab;
      _filter_packages P PACKAGING_AVAILABLE format_size format_date self
        vulnerabilities_cache tab in
    match refreshed with
    | Ok tab =>
        let self := _update_ui_state false self in
        let num_outdated := length (outdated_packages self) in
        let status :=
          if bool_decide (0 < num_outdated)
          then "Found " +:+ PyStr.of_nat num_outdated +:+ " outdated package(s)."
          else "All packages are up-to-date." in
        (set_action_status status self, Ok tab)
    | Raise e => (self, Raise e)
    end.

Definition initial_load (cache_usable run_update_check : bool) (self : app)
    (tab : manage_tab) : app * list queued * list task * res manage_tab :=
  let cache_data :=
    if cache_usable then cache_files self !! current_interpreter self else None in
  match cache_data with
  | Some c =>
      let self := set_all_packages (c_packages c) self in
      let self := set_reverse_deps (c_reverse_deps c) self in
      let self := set_damaged_packages_cache (c_damaged_packages c) self in
      let refreshed :=
        tab ←! _populate_tree P PACKAGING_AVAILABLE format_size format_date self
                 vulnerabilities_cache (all_packages self) tab;
        _filter_packages P PACKAGING_AVAILABLE format_size format_date self
          vulnerabilities_cache tab in
      match refreshed with
      | Ok tab =>
          let '(self, queue, tasks) := _start_full_refresh_chain run_update_check self in
          (self, queue, tasks, Ok tab)
      | Raise e => (self, [], [], Raise e)
      end
  | None =>
      let '(self, queue, tasks) := _start_full_refresh_chain run_update_check self in
      (self, queue, tasks, Ok tab)
  end.

End Callbacks.

End WithTree.

(** ** The interpreter list of the Settings tab *)

(** The interpreter box, the variables [_save_settings] reads, the settings
    dict and the settings file.  A button is [true] when its state is
    [tk.NORMAL]; [cache_expiry_var] is [int(self.cache_expiry_var.get())],
    [None] when that raises. *)
Record interpreter_bar : Type := {
  interpreter_combo : list string;
  interpreter_var : string;
  remove_interpreter_btn : bool;
  auto_check_var : bool;
  cache_expiry_var : option Z;
  settings_dict : settings;
  settings_file : option (string + settings_json)
}.

Definition set_interpreter_combo (v : list string) (bar : interpreter_bar)
  : interpreter_bar :=
  {| interpreter_combo := v; interpreter_var := interpreter_var bar;
     remove_interpreter_btn := remove_interpreter_btn bar;
     auto_check_var := auto_check_var bar; cache_expiry_var := cache_expiry_var bar;
     settings_dict := settings_dict bar; settings_file := settings_file bar |}.

Definition set_interpreter_var (v : string) (bar : interpreter_bar)
  : interpreter_bar :=
  {| interpreter_combo := interpreter_combo bar; interpreter_var := v;
     remove_interpreter_btn := remove_interpreter_btn bar;
     auto_check_var := auto_check_var bar; cache_expiry_var := cache_expiry_var bar;
     settings_dict := settings_dict bar; settings_file := settings_file bar |}.

Definition set_remove_interpreter_btn (v : bool) (bar : interpreter_bar)
  : interpreter_bar :=
  {| interpreter_combo := interpreter_combo bar;
     interpreter_var := interpreter_var bar; remove_interpreter_btn := v;
     auto_check_var := auto_check_var bar; cache_expiry_var := cache_expiry_var bar;
     settings_dict := settings_dict bar; settings_file := settings_file bar |}.

Definition set_settings_dict (v : settings) (bar : interpreter_bar)
  : interpreter_bar :=
  {| interpreter_combo := interpreter_combo bar;
     interpreter_var := interpreter_var bar;
     remove_interpreter_btn := remove_interpreter_btn bar;
     auto_check_var := auto_check_var bar; cache_expiry_var := cache_expiry_var bar;
     settings_dict := v; settings_file := settings_file bar |}.

Definition set_settings_file (v : option (string + settings_json))
    (bar : interpreter_bar) : interpreter_bar :=
  {| interpreter_combo := interpreter_combo bar;
     interpreter_var := interpreter_var bar;
     remove_interpreter_btn := remove_interpreter_btn bar;
     auto_check_var := auto_check_var bar; cache_expiry_var := cache_expiry_var bar;
     settings_dict := settings_dict bar; settings_file := v |}.

Section InterpreterList.

Variable sys_executable : string.

(** [os.path.exists] *)
Variable path_exists : string → bool.

(** [messagebox.askyesno(title, message)] *)
Variable askyesno : string → string → bool.

(** [_save_settings], the widgets being built; the file can be written.
    (The status line is updated afterwards.) *)
Definition _save_settings (bar : interpreter_bar) : interpreter_bar :=
  let settings :=
    {| auto_check_updates := auto_check_var bar;
       cache_expiry_hours := default 24%Z (cache_expiry_var bar);
       interpreters := interpreters (settings_dict bar) |} in
  let settings :=
    {| auto_check_updates := auto_check_updates settings;
       cache_expiry_hours := cache_expiry_hours settings;
       interpreters := interpreter_combo bar |} in
  set_settings_file (SettingsManager.save settings) (set_settings_dict settings bar).

Definition _update_interpreter_buttons_state (bar : interpreter_bar)
  : interpreter_bar :=
  set_remove_interpreter_btn
    (negb (bool_decide (interpreter_var bar = sys_executable))) bar.

(** The question [_remove_interpreter] asks. *)
Definition removal_question (selected : string) : string :=
  "Are you sure you want to remove this interpreter from the list?"
  +:+ PyStr.nl +:+ PyStr.nl +:+ selected.

(** [_remove_interpreter]: the new state and the error box shown, if any. *)
Definition _remove_interpreter (self : app) (bar : interpreter_bar)
  : interpreter_bar * option (string * string) :=
  let selected := interpreter_var bar in
  if bool_decide (selected = "") then (bar, None)
  else if bool_decide (selected = sys_executable) then
    (bar,
     Some ("Action Denied",
           "Cannot remove the interpreter currently running this application."))
  else if askyesno "Confirm Removal" (removal_question selected)
  then
    let current_interpreters := interpreter_combo bar in
    let current_interpreters :=
      if bool_decide (selected ∈ current_interpreters)
      then PyList.remove selected current_interpreters
      else current_interpreters in
    let bar := set_interpreter_combo current_interpreters bar in
    let bar :=
      if bool_decide (interpreter_var bar = selected)
      then set_interpreter_var (current_interpreter self) bar
      else bar in
    let bar := _save_settings bar in
    (_update_interpreter_buttons_state bar, None)
  else (bar, None).

(** The question [_validate_interpreters_on_startup] asks. *)
Definition invalid_interpreters_message (invalid_interpreters : list string)
  : string :=
  "The following Python interpreters could not be found and may have been deleted:"
  +:+ PyStr.nl +:+ PyStr.nl
  +:+ PyList.join PyStr.nl ((fun p => "- " +:+ p) <$> invalid_interpreters)
  +:+ PyStr.nl +:+ PyStr.nl +:+ "Would you like to remove them from the list?".

Definition _validate_interpreters_on_startup (self : app) (bar : interpreter_bar)
  : app * interpreter_bar :=
  let interpreters' := interpreters (settings_dict bar) in
  let valid_interpreters :=
    filter (fun interp_path =>
              (bool_decide (interp_path = sys_executable) || path_exists interp_path)
              = true) interpreters' in
  let invalid_interpreters :=
    filter (fun interp_path =>
              (bool_decide (interp_path = sys_executable) || path_exists interp_path)
              ≠ true) interpreters' in
  match invalid_interpreters with
  | [] => (self, bar)
  | _ :: _ =>
      if askyesno "Invalid Interpreters Found"
           (invalid_interpreters_message invalid_interpreters)
      then
        let bar :=
          set_settings_dict
            {| auto_check_updates := auto_check_updates (settings_dict bar);
               cache_expiry_hours := cache_expiry_hours (settings_dict bar);
               interpreters := valid_interpreters |} bar in
        let bar := set_interpreter_combo valid_interpreters bar in
        let '(self, bar) :=
          if bool_decide (current_interpreter self ∈ invalid_interpreters)
          then (set_current_interpreter sys_executable self,
                set_interpreter_var sys_executable bar)
          else (self, bar) in
        (self, _save_settings bar)
      else (self, bar)
  end.

End InterpreterList.

(** ** Specification-level definitions of the handlers *)

(** A directory of the scan that yields a package: its metadata can be
    read and give a name. *)
Definition readable (w : world) (dist_path : string) : option pkg_info :=
  match w_package_info w dist_path with
  | Some pkg_info => if bool_decide (name pkg_info ≠ "N/A") then Some pkg_info else None
  | None => None
  end.

(** [a] does not sort after [b]. *)
Definition str_le (a b : string) : Prop := String.ltb b a = false.

(** [a] does not come after [b] under a text key. *)
Definition key_le {A : Type} (key : A → string) (a b : A) : Prop :=
  str_le (key a) (key b).

(** The vulnerabilities a report lists for the dependencies whose
    lowercased name is [k], in the order of the report. *)
Definition reported (dependencies : list audit_dep) (k : string) : list vuln :=
  flat_map
    (fun dep =>
       if bool_decide (PyStr.lower (dep_name dep) = k)
       then default [] (dep_vulns dep) else [])
    dependencies.

(** The key of a row under the Date column is [None]: the first package
    of the snapshot that bears the id of the row has no install date. *)
Definition lacks_install_date (all_packages : list pkg_info) (item : tree_item)
  : bool :=
  PyList.next_or (fun p => bool_decide (name p = iid item))
    (fun p => bool_decide (install_date_ts p = None)) false all_packages.

(** The stamps requested so far are positive and distinct, none exceeds
    the current generation, and every worker in flight carries one of
    them. *)
Definition stamps_fresh (s : sys) : Prop :=
  StronglySorted (fun a b : Z => (b < a)%Z) (requested s) ∧
  (0 ≤ current_scan_id (sys_app s))%Z ∧
  (∀ r, r ∈ requested s → (0 < r ≤ current_scan_id (sys_app s))%Z) ∧
  (∀ t, t ∈ in_flight s → stamp t ∈ requested s).

(** The command line of [_pip_action] up to the flags. *)
Definition pip_prefix (package_manager : pkg_manager) (interpreter action : string)
  : list string :=
  match package_manager with
  | uv package_manager_path => [package_manager_path; "pip"; action; "-p"; interpreter]
  | pip => [interpreter; "-m"; "pip"; action]
  end.
(** ** Further sample data *)

(** An environment with one site-packages directory, which holds a
    package, a directory without readable metadata, one whose metadata give
    no name and a file that is no [.dist-info] directory; pip reports one
    package twice. *)
Definition sample_world : world :=
  {| w_site_packages := fun _ => inr ["/site-packages"; "/missing"];
     w_isdir := fun p => bool_decide (p = "/site-packages");
     w_listdir := fun p =>
       if bool_decide (p = "/site-packages")
       then Some ["app-1.0.dist-info"; "notes.txt"; "broken-0.1.dist-info";
                  "anon-2.dist-info"]
       else None;
     w_package_info := fun p =>
       if bool_decide (p = "/site-packages/app-1.0.dist-info")
       then Some (sample_pkg "app" ["lib>=1.0"; "util (>=2)"])
       else if bool_decide (p = "/site-packages/anon-2.dist-info")
       then Some (sample_pkg "N/A" [])
       else None;
     w_metadata_name := fun _ => "";
     w_pip_outdated := fun _ =>
       inr [ {| o_name := "my_package"; o_version := "0.9";
                o_latest_version := "2.0"; o_latest_filetype := "sdist" |};
             sample_info ] |}.
(** An iteration order of sets for the examples: the first element of the
    enumeration. *)
Definition first_element (s : gset string) : string :=
  default "" (head (elements s)).

(** A user who confirms every question. *)
Definition always_yes (title message : string) : bool := true.
(** A state whose damaged-packages tree has three rows, two of them for
    one package, all of them selected. *)
Definition sample_damaged_app : app :=
  set_damaged_selection ["hash-foo-foo/a.py"; "dep-foo"; "import-bar"]
    (set_damaged_tree
       [ {| iid := "dep-foo";
            values := ["foo"; "Dependency conflict"; "bar>=2"];
            tags := [reinstallable] |};
         {| iid := "import-bar";
            values := ["bar"; "Import failed"; "ImportError: x"];
            tags := [reinstallable] |};
         {| iid := "hash-foo-foo/a.py";
            values := ["foo"; "File hash mismatch"; "File: foo/a.py"];
            tags := [reinstallable] |} ]
       sample_app).

(** A requirements file with a comment, a blank line and two
    requirements; every other file cannot be read. *)
Definition sample_read_lines (filepath : string) : string + list string :=
  if bool_decide (filepath = "/tmp/requirements.txt")
  then inr [ "# tools" +:+ PyStr.nl; PyStr.nl; "requests>=2" +:+ PyStr.nl;
             "  flask  " ]
  else inl "No such file or directory".
Definition sample_vuln : vuln :=
  {| v_id := Some "PYSEC-1"; v_description := None;
     v_fix_versions := Some ["2.0"; "2.1"] |}.

(** A report of pip-audit in which a dependency named [Error] has a
    vulnerability. *)
Definition sample_audit_world : audit_world :=
  {| aw_pip_audit := inr {| returncode := 1; stdout := "{...}"; stderr := "" |};
     aw_dependencies := fun _ =>
       inr [ {| dep_name := "lib"; dep_vulns := Some [sample_vuln] |};
             {| dep_name := "Error"; dep_vulns := Some [sample_vuln] |};
             {| dep_name := "util"; dep_vulns := Some [] |} ] |}.
(** The Manage tab with a query typed into the search box. *)
Definition sample_tab : manage_tab :=
  {| tree := []; search_var := "LI"; show_outdated_var := false;
     last_sort_column := Name_col; last_sort_reverse := false |}.
(** The interpreter box after the user chose a second interpreter, which
    is the one in use. *)
Definition sample_bar : interpreter_bar :=
  {| interpreter_combo := ["/usr/bin/python3"; "/opt/venv/bin/python"];
     interpreter_var := "/opt/venv/bin/python";
     remove_interpreter_btn := true;
     auto_check_var := true; cache_expiry_var := Some 24%Z;
     settings_dict :=
       {| auto_check_updates := true; cache_expiry_hours := 24;
          interpreters := ["/usr/bin/python3"; "/opt/venv/bin/python"] |};
     settings_file := None |}.

(** * Properties *)

Local Arguments String.append : simpl nomatch.

(** ** The error monad *)

Lemma for_each_ok {A S : Type} (body : S → A → res S) (f : S → A → S) xs s :
  (∀ s x, x ∈ xs → body s x = Ok (f s x)) →
  for_each body xs s = Ok (fold_left f xs s).
Proof.
  revert s. induction xs as [|x xs IH]; intros s Hbody; simpl; [done|].
  rewrite Hbody by left. simpl. apply IH.
  intros s' y Hy. apply Hbody. by right.
Qed.

(** ** Text primitives *)

Lemma re_split_class_head cls s :
  PyStr.re_split_class cls s !! 0 = Some (PyStr.prefix_before cls s).
Proof.
  induction s as [|c s IH]; simpl; [done|].
  destruct (cls c); [done|].
  destruct (PyStr.re_split_class cls s) as [|p ps]; simpl in *; [done|].
  by simplify_eq.
Qed.

(** ** Reverse-dependency indexer *)

Lemma index_requirement_ok n d s :
  index_requirement n d s =
  Ok (if bool_decide (bare_name s ≠ "") && bool_decide (bare_name s ≠ n)
      then defaultdict_append (bare_name s) n d else d).
Proof.
  unfold index_requirement, getitem, bare_name.
  rewrite re_split_class_head. simpl.
  by destruct (_ && _).
Qed.

Lemma defaultdict_append_lookup k v d k' :
  default [] (defaultdict_append k v d !! k') =
  default [] (d !! k') ++ (if bool_decide (k = k') then [v] else []).
Proof.
  unfold defaultdict_append. case_bool_decide as Hk.
  - subst. by rewrite lookup_insert_eq.
  - rewrite lookup_insert_ne by done. by rewrite app_nil_r.
Qed.

Lemma defaultdict_append_no_empty k v d :
  no_empty_entry d → no_empty_entry (defaultdict_append k v d).
Proof.
  intros Hd k'. unfold defaultdict_append.
  destruct (decide (k = k')) as [->|Hne].
  - rewrite lookup_insert_eq. intros [=Heq]. by destruct (default [] (d !! k')).
  - rewrite lookup_insert_ne by done. apply Hd.
Qed.

Lemma index_requirements_spec n reqs d k :
  no_empty_entry d →
  let R := fold_left
             (fun d s => if bool_decide (bare_name s ≠ "") && bool_decide (bare_name s ≠ n)
                         then defaultdict_append (bare_name s) n d else d) reqs d in
  no_empty_entry R ∧
  default [] (R !! k) =
  default [] (d !! k) ++
    flat_map (fun s => if bool_decide (bare_name s = k ∧ k ≠ "" ∧ k ≠ n)
                       then [n] else []) reqs.
Proof.
  revert d. induction reqs as [|s reqs IH]; intros d Hd; simpl.
  - by rewrite app_nil_r.
  - destruct (decide (bare_name s ≠ "" ∧ bare_name s ≠ n)) as [[H1 H2]|Hno].
    + rewrite !bool_decide_eq_true_2 by done. simpl.
      destruct (IH (defaultdict_append (bare_name s) n d)) as [HR Hk];
        [by apply defaultdict_append_no_empty|].
      split; [done|]. simpl in Hk. rewrite Hk, defaultdict_append_lookup.
      rewrite <- app_assoc. f_equal.
      case_bool_decide as Hb.
      * subst k. by rewrite bool_decide_eq_true_2.
      * rewrite bool_decide_eq_false_2; [done|]. by intros [? _].
    + destruct (IH d Hd) as [HR Hk].
      assert (bool_decide (bare_name s ≠ "") && bool_decide (bare_name s ≠ n) = false) as ->.
      { apply andb_false_iff. rewrite !bool_decide_eq_false.
        destruct (decide (bare_name s ≠ "")) as [Hb|Hb]; [right|by left].
        intros Hn. by apply Hno. }
      split; [done|]. simpl in Hk. rewrite Hk.
      rewrite bool_decide_eq_false_2; [done|].
      intros (<- & ? & ?). by apply Hno.
Qed.

Lemma index_package_ok d A :
  index_package d A =
  Ok (fold_left
        (fun d s => if bool_decide (bare_name s ≠ "") && bool_decide (bare_name s ≠ name A)
                    then defaultdict_append (bare_name s) (name A) d else d)
        (requires A) d).
Proof.
  unfold index_package. destruct (requires A) as [|s reqs] eqn:Hreq; [done|].
  apply for_each_ok. intros d' s' _. apply index_requirement_ok.
Qed.

Lemma index_packages_spec packages d k :
  no_empty_entry d →
  ∃ R, for_each index_package packages d = Ok R ∧ no_empty_entry R ∧
       default [] (R !! k) = default [] (d !! k) ++ dependents_of k packages.
Proof.
  revert d. induction packages as [|A packages IH]; intros d Hd; simpl.
  - exists d. by rewrite app_nil_r.
  - rewrite index_package_ok. simpl.
    destruct (index_requirements_spec (name A) (requires A) d k Hd) as [HR Hk].
    destruct (IH _ HR) as (R & HRok & HRne & HRk).
    exists R. split; [done|]. split; [done|].
    rewrite HRk. simpl in Hk. rewrite Hk. unfold dependents_of. simpl.
    by rewrite <- app_assoc.
Qed.

(** The indexer never raises, and the entry of every name is the list of
    its dependents; a name without dependents has no entry. *)
Lemma build_reverse_deps_spec packages :
  ∃ R, build_reverse_deps packages = Ok R ∧
       ∀ k, R !! k = match dependents_of k packages with
                     | [] => None
                     | l => Some l
                     end.
Proof.
  assert (no_empty_entry (∅ : gmap string (list string))) as H0.
  { intros k. by rewrite lookup_empty. }
  unfold build_reverse_deps.
  destruct packages as [|A0 packages0] eqn:Hp.
  { exists ∅. split; [done|]. intros k. by rewrite lookup_empty. }
  rewrite <- Hp. clear Hp.
  destruct (index_packages_spec packages ∅ "" H0) as (R & HR & _ & _).
  exists R. split; [done|]. intros k.
  destruct (index_packages_spec packages ∅ k H0) as (R' & HR' & Hne & Hk).
  rewrite HR in HR'. simplify_eq. rewrite lookup_empty in Hk. simpl in Hk.
  destruct (R' !! k) as [l|] eqn:Hl; simpl in Hk; rewrite <- Hk; [|done].
  destruct l; [|done]. by destruct (Hne k).
Qed.

Lemma elem_of_dependents_of n k packages :
  n ∈ dependents_of k packages ↔
  ∃ A s, A ∈ packages ∧ s ∈ requires A ∧ name A = n ∧
         bare_name s = k ∧ k ≠ "" ∧ k ≠ n.
Proof.
  unfold dependents_of, records. rewrite list_elem_of_In, in_flat_map. split.
  - intros (A & HA & Hin). apply in_flat_map in Hin as (s & Hs & Hin).
    case_bool_decide as Hc; [|by destruct Hin].
    destruct Hin as [<-|[]]. destruct Hc as (Hb & H1 & H2).
    exists A, s. by rewrite !list_elem_of_In.
  - intros (A & s & HA & Hs & <- & Hb & H1 & H2).
    exists A. rewrite <- list_elem_of_In. split; [done|].
    apply in_flat_map. exists s. rewrite <- list_elem_of_In. split; [done|].
    rewrite bool_decide_eq_true_2 by done. by left.
Qed.

Example bare_names :
  bare_name "b>=1.0" = "b" ∧
  bare_name "requests[security] (>=2.0)" = "requests[security]" ∧
  bare_name "pkg ; python_version < '3'" = "pkg" ∧
  bare_name " >=1" = "" ∧
  PyStr.re_split_class req_delim "a>=1 (x)" = ["a"; ""; "1"; ""; "x)"].
Proof. by vm_compute. Qed.

(** The package scan never raises, and the index it returns is the index
    of the packages it returns. *)
Lemma _load_packages_task_ok self w scan_id :
  ∃ scanned R damaged queue,
    _load_packages_task self w scan_id = Ok ((scanned, R, damaged), queue) ∧
    build_reverse_deps scanned = Ok R.
Proof.
  unfold _load_packages_task.
  destruct (w_site_packages w (current_interpreter self)) as [e|paths].
  - by eexists [], ∅, [], _.
  - destruct (fold_left _ _ _) as [[scanned damaged] queue].
    destruct (build_reverse_deps_spec scanned) as (R & HR & _).
    exists scanned, R, damaged, queue. by rewrite HR.
Qed.

(** C2: the indexer never raises, whatever the requirement strings are, and
    neither does the scan that runs it; for every package [A] of the list
    and every requirement string [s] of [A], with [b] the prefix of [s]
    before the first delimiter, stripped: when [b] is not empty and is not
    [A]'s name, the entry of [b] contains [A]; when [b] is empty or is
    [A]'s name, [A] is not recorded under [b]. *)
Theorem reverse_index_records_dependers (packages : list pkg_info) :
  (∃ R, build_reverse_deps packages = Ok R ∧
     ∀ A s, A ∈ packages → s ∈ requires A →
       let b := PyStr.strip (PyStr.prefix_before req_delim s) in
       (b ≠ "" → b ≠ name A → ∃ l, R !! b = Some l ∧ name A ∈ l) ∧
       (b = "" ∨ b = name A → ∀ l, R !! b = Some l → name A ∉ l)) ∧
  (∀ self w scan_id,
     ∃ scanned R damaged queue,
       _load_packages_task self w scan_id = Ok ((scanned, R, damaged), queue) ∧
       build_reverse_deps scanned = Ok R).
Proof.
  split; [|apply _load_packages_task_ok].
  destruct (build_reverse_deps_spec packages) as (R & HR & Hlookup).
  exists R. split; [done|]. intros A s HA Hs b. split.
  - intros Hb Hne.
    assert (name A ∈ dependents_of b packages) as Hin.
    { apply elem_of_dependents_of. by exists A, s. }
    rewrite Hlookup. destruct (dependents_of b packages) as [|n l] eqn:Hd.
    + by apply elem_of_nil in Hin.
    + by exists (n :: l).
  - intros Hb l Hl Hin. rewrite Hlookup in Hl.
    assert (name A ∈ dependents_of b packages) as Hin'.
    { destruct (dependents_of b packages); by simplify_eq. }
    apply elem_of_dependents_of in Hin' as (A' & s' & _ & _ & Hn & _ & H1 & H2).
    destruct Hb as [Hb|Hb]; congruence.
Qed.

(** ** Orphan classifier *)

Lemma insert_by_perm {A : Type} (key : A → string) x (l : list A) :
  insert_by key x l ≡ₚ x :: l.
Proof.
  induction l as [|y l IH]; simpl; [done|].
  destruct (String.ltb _ _); [done|].
  rewrite IH. apply Permutation_swap.
Qed.

Lemma sorted_by_perm {A : Type} (key : A → string) (l : list A) :
  sorted_by key l ≡ₚ l.
Proof.
  unfold sorted_by.
  enough (∀ acc, fold_left (fun acc x => insert_by key x acc) l acc ≡ₚ acc ++ l) as H.
  { by rewrite H. }
  induction l as [|x l IH]; intros acc; simpl.
  - by rewrite app_nil_r.
  - rewrite IH, insert_by_perm. simpl. apply Permutation_middle.
Qed.

Lemma elem_of_essential_packages x :
  x ∈ essential_packages ↔ x = "pip" ∨ x = "setuptools" ∨ x = "wheel".
Proof.
  unfold essential_packages.
  rewrite !elem_of_union, !elem_of_singleton. tauto.
Qed.

Lemma elem_of_orphan_names packages (R : gmap string (list string)) x :
  x ∈ orphan_names packages R ↔
  (∃ p, p ∈ packages ∧ name p = x) ∧ R !! x = None ∧ x ∉ essential_packages.
Proof.
  unfold orphan_names.
  rewrite !elem_of_difference, elem_of_list_to_set, list_elem_of_fmap.
  rewrite not_elem_of_dom. split.
  - intros (((p & -> & Hp) & HR) & Hess). split; [|done]. by exists p.
  - intros ((p & Hp & <-) & HR & Hess). split; [|done]. split; [|done].
    by exists p.
Qed.

Lemma dependents_of_perm x scanned packages :
  scanned ≡ₚ packages →
  (∃ n, n ∈ dependents_of x scanned) ↔ (∃ n, n ∈ dependents_of x packages).
Proof.
  intros Hperm.
  split; intros [n Hn]; exists n; apply elem_of_dependents_of;
    apply elem_of_dependents_of in Hn as (A & s & HA & Hrest);
    exists A, s; (split; [|done]).
  - by rewrite <- Hperm.
  - by rewrite Hperm.
Qed.

(** C3: the orphan set is the installed names, minus the keys of the
    reverse index, minus pip, setuptools and wheel; the list the tool stores
    holds the packages with these names; when the index is the one built by
    the scan of the same packages, its keys are the names with at least one
    dependent, and a package that another package requires is not an
    orphan, whether that other package is an orphan or not. *)
Theorem orphan_set_is_set_difference (packages : list pkg_info)
    (R : gmap string (list string)) :
  (∀ x, x ∈ orphan_names packages R ↔
        (∃ p, p ∈ packages ∧ name p = x) ∧ (x ∉ dom R) ∧
        x ≠ "pip" ∧ x ≠ "setuptools" ∧ x ≠ "wheel") ∧
  (∀ p, p ∈ orphaned_packages packages R ↔
        p ∈ packages ∧ name p ∈ orphan_names packages R) ∧
  (∀ self, all_packages self = packages → reverse_deps self = R →
           packages ≠ [] →
           orphaned_packages_cache (find_orphaned_packages self)
           = orphaned_packages packages R) ∧
  (∀ x, x ∈ essential_packages → x ∉ orphan_names packages R) ∧
  (∀ scanned, scanned ≡ₚ packages → build_reverse_deps scanned = Ok R →
   (∀ x, x ∈ dom R ↔ (∃ n, n ∈ dependents_of x packages)) ∧
   (∀ A B s, A ∈ packages → B ∈ packages → s ∈ requires A →
             bare_name s = name B → name B ≠ "" → name B ≠ name A →
             name B ∉ orphan_names packages R)).
Proof.
  split; [|split; [|split; [|split]]].
  - intros x. rewrite elem_of_orphan_names, elem_of_essential_packages.
    rewrite not_elem_of_dom. split.
    + intros (Hp & HR & Hess). repeat split; try done; intros ->; apply Hess; auto.
    + intros (Hp & HR & H1 & H2 & H3). repeat split; try done.
      by intros [?|[?|?]].
  - intros p. unfold orphaned_packages.
    rewrite sorted_by_perm, list_elem_of_filter. tauto.
  - intros self Hp HR Hne. unfold find_orphaned_packages. rewrite Hp, HR.
    by destruct packages.
  - intros x Hx. rewrite elem_of_orphan_names. tauto.
  - intros scanned Hperm Hbuild.
    destruct (build_reverse_deps_spec scanned) as (R' & HR' & Hlookup).
    rewrite Hbuild in HR'. simplify_eq.
    assert (∀ x, x ∈ dom R' ↔ (∃ n, n ∈ dependents_of x packages)) as Hdom.
    { intros x. rewrite <- (dependents_of_perm x scanned packages Hperm).
      rewrite elem_of_dom, Hlookup.
      destruct (dependents_of x scanned) as [|n l].
      - split; [by intros [? ?]|]. intros [n Hn]. by apply elem_of_nil in Hn.
      - split; [|by eauto]. intros _. exists n. by left. }
    split; [done|].
    intros A B s HA HB Hs Hbare Hne1 Hne2 Horphan.
    apply elem_of_orphan_names in Horphan as (_ & Hnone & _).
    apply not_elem_of_dom in Hnone. apply Hnone, Hdom.
    exists (name A). apply elem_of_dependents_of. by exists A, s.
Qed.

Lemma sample_index_built : build_reverse_deps sample_packages = Ok sample_index.
Proof. vm_compute. reflexivity. Qed.

Lemma reverse_index_records_dependers_witness :
  ∃ R l, build_reverse_deps sample_packages = Ok R ∧
         R !! "lib" = Some l ∧ "app" ∈ l.
Proof.
  destruct (reverse_index_records_dependers sample_packages)
    as [(R & HR & H) _].
  destruct (H (sample_pkg "app" ["lib>=1.0"; "util (>=2)"]) "lib>=1.0")
    as [Hin _].
  - apply list_elem_of_here.
  - apply list_elem_of_here.
  - destruct Hin as (l & Hl & Hin).
    + vm_compute. discriminate.
    + vm_compute. discriminate.
    + exists R, l. split; [exact HR|]. split; [exact Hl|exact Hin].
Defined.

Lemma orphan_set_is_set_difference_witness :
  ("lib" ∉ orphan_names sample_packages sample_index) ∧
  ("pip" ∉ orphan_names sample_packages sample_index).
Proof.
  destruct (orphan_set_is_set_difference sample_packages sample_index)
    as (_ & _ & _ & Hess & Hbuilt).
  destruct (Hbuilt sample_packages (reflexivity _) sample_index_built)
    as [_ Hdep].
  split.
  - apply (Hdep (sample_pkg "app" ["lib>=1.0"; "util (>=2)"])
                (sample_pkg "lib" ["core"]) "lib>=1.0").
    + apply list_elem_of_here.
    + do 2 apply list_elem_of_further. apply list_elem_of_here.
    + apply list_elem_of_here.
    + vm_compute. reflexivity.
    + vm_compute. discriminate.
    + vm_compute. discriminate.
  - apply Hess. apply elem_of_essential_packages. by left.
Defined.

(** The orphan set of the sample: [app] alone; [lib], which only the
    orphan [app] requires, is not in it, nor is the essential [pip]. *)
Example sample_orphans :
  elements (orphan_names sample_packages sample_index) = ["app"] ∧
  name <$> orphaned_packages sample_packages sample_index = ["app"].
Proof. vm_compute. done. Qed.

(** ** Outdated lookup *)

Lemma string_app_assoc (a b c : string) : (a +:+ b) +:+ c = a +:+ (b +:+ c).
Proof. induction a as [|x a IH]; simpl; [done|]. by rewrite IH. Qed.

Lemma string_app_nil_r (a : string) : a +:+ "" = a.
Proof. induction a as [|x a IH]; simpl; [done|]. by rewrite IH. Qed.

Lemma lower_app (a b : string) :
  PyStr.lower (a +:+ b) = PyStr.lower a +:+ PyStr.lower b.
Proof. induction a as [|x a IH]; simpl; [done|]. by rewrite IH. Qed.

(** After a character outside the class the substitution starts afresh. *)
Lemma re_sub_runs_app_outside cls repl in_run a c rest :
  cls c = false →
  PyStr.re_sub_runs cls repl in_run (a +:+ String c rest) =
  PyStr.re_sub_runs cls repl in_run (a +:+ String c "")
  +:+ PyStr.re_sub_runs cls repl false rest.
Proof.
  intros Hc. revert in_run. induction a as [|x a IH]; intros in_run; simpl.
  - by rewrite Hc.
  - destruct (cls x), in_run; rewrite IH; simpl; try done.
    by rewrite string_app_assoc.
Qed.

(** Inside a run nothing is written. *)
Lemma re_sub_runs_in_run cls repl run b :
  all_in cls run = true → starts_outside cls b →
  PyStr.re_sub_runs cls repl true (run +:+ b) =
  PyStr.re_sub_runs cls repl false b.
Proof.
  intros Hrun Hb. induction run as [|x run IH]; simpl in *.
  - destruct Hb as [->|(c & b' & -> & Hc)]; simpl; [done|]. by rewrite Hc.
  - apply andb_true_iff in Hrun as [Hx Hrun]. rewrite Hx. by apply IH.
Qed.

(** A maximal run is replaced by one copy of the replacement. *)
Lemma re_sub_runs_maximal_run cls repl a run b :
  ends_outside cls a → run ≠ "" → all_in cls run = true → starts_outside cls b →
  PyStr.re_sub_runs cls repl false (a +:+ run +:+ b) =
  PyStr.re_sub_runs cls repl false a +:+ repl
  +:+ PyStr.re_sub_runs cls repl false b.
Proof.
  intros Ha Hne Hrun Hb.
  assert (PyStr.re_sub_runs cls repl false (run +:+ b) =
          repl +:+ PyStr.re_sub_runs cls repl false b) as Hrest.
  { destruct run as [|x run]; [done|]. simpl in *.
    apply andb_true_iff in Hrun as [Hx Hrun]. rewrite Hx.
    by rewrite re_sub_runs_in_run. }
  destruct Ha as [->|(a' & c & -> & Hc)]; simpl; [done|].
  rewrite string_app_assoc. simpl.
  by rewrite re_sub_runs_app_outside, Hrest.
Qed.

Lemma dict_get_Some_elem {V : Type} (d : list (string * V)) k v :
  dict_get d k = Some v → (k, v) ∈ d.
Proof.
  induction d as [|[k' v'] d IH]; simpl; [done|].
  case_bool_decide as Hk.
  - intros [= ->]. subst. apply list_elem_of_here.
  - intros H. apply list_elem_of_further. by apply IH.
Qed.

Lemma first_normalized_match_Some n items info :
  first_normalized_match n items = Some info ↔
  ∃ before k after,
    items = before ++ (k, info) :: after ∧ n = normalize_name k ∧
    ∀ k' info', (k', info') ∈ before → n ≠ normalize_name k'.
Proof.
  induction items as [|[k0 i0] items IH]; simpl.
  - split; [done|]. intros (before & k & after & Heq & _). by destruct before.
  - case_bool_decide as Hk.
    + split.
      * intros [= ->]. exists [], k0, items. split; [done|]. split; [done|].
        intros k' info' Hin. by apply elem_of_nil in Hin.
      * intros (before & k & after & Heq & Hn & Hbefore).
        destruct before as [|[k1 i1] before]; simpl in Heq.
        -- by simplify_eq.
        -- simplify_eq. destruct (Hbefore k1 i1); [apply list_elem_of_here|done].
    + rewrite IH. split.
      * intros (before & k & after & -> & Hn & Hbefore).
        exists ((k0, i0) :: before), k, after. split; [done|]. split; [done|].
        intros k' info' Hin. apply elem_of_cons in Hin as [Heq|Hin].
        -- by simplify_eq.
        -- by eapply Hbefore.
      * intros (before & k & after & Heq & Hn & Hbefore).
        destruct before as [|[k1 i1] before]; simpl in Heq; simplify_eq.
        exists before, k, after. split; [done|]. split; [done|].
        intros k' info' Hin. eapply Hbefore. by apply list_elem_of_further.
Qed.

Lemma first_normalized_match_None n items :
  first_normalized_match n items = None ↔
  ∀ k info, (k, info) ∈ items → n ≠ normalize_name k.
Proof.
  induction items as [|[k0 i0] items IH]; simpl.
  - split; [|done]. intros _ k info Hin. by apply elem_of_nil in Hin.
  - case_bool_decide as Hk.
    + split; [done|]. intros H. destruct (H k0 i0); [apply list_elem_of_here|done].
    + rewrite IH. split.
      * intros H k info Hin. apply elem_of_cons in Hin as [Heq|Hin].
        -- by simplify_eq.
        -- by eapply H.
      * intros H k info Hin. eapply H. by apply list_elem_of_further.
Qed.

Example normalized_names :
  normalize_name "My-Package" = "my_package" ∧
  normalize_name "zope.interface" = "zope_interface" ∧
  normalize_name "Flask--.SQLAlchemy" = "flask_sqlalchemy" ∧
  normalize_name "a-._b" = "a__b".
Proof. by vm_compute. Qed.

(** C8: the lookup returns the entry of the exact key when there is one;
    otherwise the first entry, in the order of the map, whose normalized key
    is the normalized package name; it returns nothing only when no key
    matches either way.  Normalizing replaces every maximal run of [-] and
    [.] by one [_] and lowercases, so that [My-Package] matches the key
    [my_package]. *)
Theorem outdated_lookup_exact_then_normalized
    (outdated_packages : list (string * outdated_info)) (pkg_name : string) :
  (∀ info, dict_get outdated_packages pkg_name = Some info →
           _is_package_outdated outdated_packages pkg_name = Some info) ∧
  (dict_get outdated_packages pkg_name = None →
   ∀ info, _is_package_outdated outdated_packages pkg_name = Some info ↔
           ∃ before k after,
             outdated_packages = before ++ (k, info) :: after ∧
             normalize_name pkg_name = normalize_name k ∧
             ∀ k' info', (k', info') ∈ before →
                         normalize_name pkg_name ≠ normalize_name k') ∧
  (_is_package_outdated outdated_packages pkg_name = None ↔
   dict_get outdated_packages pkg_name = None ∧
   ∀ k info, (k, info) ∈ outdated_packages →
             normalize_name pkg_name ≠ normalize_name k) ∧
  (∀ a run b, ends_outside dash_dot a → run ≠ "" →
              all_in dash_dot run = true → starts_outside dash_dot b →
              normalize_name (a +:+ run +:+ b) =
              normalize_name a +:+ "_" +:+ normalize_name b) ∧
  (∀ info, _is_package_outdated [("my_package", info)] "My-Package" = Some info).
Proof.
  unfold _is_package_outdated. split; [|split; [|split; [|split]]].
  - by intros info ->.
  - intros -> info. apply first_normalized_match_Some.
  - destruct (dict_get outdated_packages pkg_name) as [i|].
    + split; [done|]. by intros [? _].
    + rewrite first_normalized_match_None. split; [done|]. by intros [_ ?].
  - intros a run b Ha Hne Hrun Hb. unfold normalize_name.
    rewrite re_sub_runs_maximal_run by done. by rewrite !lower_app.
  - intros info. reflexivity.
Qed.

Lemma outdated_lookup_exact_then_normalized_witness :
  _is_package_outdated [("other", sample_info); ("my_package", sample_info)]
    "My-Package" = Some sample_info ∧
  normalize_name "My-.Package" = "my_package".
Proof.
  destruct (outdated_lookup_exact_then_normalized
              [("other", sample_info); ("my_package", sample_info)] "My-Package")
    as (_ & Hnorm & _ & Hrun & _).
  split.
  - apply Hnorm; [reflexivity|].
    exists [("other", sample_info)], "my_package", []. split; [reflexivity|].
    split; [reflexivity|].
    intros k' info' Hin. apply list_elem_of_singleton in Hin.
    injection Hin as -> _. vm_compute. discriminate.
  - apply (Hrun "My" "-." "Package").
    + right. exists "M", "y"%char. split; reflexivity.
    + discriminate.
    + reflexivity.
    + right. exists "P"%char, "ackage". split; reflexivity.
Defined.

(** ** Version comparator *)

Lemma rev_app_app (a b : string) : String.rev_app a b = String.rev a +:+ b.
Proof.
  unfold String.rev. revert b.
  induction a as [|x a IH]; intros b; simpl; [done|].
  rewrite (IH (String x "")), IH. by rewrite string_app_assoc.
Qed.

Lemma split_go_head sep cur s :
  PyStr.split_go sep 0 cur s !! 0 = Some (String.rev cur +:+ PyStr.before_first sep s).
Proof.
  revert cur. induction s as [|c s IH]; intros cur.
  - simpl. by rewrite string_app_nil_r.
  - cbn [PyStr.split_go PyStr.before_first].
    destruct (PyStr.startswith sep (String c s)).
    + simpl. by rewrite string_app_nil_r.
    + rewrite IH. unfold String.rev at 1. simpl.
      rewrite rev_app_app, string_app_assoc. done.
Qed.

Lemma split_head sep s :
  getitem (PyStr.split sep s) 0 = Ok (PyStr.before_first sep s).
Proof. unfold getitem, PyStr.split. by rewrite split_go_head. Qed.

(** A string that starts with [sep] still does after text is added. *)
Lemma startswith_app sep w r :
  PyStr.startswith sep w = true → PyStr.startswith sep (w +:+ r) = true.
Proof.
  revert w. induction sep as [|a sep IH]; intros [|b w]; simpl; try done.
  rewrite !andb_true_iff. intros [Hab Hw]. split; [done|]. by apply IH.
Qed.

(** A match that crosses the end of [w] contains the next character. *)
Lemma startswith_app_inv sep w c r :
  PyStr.startswith sep (w +:+ String c r) = true →
  PyStr.startswith sep w = true ∨ PyStr.contains (String c "") sep = true.
Proof.
  revert w. induction sep as [|a sep IH]; intros w; [by left|].
  destruct w as [|b w]; simpl.
  - rewrite andb_true_iff, bool_decide_eq_true. intros [-> _]. right.
    by rewrite bool_decide_eq_true_2.
  - rewrite !andb_true_iff. intros [Hab Hw].
    destruct (IH _ Hw) as [Hl|Hr]; [left; by split|right].
    rewrite Hr. by rewrite orb_true_r.
Qed.

Lemma before_first_self sep r :
  sep ≠ "" → PyStr.before_first sep (sep +:+ r) = "".
Proof.
  intros Hne. destruct sep as [|a sep]; [done|]. simpl.
  rewrite bool_decide_eq_true_2 by done. simpl.
  assert (PyStr.startswith sep (sep +:+ r) = true) as ->; [|done].
  clear. induction sep as [|b sep IH]; simpl; [by destruct r|].
  by rewrite bool_decide_eq_true_2.
Qed.

(** What precedes the first separator of [v], then a character that does
    not occur in the separator, then the separator. *)
Lemma before_first_display sep v c r :
  sep ≠ "" → PyStr.contains (String c "") sep = false →
  PyStr.before_first sep (v +:+ String c (sep +:+ r)) =
  if PyStr.contains sep v then PyStr.before_first sep v else v +:+ String c "".
Proof.
  intros Hne Hc. induction v as [|b v IH].
  - assert (PyStr.contains sep "" = false) as ->.
    { by destruct sep. }
    cbn [String.append PyStr.before_first].
    destruct (PyStr.startswith sep (String c (sep +:+ r))) eqn:Hs.
    + apply (startswith_app_inv sep "" c) in Hs as [Hs|Hs]; [|congruence].
      by destruct sep.
    + by rewrite before_first_self.
  - cbn [String.append PyStr.before_first PyStr.contains].
    destruct (PyStr.startswith sep (String b v)) eqn:Hs.
    + change (String b (v +:+ String c (sep +:+ r)))
        with (String b v +:+ String c (sep +:+ r)).
      by rewrite startswith_app.
    + destruct (PyStr.startswith sep (String b (v +:+ String c (sep +:+ r)))) eqn:Hs'.
      * apply (startswith_app_inv sep (String b v) c) in Hs' as [Hs'|Hs'];
          congruence.
      * simpl. rewrite IH. by destruct (PyStr.contains sep v).
Qed.

Lemma before_first_absent sep v :
  PyStr.contains sep v = false → PyStr.before_first sep v = v.
Proof.
  induction v as [|b v IH]; simpl; [done|].
  rewrite orb_false_iff. intros [-> Hv]. by rewrite IH.
Qed.

Lemma rev_app_snoc x c acc :
  String.rev_app (x +:+ String c "") acc = String c (String.rev_app x acc).
Proof.
  revert acc. induction x as [|a x IH]; intros acc; simpl; [done|]. by rewrite IH.
Qed.

Lemma rstrip_app_space x c :
  PyStr.isspace c = true → PyStr.rstrip (x +:+ String c "") = PyStr.rstrip x.
Proof.
  intros Hc. unfold PyStr.rstrip, String.rev. rewrite rev_app_snoc. simpl.
  by rewrite Hc.
Qed.

(** A one-byte space is no part of a longer white-space character. *)
Lemma isspace_not_longer c :
  PyStr.isspace c = true →
  (∀ c1, PyStr.isspace2 c1 c = false) ∧ (∀ c1 c2, PyStr.isspace3 c1 c2 c = false).
Proof.
  unfold PyStr.isspace, PyStr.isspace2, PyStr.isspace3.
  intros Hc. assert (nat_of_ascii c ≤ 32) as Hle.
  { apply orb_true_iff in Hc as [Hc|Hc]; apply andb_true_iff in Hc as [_ Hc];
      apply Nat.leb_le in Hc; lia. }
  split.
  - intros c1. apply andb_false_iff. right. apply orb_false_iff.
    split; apply Nat.eqb_neq; lia.
  - intros c1 c2.
    assert ((nat_of_ascii c =? 128) = false) as -> by (apply Nat.eqb_neq; lia).
    assert ((nat_of_ascii c =? 159) = false) as -> by (apply Nat.eqb_neq; lia).
    assert ((nat_of_ascii c =? 168) = false) as -> by (apply Nat.eqb_neq; lia).
    assert ((nat_of_ascii c =? 169) = false) as -> by (apply Nat.eqb_neq; lia).
    assert ((nat_of_ascii c =? 175) = false) as -> by (apply Nat.eqb_neq; lia).
    assert ((128 <=? nat_of_ascii c) = false) as -> by (apply Nat.leb_gt; lia).
    by rewrite !andb_false_r.
Qed.

(** A space added at the end is kept by [lstrip] unless nothing else is. *)
Lemma lstrip_app_space v c :
  PyStr.isspace c = true →
  PyStr.lstrip (v +:+ String c "") =
  if bool_decide (PyStr.lstrip v = "") then "" else PyStr.lstrip v +:+ String c "".
Proof.
  intros Hc. destruct (isspace_not_longer c Hc) as [H2 H3].
  unfold PyStr.lstrip.
  assert (∀ n v, String.length v ≤ n →
            PyStr.lstrip_with PyStr.isspace PyStr.isspace2 PyStr.isspace3
              (v +:+ String c "") =
            if bool_decide (PyStr.lstrip_with PyStr.isspace PyStr.isspace2
                              PyStr.isspace3 v = "")
            then ""
            else PyStr.lstrip_with PyStr.isspace PyStr.isspace2 PyStr.isspace3 v
                 +:+ String c "") as Hind.
  2: { by apply (Hind (String.length v)). }
  clear v. induction n as [|n IH]; intros v Hlen.
  - destruct v; [|simpl in Hlen; lia]. simpl. by rewrite Hc.
  - destruct v as [|c1 v1]; [simpl; by rewrite Hc|].
    simpl in Hlen. cbn [String.append PyStr.lstrip_with].
    destruct (PyStr.isspace c1); [apply IH; lia|].
    destruct v1 as [|c2 v2]; cbn [String.append].
    { by rewrite H2. }
    simpl in Hlen. destruct (PyStr.isspace2 c1 c2); [apply IH; lia|].
    destruct v2 as [|c3 v3]; cbn [String.append].
    { by rewrite H3. }
    simpl in Hlen. destruct (PyStr.isspace3 c1 c2 c3); [apply IH; lia|done].
Qed.

Lemma strip_app_space v c :
  PyStr.isspace c = true → PyStr.strip (v +:+ String c "") = PyStr.strip v.
Proof.
  intros Hc. unfold PyStr.strip. rewrite lstrip_app_space by done.
  case_bool_decide as Hv; [by rewrite Hv|]. by apply rstrip_app_space.
Qed.

(** The left-hand side of a display string is that of the installed version. *)
Lemma left_hand_side_display installed latest_ver :
  left_hand_side (version_display installed latest_ver) = left_hand_side installed.
Proof.
  unfold left_hand_side, version_display.
  change (" " +:+ ARROW +:+ " " +:+ latest_ver)
    with (String " " (ARROW +:+ " " +:+ latest_ver)).
  rewrite before_first_display by done.
  destruct (PyStr.contains ARROW installed) eqn:Hc; [done|].
  rewrite strip_app_space by done. by rewrite before_first_absent.
Qed.

Lemma get_version_sort_key_unfold P flag s :
  get_version_sort_key P flag s =
  if flag then
    match parse_version P (left_hand_side s) with
    | Some v => Ok (KVersion v)
    | None =>
        match parse_version P "0.0.0" with
        | Some v0 => Ok (KVersion v0)
        | None => Raise InvalidVersion
        end
    end
  else Ok (KStr (left_hand_side s)).
Proof. unfold get_version_sort_key. by rewrite split_head. Qed.

Lemma key_lt_same_kind P flag a b :
  same_kind flag a → same_kind flag b → ∃ r, key_lt P a b = Ok r.
Proof.
  destruct flag; intros [x ->] [y ->]; simpl; eauto.
Qed.

Lemma insert_key_ok {K A : Type} (lt : K → K → res bool) (x : K * A) l :
  (∀ y, y ∈ l → ∃ b, lt x.1 y.1 = Ok b) →
  ∃ r, insert_key lt x l = Ok r ∧ r ≡ₚ x :: l.
Proof.
  induction l as [|y l IH]; intros Hlt; simpl.
  - by exists [x].
  - destruct (Hlt y) as [b ->]; [apply list_elem_of_here|]. simpl.
    destruct b.
    + by exists (x :: y :: l).
    + destruct IH as (r & -> & Hr).
      { intros z Hz. apply Hlt. by apply list_elem_of_further. }
      simpl. exists (y :: r). split; [done|].
      rewrite Hr. apply Permutation_swap.
Qed.

Lemma insertion_loop_ok {K A : Type} (lt : K → K → res bool) (data acc : list (K * A)) :
  (∀ x y, x ∈ data ++ acc → y ∈ data ++ acc → ∃ b, lt x.1 y.1 = Ok b) →
  ∃ r, for_each (fun acc x => insert_key lt x acc) data acc = Ok r ∧
       r ≡ₚ acc ++ data.
Proof.
  revert acc. induction data as [|x data IH]; intros acc Hlt; simpl.
  - exists acc. by rewrite app_nil_r.
  - destruct (insert_key_ok lt x acc) as (r1 & -> & Hr1).
    { intros y Hy. apply Hlt; [apply list_elem_of_here|].
      apply list_elem_of_further, elem_of_app. by right. }
    simpl. destruct (IH r1) as (r & -> & Hr).
    { intros a b Ha Hb. apply Hlt.
      - rewrite Hr1 in Ha. revert Ha. rewrite !elem_of_app, !elem_of_cons. tauto.
      - rewrite Hr1 in Hb. revert Hb. rewrite !elem_of_app, !elem_of_cons. tauto. }
    exists r. split; [done|]. rewrite Hr, Hr1. simpl. apply Permutation_middle.
Qed.

Lemma list_sort_ok {K A : Type} (lt : K → K → res bool) reverse (data : list (K * A)) :
  (∀ x y, x ∈ data → y ∈ data → ∃ b, lt x.1 y.1 = Ok b) →
  ∃ r, list_sort lt reverse data = Ok r ∧ r ≡ₚ data.
Proof.
  intros Hlt. unfold list_sort. destruct reverse.
  - destruct (insertion_loop_ok lt (rev data) []) as (r & -> & Hr).
    { intros x y. rewrite !app_nil_r, <- !Permutation_rev. apply Hlt. }
    simpl. exists (rev r). split; [done|].
    by rewrite <- Permutation_rev, Hr, <- Permutation_rev.
  - destruct (insertion_loop_ok lt data []) as (r & -> & Hr).
    { intros x y. rewrite !app_nil_r. apply Hlt. }
    by exists r.
Qed.

Lemma map_res_ok {A B : Type} (f : A → res B) (g : A → B) xs :
  (∀ x, x ∈ xs → f x = Ok (g x)) → map_res f xs = Ok (g <$> xs).
Proof.
  induction xs as [|x xs IH]; intros Hf; simpl; [done|].
  rewrite Hf by apply list_elem_of_here. simpl.
  rewrite IH; [done|]. intros y Hy. apply Hf. by apply list_elem_of_further.
Qed.

Section VersionComparatorFacts.

Context (P : packaging_lib) (flag : bool) (v0 : Version P).
Hypothesis zero_parses : parse_version P "0.0.0" = Some v0.

Lemma get_version_sort_key_ok s :
  get_version_sort_key P flag s = Ok (the_key P flag v0 s).
Proof using zero_parses.
  rewrite get_version_sort_key_unfold. unfold the_key.
  destruct flag; [|done].
  destruct (parse_version P (left_hand_side s)); [done|]. by rewrite zero_parses.
Qed.

Lemma the_key_same_kind s : same_kind flag (the_key P flag v0 s).
Proof.
  unfold the_key, same_kind. destruct flag; [|by eauto].
  destruct (parse_version P (left_hand_side s)); eauto.
Qed.

Lemma sort_version_column_ok rows reverse :
  ∃ order, sort_version_column P flag rows reverse = Ok order ∧
           order ≡ₚ rows.*1.
Proof using zero_parses.
  unfold sort_version_column.
  rewrite (map_res_ok _ (fun row : string * string => (the_key P flag v0 row.2, row.1))).
  2: { intros row _. by rewrite get_version_sort_key_ok. }
  simpl.
  destruct (list_sort_ok (key_lt P) reverse
              ((fun row : string * string => (the_key P flag v0 row.2, row.1)) <$> rows))
    as (r & -> & Hr).
  { intros x y Hx Hy.
    apply list_elem_of_fmap in Hx as (rx & -> & _).
    apply list_elem_of_fmap in Hy as (ry & -> & _).
    eapply key_lt_same_kind; apply the_key_same_kind. }
  simpl. exists (r.*2). split; [done|].
  rewrite Hr, <- list_fmap_compose. done.
Qed.

End VersionComparatorFacts.

(** Equal keys keep their order, also when the column is sorted downwards;
    the cell that cannot be parsed sorts as [0.0.0]. *)
Example sorted_version_column :
  let rows := [("a", "2.0"); ("b", "1.10.0"); ("c", "1.9"); ("d", "1.9.0");
               ("e", "n/a")] in
  sort_version_column Packaging.lib true rows false = Ok ["e"; "c"; "d"; "b"; "a"] ∧
  sort_version_column Packaging.lib true rows true = Ok ["a"; "b"; "c"; "d"; "e"] ∧
  sort_version_column Packaging.lib false rows false = Ok ["b"; "c"; "d"; "a"; "e"].
Proof. by vm_compute. Qed.

(** C6, as the code has it: with the [packaging] library, a version string
    whose left-hand side cannot be parsed gets the key of version [0.0.0];
    without the library every string gets its stripped left-hand side as a
    plain text key; in both cases the keys are of one kind, and computing
    the keys and sorting any list of version strings never raises. *)
Theorem version_sort_never_raises (P : packaging_lib) (v0 : Version P) :
  parse_version P "0.0.0" = Some v0 →
  (∀ s, parse_version P (left_hand_side s) = None →
        get_version_sort_key P true s = Ok (KVersion v0)) ∧
  (∀ s, get_version_sort_key P false s = Ok (KStr (left_hand_side s))) ∧
  (∀ flag s, ∃ k, get_version_sort_key P flag s = Ok k ∧ same_kind flag k) ∧
  (∀ flag rows reverse,
     ∃ order, sort_version_column P flag rows reverse = Ok order ∧
              order ≡ₚ rows.*1).
Proof.
  intros Hzero. split; [|split; [|split]].
  - intros s Hs. rewrite (get_version_sort_key_ok P true v0 Hzero).
    unfold the_key. by rewrite Hs.
  - intros s. by rewrite (get_version_sort_key_ok P false v0 Hzero).
  - intros flag s. exists (the_key P flag v0 s).
    split; [by apply get_version_sort_key_ok|apply the_key_same_kind].
  - intros flag rows reverse. by apply (sort_version_column_ok P flag v0).
Qed.

Lemma version_sort_never_raises_witness :
  get_version_sort_key Packaging.lib true "not a version" = Ok (KVersion []) ∧
  ∃ order,
    sort_version_column Packaging.lib true
      [("a", "1.10.0"); ("b", "not a version"); ("c", "1.9.0")] false
    = Ok order ∧
    order ≡ₚ ["a"; "b"; "c"].
Proof.
  destruct (version_sort_never_raises Packaging.lib [] eq_refl)
    as (Hfallback & _ & _ & Hsort).
  split.
  - apply Hfallback. reflexivity.
  - apply (Hsort true [("a", "1.10.0"); ("b", "not a version"); ("c", "1.9.0")] false).
Defined.

(** With the [packaging] library, a string that cannot be parsed is not
    kept as a token of its own: its key is the key of [0.0.0], the same
    for every such string. *)
Lemma unparseable_key_is_zero_version :
  parse_version Packaging.lib (left_hand_side "abc") = None ∧
  get_version_sort_key Packaging.lib true "abc" ≠ Ok (KStr "abc") ∧
  get_version_sort_key Packaging.lib true "abc"
  = get_version_sort_key Packaging.lib true "0.0.0" ∧
  get_version_sort_key Packaging.lib true "abc"
  = get_version_sort_key Packaging.lib true "xyz".
Proof. repeat split; vm_compute; done. Qed.

(** C7, as the code has it: with the [packaging] library, ["1.10.0"] sorts
    strictly after ["1.9.0"]; without it the keys are plain text and
    ["1.10.0"] sorts before ["1.9.0"]; in both cases the key of a display
    string built from an installed version, the arrow literal of the source
    and a latest version is the key of the installed version. *)
Theorem numeric_order_and_left_hand_side :
  sorts_strictly_after Packaging.lib true "1.10.0" "1.9.0" ∧
  sorts_strictly_after Packaging.lib false "1.9.0" "1.10.0" ∧
  (∀ P flag installed latest_ver,
     get_version_sort_key P flag (version_display installed latest_ver)
     = get_version_sort_key P flag installed) ∧
  get_version_sort_key Packaging.lib true (version_display "1.9.0" "2.0.0")
  = Ok (KVersion [1; 9]%N) ∧
  sort_version_column Packaging.lib true
    [("a", "1.10.0"); ("b", version_display "1.9.0" "2.0.0")] false
  = Ok ["b"; "a"].
Proof.
  split; [|split; [|split; [|split]]].
  - exists (KVersion [1; 10]%N), (KVersion [1; 9]%N). by vm_compute.
  - exists (KStr "1.9.0"), (KStr "1.10.0"). by vm_compute.
  - intros P flag installed latest_ver.
    by rewrite !get_version_sort_key_unfold, left_hand_side_display.
  - by vm_compute.
  - by vm_compute.
Qed.

(** Without the [packaging] library ["1.10.0"] does not sort after
    ["1.9.0"]: the keys are compared as text. *)
Lemma text_keys_are_not_numeric :
  ¬ sorts_strictly_after Packaging.lib false "1.10.0" "1.9.0".
Proof.
  intros (kx & ky & Hx & Hy & Hlt).
  vm_compute in Hx, Hy. simplify_eq.
Qed.

(** The arrow literal is the eight bytes stored in the source file; a cell
    written with the single character U+2192 does not contain it and is
    taken whole. *)
Example arrow_literal :
  ARROW = String.string_of_list_ascii
            (ascii_of_nat <$> [195; 162; 226; 128; 160; 226; 128; 153]) ∧
  left_hand_side "1.9.0 → 2.0.0" = "1.9.0 → 2.0.0".
Proof. by vm_compute. Qed.

(** ** Scan coordinator *)

Lemma elem_of_remove_first t u l : u ∈ remove_first t l → u ∈ l.
Proof.
  induction l as [|x l IH]; simpl; [done|].
  case_bool_decide.
  - apply list_elem_of_further.
  - rewrite !elem_of_cons. intros [->|Hu]; [by left|right; by apply IH].
Qed.

Lemma store_scan_result_scan_id result self :
  current_scan_id (store_scan_result result self) = current_scan_id self.
Proof. destruct result as [[[|p ps] rd] dm]; reflexivity. Qed.

Lemma _on_installed_loaded_scan_id result scan_id self :
  current_scan_id (_on_installed_loaded result scan_id self) = current_scan_id self.
Proof.
  unfold _on_installed_loaded. case_bool_decide; [done|].
  simpl. apply store_scan_result_scan_id.
Qed.

Lemma _on_outdated_checked_scan_id m scan_id self :
  current_scan_id (_on_outdated_checked m scan_id self) = current_scan_id self.
Proof. unfold _on_outdated_checked. by case_bool_decide. Qed.

(** A callback that carries a stale stamp returns at once. *)
Lemma stale_callbacks_return self result outdated_map message scan_id :
  scan_id ≠ current_scan_id self →
  _on_installed_loaded result scan_id self = self ∧
  _on_packages_loaded_then_check result scan_id self = (self, [], []) ∧
  _on_outdated_checked outdated_map scan_id self = self ∧
  update_task message scan_id self = self.
Proof.
  intros Hstale.
  unfold _on_installed_loaded, _on_packages_loaded_then_check,
    _on_outdated_checked, update_task.
  rewrite !bool_decide_eq_true_2 by done.
  by rewrite bool_decide_eq_false_2.
Qed.

Lemma _on_damaged_selection_changed_scan_id self a :
  _on_damaged_selection_changed self = Ok a →
  current_scan_id a = current_scan_id self.
Proof.
  unfold _on_damaged_selection_changed.
  destruct (damaged_selection self); [by intros [= <-]|].
  destruct (all_reinstallable _ _); simpl; [by intros [= <-]|done].
Qed.

Lemma run_damage_scan_scan_id opts w self a :
  run_damage_scan opts w self = Ok a →
  current_scan_id a = current_scan_id self.
Proof.
  unfold run_damage_scan, find_damaged_packages.
  destruct (all_packages self); [by intros [= <-]|].
  destruct (negb _ && _); [by intros [= <-]|].
  unfold _on_damaged_scan_complete.
  destruct (for_each _ _ _); simpl; [|done].
  intros H. apply _on_damaged_selection_changed_scan_id in H. by rewrite H.
Qed.

Lemma request_refresh_stamps_ok s a ruc :
  stamps_ok s → current_scan_id a = current_scan_id (sys_app s) →
  stamps_ok (request s (_start_full_refresh_chain ruc a)).
Proof.
  intros Hs Hid t. simpl. rewrite elem_of_app, list_elem_of_singleton.
  intros [Ht | ->]; simpl.
  - destruct (Hs t Ht) as [Hle _]. split; lia.
  - done.
Qed.

Lemma sys_step_stamps_ok s e s' :
  stamps_ok s → sys_step s e = Some s' → stamps_ok s'.
Proof.
  intros Hs Hstep. destruct e; simpl in Hstep.
  - (* initial_load *)
    injection Hstep as <-. unfold initial_load.
    destruct (if cache_usable then _ else _);
      by apply request_refresh_stamps_ok.
  - injection Hstep as <-. by apply request_refresh_stamps_ok.
  - (* check_for_updates_only *)
    injection Hstep as <-. unfold check_for_updates_only.
    destruct (all_packages (sys_app s)) eqn:Hp.
    + intros t. simpl. rewrite app_nil_r. apply Hs.
    + intros t. simpl. rewrite elem_of_app, list_elem_of_singleton.
      intros [Ht | ->]; simpl; [|done].
      destruct (Hs t Ht) as [Hle _]. split; lia.
  - (* _on_interpreter_selected *)
    injection Hstep as <-. intros t Ht. simpl in *.
    destruct (Hs t Ht) as [Hle Heq]. unfold _on_interpreter_selected.
    case_bool_decide; simpl; [split; lia|done].
  - (* update_task *)
    injection Hstep as <-. intros t Ht. simpl in *.
    unfold update_task. case_bool_decide; simpl; by apply Hs.
  - (* a package scan delivers *)
    case_bool_decide as Hin; [|done].
    destruct (Hs _ Hin) as [Hle Heq]. simpl in Hle, Heq.
    destruct run_update_check.
    + unfold _on_packages_loaded_then_check in Hstep.
      case_bool_decide as Hstale.
      * injection Hstep as <-. intros t. simpl. rewrite app_nil_r.
        intros Ht%elem_of_remove_first. by apply Hs.
      * injection Hstep as <-. intros t. simpl.
        rewrite store_scan_result_scan_id, elem_of_app, list_elem_of_singleton.
        intros [Ht%elem_of_remove_first | ->]; [by apply Hs|].
        simpl. split; [lia|]. intros _. by apply Heq.
    + injection Hstep as <-. intros t. simpl.
      rewrite _on_installed_loaded_scan_id.
      intros Ht%elem_of_remove_first. by apply Hs.
  - (* an outdated check delivers *)
    case_bool_decide as Hin; [|done].
    injection Hstep as <-. intros t. simpl.
    rewrite _on_outdated_checked_scan_id.
    intros Ht%elem_of_remove_first. by apply Hs.
  - (* a pip action ends *)
    injection Hstep as <-. unfold pip_action_complete.
    destruct auto_check; by apply request_refresh_stamps_ok.
  - (* find_orphaned_packages *)
    injection Hstep as <-. intros t Ht. simpl in *.
    unfold find_orphaned_packages.
    destruct (all_packages (sys_app s)); by apply Hs.
  - (* the damaged-packages tool *)
    destruct (run_damage_scan opts w (sys_app s)) as [a|] eqn:Hrun; [|done].
    injection Hstep as <-. intros t Ht. simpl in *.
    rewrite (run_damage_scan_scan_id _ _ _ _ Hrun). by apply Hs.
Qed.

Lemma reachable_stamps_ok s : reachable s → stamps_ok s.
Proof.
  induction 1 as [interpreter files|s e s' _ IH Hstep].
  - intros t Ht. by apply elem_of_nil in Ht.
  - by eapply sys_step_stamps_ok.
Qed.

(** A delivery that is accepted names a worker in flight, and a stale one
    leaves the application as it was. *)
Lemma delivery_in_flight s e s' scan_id :
  sys_step s e = Some s' → delivery_stamp e = Some scan_id →
  (∃ t, t ∈ in_flight s ∧ stamp t = scan_id) ∧
  (scan_id ≠ current_scan_id (sys_app s) → sys_app s' = sys_app s).
Proof.
  intros Hstep He. destruct e; simpl in He; simplify_eq; simpl in Hstep.
  - case_bool_decide as Hin; [|done]. split; [by eexists|].
    intros Hstale. destruct run_update_check.
    + destruct (stale_callbacks_return (sys_app s) result [] "" scan_id Hstale)
        as (_ & Heq & _).
      rewrite Heq in Hstep. by injection Hstep as <-.
    + destruct (stale_callbacks_return (sys_app s) result [] "" scan_id Hstale)
        as (Heq & _).
      rewrite Heq in Hstep. by injection Hstep as <-.
  - case_bool_decide as Hin; [|done]. split; [by eexists|].
    intros Hstale.
    destruct (stale_callbacks_return (sys_app s) (([], ∅), []) outdated_map ""
                scan_id Hstale) as (_ & _ & Heq & _).
    rewrite Heq in Hstep. by injection Hstep as <-.
Qed.

(** C1: a completion callback or a progress update that carries a stamp
    other than the current generation returns without touching the
    application, so the snapshot, the reverse index and the outdated map are
    the same before and after; and in every reachable state a delivery
    whose stamp is the current generation, hence every delivery that
    changes any of the three, belongs to the most recently requested
    scan. *)
Theorem stale_scan_results_are_discarded :
  (∀ self result outdated_map message scan_id,
     scan_id ≠ current_scan_id self →
     _on_installed_loaded result scan_id self = self ∧
     _on_packages_loaded_then_check result scan_id self = (self, [], []) ∧
     _on_outdated_checked outdated_map scan_id self = self ∧
     update_task message scan_id self = self) ∧
  (∀ s e s' scan_id,
     reachable s → sys_step s e = Some s' → delivery_stamp e = Some scan_id →
     (scan_id ≠ current_scan_id (sys_app s) →
      sys_app s' = sys_app s ∧
      authoritative (sys_app s') = authoritative (sys_app s)) ∧
     (scan_id = current_scan_id (sys_app s) →
      head (requested s) = Some scan_id) ∧
     (authoritative (sys_app s') ≠ authoritative (sys_app s) →
      scan_id = current_scan_id (sys_app s) ∧
      head (requested s) = Some scan_id)).
Proof.
  split; [apply stale_callbacks_return|].
  intros s e s' scan_id Hreach Hstep He.
  destruct (delivery_in_flight s e s' scan_id Hstep He) as [(t & Ht & Hst) Hstale].
  assert (scan_id = current_scan_id (sys_app s) →
          head (requested s) = Some scan_id) as Hnewest.
  { intros Heq. destruct (reachable_stamps_ok s Hreach t Ht) as [_ Hhead].
    rewrite <- Hst. apply Hhead. by rewrite Hst. }
  split; [|split; [done|]].
  - intros Hne. by rewrite Hstale.
  - intros Hchanged.
    destruct (decide (scan_id = current_scan_id (sys_app s))) as [Heq|Hne].
    + split; [done|by apply Hnewest].
    + destruct Hchanged. by rewrite Hstale.
Qed.

Lemma sample_sys_reachable : reachable sample_sys.
Proof.
  eapply reachable_step; [eapply reachable_step|].
  - apply (reachable_init "/usr/bin/python3" ∅).
  - instantiate (2 := EvRefresh false). reflexivity.
  - instantiate (1 := EvRefresh false). reflexivity.
Qed.

Lemma stale_scan_results_are_discarded_witness :
  _on_installed_loaded ([sample_pkg "late" []], ∅, []) 1 sample_app = sample_app ∧
  ∃ s', sys_step sample_sys (EvLoaded 1 false ([sample_pkg "late" []], ∅, []))
        = Some s' ∧
        authoritative (sys_app s') = authoritative (sys_app sample_sys).
Proof.
  destruct stale_scan_results_are_discarded as [Hcallbacks Hsys].
  split.
  - apply (Hcallbacks sample_app ([sample_pkg "late" []], ∅, []) [] "" 1%Z).
    vm_compute. discriminate.
  - eexists. split; [reflexivity|].
    eapply (Hsys sample_sys (EvLoaded 1 false ([sample_pkg "late" []], ∅, [])) _ 1%Z).
    + apply sample_sys_reachable.
    + reflexivity.
    + reflexivity.
    + vm_compute. discriminate.
Defined.


(** ** Damage classifier *)

Lemma fold_left_append_only {A B : Type} (f : list B → A → list B) xs acc :
  (∀ acc x, f acc x = acc ++ f [] x) →
  fold_left f xs acc = acc ++ flat_map (f []) xs.
Proof.
  intros Hf. revert acc. induction xs as [|x xs IH]; intros acc; simpl.
  - by rewrite app_nil_r.
  - by rewrite IH, (Hf acc x), <- app_assoc.
Qed.

Lemma dep_line_append problems line :
  dep_line problems line = problems ++ dep_line [] line.
Proof.
  unfold dep_line.
  destruct (PyStr.split1 _ line) as [|a [|b [|c l]]]; simpl;
    by rewrite ?app_nil_r.
Qed.








(** *** Merging by id *)

Lemma dict_set_spec {V : Type} k (v : V) d :
  (dict_set k v d).*1 = (if bool_decide (k ∈ d.*1) then d.*1 else d.*1 ++ [k]) ∧
  (∀ k' v', (k', v') ∈ dict_set k v d → (k', v') = (k, v) ∨ (k', v') ∈ d).
Proof.
  induction d as [|[k0 v0] d IH].
  - simpl. split; [done|]. intros k' v' Hin.
    apply list_elem_of_singleton in Hin. by left.
  - cbn [dict_set]. rewrite fmap_cons. cbn [fst].
    destruct (decide (k0 = k)) as [->|Hne].
    + rewrite !bool_decide_eq_true_2 by (done || apply list_elem_of_here).
      split; [done|]. intros k' v'. rewrite !elem_of_cons. tauto.
    + rewrite (bool_decide_eq_false_2 (k0 = k)) by done.
      destruct IH as [IHk IHv]. rewrite fmap_cons, IHk. cbn [fst]. split.
      * destruct (decide (k ∈ d.*1)) as [Hin|Hin].
        -- rewrite !bool_decide_eq_true_2; [done|by apply list_elem_of_further|done].
        -- rewrite !bool_decide_eq_false_2; [done| |done].
           rewrite elem_of_cons. intros [?|?]; [by subst|done].
      * intros k' v'. rewrite !elem_of_cons. intros [?|Hin]; [tauto|].
        destruct (IHv _ _ Hin); tauto.
Qed.

Lemma dict_set_NoDup {V : Type} k (v : V) d :
  NoDup d.*1 → NoDup (dict_set k v d).*1.
Proof.
  intros Hd. destruct (dict_set_spec k v d) as [-> _].
  case_bool_decide as Hin; [done|].
  apply NoDup_app. split; [done|]. split.
  - intros x Hx Hk. apply list_elem_of_singleton in Hk. by subst.
  - apply NoDup_singleton.
Qed.

Lemma merge_by_id_spec ps d :
  NoDup d.*1 → keyed_by_id d →
  let d' := fold_left (fun d p => dict_set (p_id p) p d) ps d in
  NoDup d'.*1 ∧ keyed_by_id d' ∧
  (∀ i, i ∈ d'.*1 ↔ i ∈ d.*1 ∨ i ∈ p_id <$> ps) ∧
  (∀ k p, (k, p) ∈ d' → (k, p) ∈ d ∨ p ∈ ps).
Proof.
  revert d. induction ps as [|p ps IH]; intros d Hnd Hkey; simpl.
  - split; [done|]. split; [done|]. split; [|by left].
    intros i. rewrite elem_of_nil. tauto.
  - destruct (dict_set_spec (p_id p) p d) as [Hkeys Hvals].
    destruct (IH (dict_set (p_id p) p d)) as (H1 & H2 & H3 & H4).
    { by apply dict_set_NoDup. }
    { intros k q Hin. destruct (Hvals _ _ Hin) as [Heq|Hold];
        [by simplify_eq|by apply Hkey]. }
    split; [done|]. split; [done|]. split.
    + intros i. rewrite H3, Hkeys, elem_of_cons.
      case_bool_decide as Hin.
      * split; [tauto|]. intros [?|[->|?]]; tauto.
      * rewrite elem_of_app, list_elem_of_singleton. tauto.
    + intros k q Hin. destruct (H4 _ _ Hin) as [Hd|Hps].
      * destruct (Hvals _ _ Hd) as [Heq|Hold]; [|by left].
        right. simplify_eq. apply list_elem_of_here.
      * right. by apply list_elem_of_further.
Qed.

Lemma keyed_by_id_ids d : keyed_by_id d → p_id <$> d.*2 = d.*1.
Proof.
  induction d as [|[k p] d IH]; intros Hkey; [done|].
  rewrite !fmap_cons. cbn [fst snd].
  rewrite (Hkey k p) by apply list_elem_of_here.
  rewrite IH; [done|]. intros k' p' Hin. apply Hkey. by apply list_elem_of_further.
Qed.






Lemma unique_problems_spec ps :
  NoDup (p_id <$> unique_problems ps) ∧
  (∀ i, i ∈ p_id <$> unique_problems ps ↔ i ∈ p_id <$> ps) ∧
  (∀ q, q ∈ unique_problems ps → q ∈ ps).
Proof.
  unfold unique_problems.
  destruct (merge_by_id_spec ps []) as (H1 & H2 & H3 & H4).
  { apply NoDup_nil_2. }
  { intros k p Hin. by apply elem_of_nil in Hin. }
  simpl in *. rewrite (keyed_by_id_ids _ H2).
  split; [done|]. split.
  - intros i. rewrite H3, elem_of_nil. tauto.
  - intros q Hq. apply list_elem_of_fmap in Hq as ([k p] & -> & Hin).
    destruct (H4 _ _ Hin) as [Hnil|Hps]; [by apply elem_of_nil in Hnil|done].
Qed.

(** *** The type and the name of the records *)

Ltac problem_cases :=
  repeat (case_match || case_bool_decide);
  rewrite ?Forall_app, ?Forall_singleton;
  repeat match goal with |- _ ∧ _ => split end;
  try done.

Ltac kind_found :=
  unfold well_formed, problem_kinds; split; [done|]; simpl;
  rewrite !elem_of_cons; tauto.

Lemma fold_left_Forall {A B : Type} (Q : B → Prop) (f : list B → A → list B) xs acc :
  (∀ acc x, Forall Q acc → Forall Q (f acc x)) →
  Forall Q acc → Forall Q (fold_left f xs acc).
Proof.
  intros Hf. revert acc. induction xs as [|x xs IH]; intros acc Hacc; simpl; auto.
Qed.

Lemma dep_check_well_formed w problems :
  Forall well_formed problems → Forall well_formed (dep_check w problems).
Proof.
  intros H. unfold dep_check. destruct (hw_pip_check w); [done|].
  apply fold_left_Forall; [|done].
  intros acc line Hacc. unfold dep_line. problem_cases. kind_found.
Qed.

Lemma check_file_records Q opts w pkg_name d problems fi :
  (∀ p, p_name p = pkg_name → well_formed p → Q p) →
  Forall Q problems → Forall Q (check_file opts w pkg_name d problems fi).
Proof.
  intros HQ H. unfold check_file, missing_metadata, filecheck_fail_record. simpl.
  problem_cases; apply HQ; try done; kind_found.
Qed.

Lemma check_package_records Q opts w m problems pkg :
  (∀ p, p_name p = name pkg → well_formed p → Q p) →
  Forall Q problems → Forall Q (check_package opts w m problems pkg).
Proof.
  intros HQ H. unfold check_package.
  destruct (hw_distribution w (name pkg)) as [e|d].
  { rewrite Forall_app, Forall_singleton. split; [done|].
    apply HQ; [done|kind_found]. }
  assert (Forall Q (if check_import opts
                    then import_test w m (name pkg) problems else problems)) as H'.
  { destruct (check_import opts); [|done]. unfold import_test.
    problem_cases; apply HQ; try done; kind_found. }
  destruct (check_hashes opts || check_metadata_files opts); [|done].
  destruct (d_files d) as [e|[[|fi fis]|]]; try done.
  - rewrite Forall_app, Forall_singleton. split; [done|].
    apply HQ; [done|kind_found].
  - apply fold_left_Forall; [|done].
    intros acc x Hacc. by apply check_file_records.
Qed.

Lemma raw_problems_well_formed self opts w :
  Forall well_formed (raw_problems self opts w).
Proof.
  unfold raw_problems. apply fold_left_Forall.
  - intros acc pkg Hacc. apply check_package_records; auto.
  - assert (Forall well_formed
              (unparseable_record <$> damaged_packages_cache self)) as H.
    { apply Forall_fmap, Forall_forall. intros path _. simpl. kind_found. }
    destruct (check_deps opts); [by apply dep_check_well_formed|done].
Qed.


(** *** The tree of the tool *)

Lemma tree_insert_all ps tree :
  NoDup ((iid <$> tree) ++ (p_id <$> ps)) →
  for_each (fun tree p => tree_insert (item_of p) tree) ps tree
  = Ok (tree ++ (item_of <$> ps)).
Proof.
  revert tree. induction ps as [|p ps IH]; intros tree Hnd; simpl.
  - by rewrite app_nil_r.
  - unfold tree_insert at 1. simpl.
    rewrite bool_decide_eq_false_2.
    + simpl. rewrite IH.
      * by rewrite <- app_assoc.
      * rewrite fmap_app. simpl. by rewrite <- app_assoc.
    + intros Hin. apply NoDup_app in Hnd as (_ & Hdisj & _).
      apply (Hdisj _ Hin). apply list_elem_of_here.
Qed.

Lemma tree_tags_found tree item_id :
  item_id ∈ iid <$> tree →
  ∃ item, item ∈ tree ∧ tree_tags tree item_id = Ok (tags item).
Proof.
  induction tree as [|item tree IH]; simpl.
  - intros Hin. by apply elem_of_nil in Hin.
  - intros Hin. case_bool_decide as Hid.
    + exists item. split; [apply list_elem_of_here|done].
    + apply elem_of_cons in Hin as [Heq|Hin]; [congruence|].
      destruct (IH Hin) as (item' & Hitem & Htags).
      exists item'. split; [by apply list_elem_of_further|done].
Qed.

Lemma all_reinstallable_ok tree selection :
  (∀ item, item ∈ tree → reinstallable ∈ tags item) →
  (∀ i, i ∈ selection → i ∈ iid <$> tree) →
  all_reinstallable tree selection = Ok true.
Proof.
  intros Htree. induction selection as [|i selection IH]; intros Hsel; simpl; [done|].
  destruct (tree_tags_found tree i) as (item & Hitem & ->).
  { apply Hsel, list_elem_of_here. }
  simpl. rewrite bool_decide_eq_true_2 by by apply Htree.
  apply IH. intros j Hj. apply Hsel. by apply list_elem_of_further.
Qed.

Lemma select_damaged_cons i selection self :
  select_damaged (i :: selection) self =
  (b ←! all_reinstallable (damaged_tree self) (i :: selection);
   Ok (set_reinstall_damaged_btn b (set_damaged_selection (i :: selection) self))).
Proof. reflexivity. Qed.

(** The scan reads the snapshot and the damaged list, nothing else. *)
Lemma raw_problems_reads self self' opts w :
  all_packages self' = all_packages self →
  damaged_packages_cache self' = damaged_packages_cache self →
  raw_problems self' opts w = raw_problems self opts w.
Proof. intros H1 H2. unfold raw_problems. by rewrite H1, H2. Qed.

(** A run of the tool that starts the scan shows the rows of its result. *)
Lemma damage_scan_shown opts w self self1 :
  find_damaged_packages opts self = (self1, true) →
  all_packages self1 = all_packages self ∧
  damaged_packages_cache self1 = damaged_packages_cache self ∧
  ∃ shown,
    _on_damaged_scan_complete (_scan_for_damaged_packages_task self1 opts w) self1
    = Ok shown ∧
    all_packages shown = all_packages self ∧
    damaged_packages_cache shown = damaged_packages_cache self ∧
    damaged_selection shown = [] ∧
    damaged_tree shown = item_of <$> _scan_for_damaged_packages_task self opts w.
Proof.
  unfold find_damaged_packages. intros Hfind.
  destruct (all_packages self) as [|p ps] eqn:Hp; [by simplify_eq|].
  destruct (negb _ && _); simplify_eq.
  split; [done|]. split; [done|].
  unfold _on_damaged_scan_complete. simpl.
  rewrite (tree_insert_all _ []).
  2: { simpl. apply unique_problems_spec. }
  simpl. eexists. split; [reflexivity|]. simpl.
  by repeat split.
Qed.

(** Records with one id are merged into the last of them, at the place of
    the first. *)
Example merged_record_is_the_last :
  (fun p => (p_id p, p_details p)) <$>
    unique_problems (dep_check sample_health_world [])
  = [("dep-foo", "baz, which is not installed.")].
Proof. by vm_compute. Qed.

(** The ids of the sample scan: the two conflicts of [foo] and the WHEEL
    file reported for each file of a package are merged. *)
Example sample_scan_ids :
  p_id <$> _scan_for_damaged_packages_task sample_app all_checks sample_health_world
  = ["/site-packages/broken-0.1.dist-info"; "dep-foo"; "import-app";
     "missing-meta-app-WHEEL"; "filecheck-fail-app-app/b.py";
     "dist-fail-core"; "import-fail-lib"; "missing-meta-lib-WHEEL";
     "filecheck-fail-lib-lib/b.py"; "missing-meta-pip-WHEEL";
     "filecheck-fail-pip-pip/b.py"; "record-read-fail-util"] ∧
  length (raw_problems sample_app all_checks sample_health_world) = 16.
Proof. by vm_compute. Qed.




(** C9: the result of a scan holds every id of the problems it found once;
    a run of the tool does not change what the scan reads, so a second run
    over the same package list, the same checks and the same environment
    returns the same result and shows the same rows, and no row is refused
    as a duplicate. *)
Theorem damage_scan_is_idempotent (self : app) (opts : options)
    (w : health_world) :
  NoDup (p_id <$> _scan_for_damaged_packages_task self opts w) ∧
  (∀ i, i ∈ p_id <$> _scan_for_damaged_packages_task self opts w ↔
        i ∈ p_id <$> raw_problems self opts w) ∧
  ∃ once twice,
    run_damage_scan opts w self = Ok once ∧
    _scan_for_damaged_packages_task once opts w
    = _scan_for_damaged_packages_task self opts w ∧
    run_damage_scan opts w once = Ok twice ∧
    damaged_tree twice = damaged_tree once.
Proof.
  destruct (unique_problems_spec (raw_problems self opts w)) as (Hnd & Hids & _).
  split; [done|]. split; [done|].
  unfold run_damage_scan.
  destruct (find_damaged_packages opts self) as [self1 started] eqn:Hfind.
  destruct started.
  - destruct (damage_scan_shown opts w self self1 Hfind)
      as (Hp1 & Hd1 & once & -> & Hp & Hd & Hsel & Htree).
    assert (_scan_for_damaged_packages_task once opts w
            = _scan_for_damaged_packages_task self opts w) as Hsame.
    { unfold _scan_for_damaged_packages_task. f_equal.
      by apply raw_problems_reads. }
    assert (∃ once1, find_damaged_packages opts once = (once1, true)) as [once1 Hfind'].
    { revert Hfind. unfold find_damaged_packages. rewrite Hp, Hd.
      destruct (all_packages self); [done|].
      destruct (negb _ && _); [done|]. by eexists. }
    destruct (damage_scan_shown opts w once once1 Hfind')
      as (_ & _ & twice & Htwice & _ & _ & _ & Htree').
    exists once, twice. rewrite Hfind', Htwice. repeat split; try done.
    by rewrite Htree', Htree, Hsame.
  - assert (self1 = self) as ->.
    { revert Hfind. unfold find_damaged_packages.
      destruct (all_packages self); [by intros [= ->]|].
      destruct (negb _ && _); [by intros [= ->]|done]. }
    exists self, self. rewrite Hfind. done.
Qed.

(** C10: every record the scan returns is of one of the nine kinds and
    carries the type [reinstallable], whatever its kind; once the rows of a
    scan are shown, every selection of at least one row enables the
    reinstall button. *)
Theorem every_problem_is_reinstallable (self : app) (opts : options)
    (w : health_world) :
  (∀ p, p ∈ _scan_for_damaged_packages_task self opts w →
        p_type p = "reinstallable" ∧
        p_problem p ∈ [ "Unparseable metadata"; "Dependency conflict";
                        "Import failed"; "File hash mismatch";
                        "Missing metadata file"; "Distribution lookup failed";
                        "Import check failed"; "File check failed";
                        "Corrupted RECORD file" ]) ∧
  (∀ self1, find_damaged_packages opts self = (self1, true) →
     ∃ shown,
       _on_damaged_scan_complete
         (_scan_for_damaged_packages_task self1 opts w) self1 = Ok shown ∧
       (∀ item, item ∈ damaged_tree shown → tags item = ["reinstallable"]) ∧
       ∀ selection,
         selection ≠ [] →
         (∀ i, i ∈ selection → i ∈ iid <$> damaged_tree shown) →
         ∃ after, select_damaged selection shown = Ok after ∧
                  reinstall_damaged_btn after = true).
Proof.
  assert (∀ p, p ∈ _scan_for_damaged_packages_task self opts w →
               well_formed p) as Hwf.
  { intros p Hp. apply unique_problems_spec in Hp.
    revert p Hp. apply Forall_forall, raw_problems_well_formed. }
  assert (∀ p, p ∈ _scan_for_damaged_packages_task self opts w →
               p_type p = "reinstallable") as Htypes.
  { intros p Hp. by destruct (Hwf p Hp). }
  split; [exact Hwf|]. intros self1 Hfind.
  destruct (damage_scan_shown opts w self self1 Hfind)
    as (_ & _ & shown & Hshown & _ & _ & _ & Htree).
  exists shown. split; [done|].
  assert (∀ item, item ∈ damaged_tree shown → tags item = ["reinstallable"]) as Htags.
  { intros item. rewrite Htree. intros (p & -> & Hp)%list_elem_of_fmap.
    simpl. by rewrite (Htypes p Hp). }
  split; [done|]. intros selection Hne Hsel.
  destruct selection as [|i selection]; [done|].
  rewrite select_damaged_cons.
  rewrite all_reinstallable_ok; [simpl; eexists; split; reflexivity| |done].
  intros item Hitem. rewrite (Htags item Hitem). apply list_elem_of_here.
Qed.

Lemma every_problem_is_reinstallable_witness :
  ∃ shown after,
    run_damage_scan all_checks sample_health_world sample_app = Ok shown ∧
    select_damaged ["dist-fail-core"; "import-fail-lib"] shown = Ok after ∧
    reinstall_damaged_btn after = true.
Proof.
  destruct (every_problem_is_reinstallable sample_app all_checks
              sample_health_world) as [_ Hshown].
  destruct (Hshown _ eq_refl) as (shown & Hrun & _ & Hselect).
  destruct (Hselect ["dist-fail-core"; "import-fail-lib"]) as (after & Hafter & Hbtn).
  - discriminate.
  - intros i Hi.
    assert (Some (damaged_tree shown)
            = Some (item_of <$> _scan_for_damaged_packages_task sample_app
                                  all_checks sample_health_world)) as [= ->].
    { change (Some (damaged_tree shown))
        with ((fun r => match r with Ok a => Some (damaged_tree a) | Raise _ => None end)
                (Ok shown)).
      rewrite <- Hrun. vm_compute. reflexivity. }
    apply elem_of_cons in Hi as [->|Hi]; [by vm_compute; repeat constructor|].
    apply list_elem_of_singleton in Hi as ->. vm_compute. repeat constructor.
  - exists shown, after. split; [exact Hrun|]. split; [exact Hafter|exact Hbtn].
Defined.

(** * Further properties of the coordinator *)

(** X1: selecting another interpreter empties the package snapshot, the
    reverse index and the outdated map and leaves every worker in flight
    with a stamp below the new generation, so that whatever a scan of the
    previous environment delivers afterwards is discarded. *)
Theorem interpreter_switch_outdates_scans (s s1 : sys) (new_interpreter : string) :
  reachable s →
  new_interpreter ≠ current_interpreter (sys_app s) →
  sys_step s (EvSelectInterpreter new_interpreter) = Some s1 →
  authoritative (sys_app s1) = ([], ∅, []) ∧
  current_interpreter (sys_app s1) = new_interpreter ∧
  (∀ t, t ∈ in_flight s1 → (stamp t < current_scan_id (sys_app s1))%Z) ∧
  (∀ e s2 scan_id,
     delivery_stamp e = Some scan_id → sys_step s1 e = Some s2 →
     sys_app s2 = sys_app s1).
Proof.
  intros Hreach Hne Hstep. simpl in Hstep. injection Hstep as <-. simpl.
  unfold _on_interpreter_selected. rewrite bool_decide_eq_true_2 by done. simpl.
  assert (∀ t, t ∈ in_flight s →
               (stamp t < current_scan_id (sys_app s) + 1)%Z) as Hlt.
  { intros t Ht. destruct (reachable_stamps_ok s Hreach t Ht). lia. }
  split; [done|]. split; [done|]. split; [done|].
  intros e s2 scan_id He Hstep2.
  destruct (delivery_in_flight _ e s2 scan_id Hstep2 He) as [(t & Ht & Hst) Hstale].
  apply Hstale. simpl in *. specialize (Hlt t Ht). lia.
Qed.

Lemma interpreter_switch_outdates_scans_witness :
  ∃ s1, sys_step sample_sys (EvSelectInterpreter "/venv/bin/python") = Some s1 ∧
        current_scan_id (sys_app s1) = 3%Z ∧
        ∀ t, t ∈ in_flight s1 → (stamp t < 3)%Z.
Proof.
  destruct (interpreter_switch_outdates_scans sample_sys
              {| sys_app := _on_interpreter_selected "/venv/bin/python"
                              (sys_app sample_sys);
                 in_flight := in_flight sample_sys;
                 requested := requested sample_sys |}
              "/venv/bin/python" sample_sys_reachable) as (_ & _ & Hlt & _).
  - vm_compute. discriminate.
  - reflexivity.
  - eexists. split; [reflexivity|]. split; [reflexivity|exact Hlt].
Defined.

Lemma StronglySorted_gt_NoDup (l : list Z) :
  StronglySorted (fun a b : Z => (b < a)%Z) l → NoDup l.
Proof.
  induction 1 as [|a l _ IH Hall]; [apply NoDup_nil_2|].
  apply NoDup_cons. split; [|done].
  intros Hin. rewrite Forall_forall in Hall. specialize (Hall a Hin). lia.
Qed.

Lemma request_refresh_stamps_fresh s a ruc :
  stamps_fresh s → current_scan_id a = current_scan_id (sys_app s) →
  stamps_fresh (request s (_start_full_refresh_chain ruc a)).
Proof.
  intros (Hsort & Hpos & Hreq & Hfl) Hid. unfold stamps_fresh. simpl.
  rewrite Hid. split; [|split; [lia|split]].
  - apply SSorted_cons; [done|]. apply Forall_forall. intros r Hr.
    specialize (Hreq r Hr). lia.
  - intros r. rewrite elem_of_cons. intros [->|Hr]; [lia|].
    specialize (Hreq r Hr). lia.
  - intros t. rewrite elem_of_app, list_elem_of_singleton, elem_of_cons.
    intros [Ht| ->]; [right; by apply Hfl|by left].
Qed.

Lemma sys_step_stamps_fresh s e s' :
  stamps_fresh s → sys_step s e = Some s' → stamps_fresh s'.
Proof.
  intros Hs Hstep. destruct e; simpl in Hstep.
  - injection Hstep as <-. unfold initial_load.
    destruct (if cache_usable then _ else _);
      by apply request_refresh_stamps_fresh.
  - injection Hstep as <-. by apply request_refresh_stamps_fresh.
  - injection Hstep as <-. unfold check_for_updates_only.
    destruct (all_packages (sys_app s)) eqn:Hp.
    + destruct Hs as (Hsort & Hpos & Hreq & Hfl). unfold stamps_fresh. simpl.
      rewrite app_nil_r. done.
    + destruct Hs as (Hsort & Hpos & Hreq & Hfl). unfold stamps_fresh. simpl.
      split; [|split; [lia|split]].
      * apply SSorted_cons; [done|]. apply Forall_forall. intros r Hr.
        specialize (Hreq r Hr). lia.
      * intros r. rewrite elem_of_cons. intros [->|Hr]; [lia|].
        specialize (Hreq r Hr). lia.
      * intros t. rewrite elem_of_app, list_elem_of_singleton, elem_of_cons.
        intros [Ht| ->]; [right; by apply Hfl|by left].
  - injection Hstep as <-. destruct Hs as (Hsort & Hpos & Hreq & Hfl).
    unfold stamps_fresh, _on_interpreter_selected. simpl.
    case_bool_decide; simpl; [|done].
    split; [done|]. split; [lia|]. split; [|done].
    intros r Hr. specialize (Hreq r Hr). lia.
  - injection Hstep as <-. destruct Hs as (Hsort & Hpos & Hreq & Hfl).
    unfold stamps_fresh, update_task. simpl. by case_bool_decide.
  - case_bool_decide as Hin; [|done].
    destruct Hs as (Hsort & Hpos & Hreq & Hfl).
    pose proof (Hfl _ Hin) as Hst. simpl in Hst.
    destruct run_update_check.
    + unfold _on_packages_loaded_then_check in Hstep.
      case_bool_decide as Hstale.
      * injection Hstep as <-. unfold stamps_fresh. simpl. rewrite app_nil_r.
        split; [done|]. split; [done|]. split; [done|].
        intros t Ht%elem_of_remove_first. by apply Hfl.
      * injection Hstep as <-. unfold stamps_fresh. simpl.
        rewrite store_scan_result_scan_id.
        split; [done|]. split; [done|]. split; [done|].
        intros t. rewrite elem_of_app, list_elem_of_singleton.
        intros [Ht%elem_of_remove_first | ->]; [by apply Hfl|done].
    + injection Hstep as <-. unfold stamps_fresh. simpl.
      rewrite _on_installed_loaded_scan_id.
      split; [done|]. split; [done|]. split; [done|].
      intros t Ht%elem_of_remove_first. by apply Hfl.
  - case_bool_decide as Hin; [|done].
    destruct Hs as (Hsort & Hpos & Hreq & Hfl).
    injection Hstep as <-. unfold stamps_fresh. simpl.
    rewrite _on_outdated_checked_scan_id.
    split; [done|]. split; [done|]. split; [done|].
    intros t Ht%elem_of_remove_first. by apply Hfl.
  - injection Hstep as <-. unfold pip_action_complete.
    destruct auto_check; by apply request_refresh_stamps_fresh.
  - injection Hstep as <-. destruct Hs as (Hsort & Hpos & Hreq & Hfl).
    unfold stamps_fresh, find_orphaned_packages. simpl.
    by destruct (all_packages (sys_app s)).
  - destruct (run_damage_scan opts w (sys_app s)) as [a|] eqn:Hrun; [|done].
    injection Hstep as <-. destruct Hs as (Hsort & Hpos & Hreq & Hfl).
    unfold stamps_fresh. simpl.
    by rewrite (run_damage_scan_scan_id _ _ _ _ Hrun).
Qed.

Lemma reachable_stamps_fresh s : reachable s → stamps_fresh s.
Proof.
  induction 1 as [interpreter files|s e s' _ IH Hstep].
  - unfold stamps_fresh. simpl. split; [apply SSorted_nil|]. split; [done|].
    split; intros x Hx; by apply elem_of_nil in Hx.
  - by eapply sys_step_stamps_fresh.
Qed.

(** X2: in every state the application can reach, no two scans that
    were requested share a stamp, every requested stamp is positive and
    does not exceed the current generation, and every worker in flight
    carries a requested stamp. *)
Theorem scan_stamps_are_distinct (s : sys) :
  reachable s →
  NoDup (requested s) ∧
  (∀ r, r ∈ requested s → (0 < r ≤ current_scan_id (sys_app s))%Z) ∧
  (∀ t, t ∈ in_flight s → stamp t ∈ requested s).
Proof.
  intros Hreach.
  destruct (reachable_stamps_fresh s Hreach) as (Hsort & _ & Hreq & Hfl).
  split; [by apply StronglySorted_gt_NoDup|done].
Qed.

Lemma scan_stamps_are_distinct_witness :
  NoDup (requested sample_sys) ∧
  ∀ t, t ∈ in_flight sample_sys → stamp t ∈ requested sample_sys.
Proof.
  destruct (scan_stamps_are_distinct sample_sys sample_sys_reachable)
    as (Hnd & _ & Hfl).
  split; [exact Hnd|exact Hfl].
Defined.

(** X3: what a processed scan shows is what the cache gives back: after a
    delivery with the current stamp, selecting another interpreter empties
    the snapshot, and selecting the first one again and loading its cache
    file restores the package list, the reverse index and the damaged list
    that were shown. *)
Theorem snapshot_restored_from_cache (self : app) (result : scan_result)
    (other : string) (run_update_check : bool) :
  other ≠ current_interpreter self →
  let shown := _on_installed_loaded result (current_scan_id self) self in
  let away := _on_interpreter_selected other shown in
  let back := _on_interpreter_selected (current_interpreter self) away in
  let restored := (initial_load true run_update_check back).1.1 in
  all_packages away = [] ∧ reverse_deps away = ∅ ∧
  all_packages back = [] ∧
  all_packages restored = all_packages shown ∧
  reverse_deps restored = reverse_deps shown ∧
  damaged_packages_cache restored = damaged_packages_cache shown.
Proof.
  intros Hne shown away back restored.
  assert (current_interpreter shown = current_interpreter self) as Hint.
  { unfold shown, _on_installed_loaded.
    rewrite bool_decide_eq_false_2 by (intros H; by apply H).
    by destruct result as [[[|p ps] rd] dm]. }
  assert (cache_files shown !! current_interpreter self =
          Some {| c_packages := all_packages shown;
                  c_reverse_deps := reverse_deps shown;
                  c_damaged_packages := damaged_packages_cache shown |}) as Hfile.
  { unfold shown, _on_installed_loaded.
    rewrite bool_decide_eq_false_2 by (intros H; by apply H).
    destruct result as [[[|p ps] rd] dm]; simpl; by rewrite lookup_insert_eq. }
  subst restored back away. unfold _on_interpreter_selected.
  rewrite Hint.
  rewrite (bool_decide_eq_true_2 (other ≠ current_interpreter self)) by done.
  cbn [current_interpreter set_reverse_deps set_outdated_packages
       set_all_packages set_action_status set_current_interpreter
       set_current_scan_id].
  rewrite (bool_decide_eq_true_2 (current_interpreter self ≠ other)) by done.
  unfold initial_load.
  cbn [current_interpreter cache_files set_reverse_deps set_outdated_packages
       set_all_packages set_action_status set_current_interpreter
       set_current_scan_id all_packages reverse_deps].
  rewrite Hfile. done.
Qed.

Lemma snapshot_restored_from_cache_witness :
  all_packages
    (initial_load true false
       (_on_interpreter_selected "/usr/bin/python3"
          (_on_interpreter_selected "/venv/bin/python"
             (_on_installed_loaded ([sample_pkg "late" []], ∅, []) 2 sample_app)))).1.1
  = [sample_pkg "late" []].
Proof.
  destruct (snapshot_restored_from_cache sample_app ([sample_pkg "late" []], ∅, [])
              "/venv/bin/python" false) as (_ & _ & _ & Hp & _).
  - vm_compute. discriminate.
  - exact Hp.
Defined.

(** ** The package scan *)

Lemma scan_dist_readable w scan_id total packages damaged queue i d :
  ∃ m,
    scan_dist w scan_id total (packages, damaged, queue) (i, d) =
    match readable w d with
    | Some info => (packages ++ [info], damaged, queue ++ [QStatus m scan_id])
    | None => (packages, damaged ++ [d], queue ++ [QStatus m scan_id])
    end.
Proof.
  unfold scan_dist, readable.
  destruct (w_package_info w d) as [info|]; [|by eexists].
  case_bool_decide; by eexists.
Qed.

Lemma scan_dist_fold w scan_id total dirs :
  ∀ (f : nat → string → nat * string) packages damaged queue,
    (∀ i d, (f i d).2 = d) →
    ∃ queue',
      fold_left (scan_dist w scan_id total) (imap f dirs) (packages, damaged, queue) =
      (packages ++ omap (readable w) dirs,
       damaged ++ filter (fun d => readable w d = None) dirs,
       queue ++ queue') ∧
      length queue' = length dirs ∧
      Forall (fun q => ∃ m, q = QStatus m scan_id) queue'.
Proof.
  induction dirs as [|d dirs IH]; intros f packages damaged queue Hf.
  - exists []. simpl. by rewrite !app_nil_r.
  - cbn [imap fold_left]. destruct (f 0 d) as [i dp] eqn:Hfd.
    assert (dp = d) as -> by (rewrite <- (Hf 0 d); by rewrite Hfd).
    assert (∀ i d, ((f ∘ S) i d).2 = d) as Hf' by (intros; apply Hf).
    rewrite filter_cons. cbn [omap list_omap].
    destruct (scan_dist_readable w scan_id total packages damaged queue i d)
      as [m ->].
    destruct (readable w d) as [info|] eqn:Hr.
    + destruct (decide (Some info = None)) as [|_]; [done|].
      destruct (IH (f ∘ S) (packages ++ [info]) damaged
                  (queue ++ [QStatus m scan_id]) Hf')
        as (queue' & -> & Hlen & Hall).
      exists (QStatus m scan_id :: queue'). rewrite <- !app_assoc.
      split; [done|]. simpl.
      split; [by rewrite Hlen|]. apply Forall_cons. split; [by eexists|done].
    + destruct (decide (None = None)) as [_|]; [|done].
      destruct (IH (f ∘ S) packages (damaged ++ [d])
                  (queue ++ [QStatus m scan_id]) Hf')
        as (queue' & -> & Hlen & Hall).
      exists (QStatus m scan_id :: queue'). rewrite <- !app_assoc.
      split; [done|]. simpl.
      split; [by rewrite Hlen|]. apply Forall_cons. split; [by eexists|done].
Qed.

Lemma omap_filter_length {A B : Type} (f : A → option B) (l : list A) :
  length (omap f l) + length (filter (fun x => f x = None) l) = length l.
Proof.
  induction l as [|x l IH]; [done|].
  rewrite filter_cons. cbn [omap list_omap].
  destruct (f x) as [y|] eqn:Hx.
  - destruct (decide (Some y = None)); [done|]. simpl. lia.
  - destruct (decide (None = None)); [|done]. simpl. lia.
Qed.

(** X5: when the site-packages directories are located, the scan
    accounts for every [.dist-info] directory it finds, in the order it
    finds them: a directory whose metadata can be read and give a name yields
    a package, every other one is listed as damaged, none is in both lists
    or in neither; and every status update the scan queues carries the
    stamp of the scan. *)
Theorem scan_accounts_for_every_directory (self : app) (w : world) (scan_id : Z)
    (paths : list string) :
  w_site_packages w (current_interpreter self) = inr paths →
  let dirs := all_dist_info_dirs w (filter (fun p => w_isdir w p = true) paths) in
  let packages := omap (readable w) dirs in
  let damaged := filter (fun d => readable w d = None) dirs in
  ∃ R queue,
    _load_packages_task self w scan_id = Ok ((packages, R, damaged), queue) ∧
    length packages + length damaged = length dirs ∧
    length queue = length dirs + 2 ∧
    Forall (fun q => ∃ m, q = QStatus m scan_id) queue.
Proof.
  intros Hpaths dirs packages damaged.
  unfold _load_packages_task. rewrite Hpaths. fold dirs.
  destruct (scan_dist_fold w scan_id (length dirs) dirs pair [] []
              ([QStatus "Finding site-packages..." scan_id]
               ++ [QStatus "Scanning installed packages..." scan_id]))
    as (queue' & Hfold & Hlen & Hall); [done|].
  rewrite Hfold. simpl.
  destruct (build_reverse_deps_spec (omap (readable w) dirs)) as (R & -> & _).
  simpl. exists R. eexists. split; [done|]. split; [apply omap_filter_length|].
  split.
  - simpl. rewrite Hlen. lia.
  - repeat (apply Forall_cons; split; [by eexists|]). done.
Qed.

Lemma scan_accounts_for_every_directory_witness :
  ∃ R queue,
    _load_packages_task sample_app sample_world 7 =
    Ok (([sample_pkg "app" ["lib>=1.0"; "util (>=2)"]], R,
         ["/site-packages/broken-0.1.dist-info"; "/site-packages/anon-2.dist-info"]),
        queue) ∧
    length queue = 5.
Proof.
  destruct (scan_accounts_for_every_directory sample_app sample_world 7
              ["/site-packages"; "/missing"] eq_refl)
    as (R & queue & Htask & _ & Hlen & _).
  exists R, queue. split; [exact Htask|exact Hlen].
Defined.

(** ** Dicts in insertion order *)

Lemma dict_get_dict_set {V : Type} k (v : V) d k' :
  dict_get (dict_set k v d) k' = if bool_decide (k = k') then Some v else dict_get d k'.
Proof.
  induction d as [|[k0 v0] d IH]; simpl; [done|].
  destruct (decide (k0 = k)) as [->|Hne].
  - rewrite (bool_decide_eq_true_2 (k = k)) by done. simpl.
    by destruct (bool_decide (k = k')).
  - rewrite (bool_decide_eq_false_2 (k0 = k)) by done. simpl. rewrite IH.
    destruct (decide (k0 = k')) as [->|Hne'].
    + rewrite (bool_decide_eq_true_2 (k' = k')) by done.
      by rewrite (bool_decide_eq_false_2 (k = k')) by done.
    + by rewrite (bool_decide_eq_false_2 (k0 = k')) by done.
Qed.

Lemma dict_get_None {V : Type} (d : list (string * V)) k :
  k ∉ d.*1 → dict_get d k = None.
Proof.
  induction d as [|[k0 v0] d IH]; intros Hk; simpl; [done|].
  rewrite fmap_cons in Hk. cbn [fst] in Hk. apply not_elem_of_cons in Hk as [Hne Hk].
  rewrite bool_decide_eq_false_2 by done. by apply IH.
Qed.

(** A dict comprehension keeps, for every key, the last item of the key. *)
Lemma dict_get_comprehension {A : Type} (key : A → string) (xs : list A) d k :
  dict_get (fold_left (fun d x => dict_set (key x) x d) xs d) k =
  match last (filter (fun x => key x = k) xs) with
  | Some x => Some x
  | None => dict_get d k
  end.
Proof.
  revert d. induction xs as [|x xs IH]; intros d; simpl; [done|].
  rewrite IH, filter_cons, dict_get_dict_set.
  destruct (decide (key x = k)) as [Hk|Hk].
  - rewrite bool_decide_eq_true_2 by done.
    destruct (filter (fun x => key x = k) xs) as [|y l] eqn:Hf; [done|].
    rewrite !last_cons. by destruct (last l).
  - by rewrite bool_decide_eq_false_2 by done.
Qed.

Lemma dict_comprehension_NoDup {A : Type} (key : A → string) (xs : list A) d :
  NoDup d.*1 → NoDup (fold_left (fun d x => dict_set (key x) x d) xs d).*1.
Proof.
  revert d. induction xs as [|x xs IH]; intros d Hd; simpl; [done|].
  apply IH. by apply dict_set_NoDup.
Qed.

Lemma dict_pop_keys {V : Type} k (d : list (string * V)) k' :
  k' ∈ (dict_pop k d).*1 → k' ∈ d.*1.
Proof.
  induction d as [|[k0 v0] d IH]; [done|]. cbn [dict_pop].
  case_bool_decide.
  - rewrite fmap_cons. apply list_elem_of_further.
  - rewrite !fmap_cons, !elem_of_cons. intros [->|Hin]; [by left|right; by apply IH].
Qed.

Lemma dict_pop_NoDup {V : Type} k (d : list (string * V)) :
  NoDup d.*1 → NoDup (dict_pop k d).*1.
Proof.
  induction d as [|[k0 v0] d IH]; [done|]. cbn [dict_pop].
  rewrite fmap_cons. cbn [fst]. intros [Hk0 Hd]%NoDup_cons.
  case_bool_decide; [done|].
  rewrite fmap_cons. cbn [fst]. apply NoDup_cons. split; [|by apply IH].
  intros Hin. apply Hk0. by eapply dict_pop_keys.
Qed.

Lemma dict_get_dict_pop {V : Type} k (d : list (string * V)) k' :
  NoDup d.*1 →
  dict_get (dict_pop k d) k' = if bool_decide (k = k') then None else dict_get d k'.
Proof.
  induction d as [|[k0 v0] d IH].
  - intros _. simpl. by destruct (bool_decide (k = k')).
  - rewrite fmap_cons. cbn [fst dict_pop]. intros [Hk0 Hd]%NoDup_cons.
    destruct (decide (k0 = k)) as [->|Hne].
    + rewrite (bool_decide_eq_true_2 (k = k)) by done.
      destruct (decide (k = k')) as [->|Hne'].
      * rewrite !bool_decide_eq_true_2 by done. by apply dict_get_None.
      * rewrite (bool_decide_eq_false_2 (k = k')) by done. simpl.
        by rewrite (bool_decide_eq_false_2 (k = k')) by done.
    + rewrite (bool_decide_eq_false_2 (k0 = k)) by done. simpl.
      rewrite IH by done.
      destruct (decide (k0 = k')) as [->|Hne'].
      * rewrite (bool_decide_eq_true_2 (k' = k')) by done.
        by rewrite (bool_decide_eq_false_2 (k = k')) by done.
      * by rewrite (bool_decide_eq_false_2 (k0 = k')) by done.
Qed.

Lemma dict_get_fold_dict_pop {V : Type} (names : list string) (d : list (string * V)) k :
  NoDup d.*1 →
  dict_get (fold_left (fun d pkg_name => dict_pop pkg_name d) names d) k =
  if bool_decide (k ∈ names) then None else dict_get d k.
Proof.
  revert d. induction names as [|n names IH]; intros d Hd; simpl; [done|].
  rewrite IH by (by apply dict_pop_NoDup). rewrite dict_get_dict_pop by done.
  destruct (decide (k ∈ names)) as [Hin|Hin].
  - rewrite !bool_decide_eq_true_2; [done|by apply list_elem_of_further|done].
  - rewrite (bool_decide_eq_false_2 (k ∈ names)) by done.
    destruct (decide (n = k)) as [->|Hne].
    + rewrite !bool_decide_eq_true_2; [done|apply list_elem_of_here|done].
    + rewrite !bool_decide_eq_false_2; [done| |done].
      rewrite elem_of_cons. intros [?|?]; [by subst|done].
Qed.

(** X6: the map the outdated check returns has every name once, and
    under each name the last entry pip printed for it; a successful check
    queues nothing. *)
Theorem outdated_map_keeps_last_entry (self : app) (w : world) (scan_id : Z)
    (items : list outdated_info) :
  w_pip_outdated w (current_interpreter self) = inr items →
  let r := _check_for_outdated_packages_task self w scan_id in
  r.2 = [] ∧
  NoDup r.1.*1 ∧
  (∀ k, k ∈ r.1.*1 ↔ k ∈ o_name <$> items) ∧
  (∀ k, dict_get r.1 k = last (filter (fun item => o_name item = k) items)).
Proof.
  intros Hitems r. subst r. unfold _check_for_outdated_packages_task.
  rewrite Hitems. cbn [fst snd].
  split; [done|]. split; [apply dict_comprehension_NoDup, NoDup_nil_2|].
  assert (∀ k, dict_get (fold_left (fun d item => dict_set (o_name item) item d) items []) k
               = last (filter (fun item => o_name item = k) items)) as Hget.
  { intros k. rewrite dict_get_comprehension. by destruct (last _). }
  split; [|done].
  intros k. split.
  - intros Hk. apply list_elem_of_fmap in Hk as ([k' v] & -> & Hin).
    cbn [fst].
    assert (∃ v', dict_get (fold_left (fun d item => dict_set (o_name item) item d) items []) k' = Some v')
      as [v' Hv'].
    { clear Hget. revert Hin.
      generalize (fold_left (fun d item => dict_set (o_name item) item d) items []).
      intros d. induction d as [|[k0 v0] d IH]; intros Hin; [by apply elem_of_nil in Hin|].
      simpl. case_bool_decide; [by eexists|].
      apply elem_of_cons in Hin as [Heq|Hin]; [by simplify_eq|by apply IH]. }
    rewrite Hget in Hv'. apply last_Some in Hv' as [l Hl].
    assert (v' ∈ filter (fun item => o_name item = k') items) as Hv.
    { rewrite Hl. apply elem_of_app. right. apply list_elem_of_here. }
    apply list_elem_of_filter in Hv as [<- Hv].
    apply list_elem_of_fmap. by exists v'.
  - intros Hk. apply list_elem_of_fmap in Hk as (item & -> & Hin).
    assert (item ∈ filter (fun i => o_name i = o_name item) items) as Hf.
    { by apply list_elem_of_filter. }
    destruct (last (filter (fun i => o_name i = o_name item) items)) as [v|] eqn:Hlast.
    + specialize (Hget (o_name item)). rewrite Hlast in Hget.
      apply dict_get_Some_elem in Hget.
      apply list_elem_of_fmap. by exists (o_name item, v).
    + apply last_None in Hlast. rewrite Hlast in Hf. by apply elem_of_nil in Hf.
Qed.

Lemma outdated_map_keeps_last_entry_witness :
  dict_get (_check_for_outdated_packages_task sample_app sample_world 7).1 "my_package"
  = Some sample_info.
Proof.
  destruct (outdated_map_keeps_last_entry sample_app sample_world 7
              [ {| o_name := "my_package"; o_version := "0.9";
                   o_latest_version := "2.0"; o_latest_filetype := "sdist" |};
                sample_info ] eq_refl) as (_ & _ & _ & Hget).
  exact (Hget "my_package").
Defined.

(** X7: when a pip action ends, the names it was told to clear are no
    longer keys of the outdated map and every other entry is as before; a
    new scan is requested under the next stamp, which makes every scan still
    in flight stale, and the upgrade button is disabled meanwhile. *)
Theorem finished_pip_action_forgets_packages (self : app) (names : list string)
    (auto_check : bool) :
  NoDup (outdated_packages self).*1 →
  let r := pip_action_complete names auto_check self in
  (∀ k, dict_get (outdated_packages r.1.1) k =
        if bool_decide (k ∈ names) then None
        else dict_get (outdated_packages self) k) ∧
  current_scan_id r.1.1 = (current_scan_id self + 1)%Z ∧
  r.2 = [LoadPackages (current_scan_id self + 1) auto_check] ∧
  ui_busy r.1.1 = true ∧ upgrade_all_btn r.1.1 = false ∧
  all_packages r.1.1 = all_packages self.
Proof.
  intros Hnd r. subst r. unfold pip_action_complete.
  split.
  - intros k. rewrite <- (dict_get_fold_dict_pop names (outdated_packages self) k Hnd).
    by destruct auto_check.
  - destruct auto_check; simpl; by rewrite andb_false_r.
Qed.

Lemma finished_pip_action_forgets_packages_witness :
  dict_get
    (outdated_packages
       (pip_action_complete ["my_package"] true
          (set_outdated_packages [("my_package", sample_info)] sample_app)).1.1)
    "my_package" = None.
Proof.
  destruct (finished_pip_action_forgets_packages
              (set_outdated_packages [("my_package", sample_info)] sample_app)
              ["my_package"] true) as [Hget _].
  - vm_compute. apply NoDup_cons. split; [|apply NoDup_nil_2].
    intros H. by apply elem_of_nil in H.
  - exact (Hget "my_package").
Defined.

(** ** Sorting by a text key *)

Lemma ltb_compare a b : String.ltb a b = true ↔ String.compare a b = Lt.
Proof. unfold String.ltb. destruct (String.compare a b); split; done. Qed.

Lemma ltb_trans a b c :
  String.ltb a b = true → String.ltb b c = true → String.ltb a c = true.
Proof.
  rewrite !ltb_compare.
  intros H1%OrderedTypeEx.String_as_OT.cmp_lt H2%OrderedTypeEx.String_as_OT.cmp_lt.
  apply OrderedTypeEx.String_as_OT.cmp_lt.
  by eapply OrderedTypeEx.String_as_OT.lt_trans.
Qed.

Lemma ltb_irrefl a : String.ltb a a = false.
Proof.
  destruct (String.ltb a a) eqn:H; [|done].
  apply ltb_compare in H. pose proof (String.compare_antisym a a) as Ha.
  rewrite H in Ha. done.
Qed.

(** Two texts compare one way, the other way, or are equal. *)
Lemma ltb_total a b : String.ltb a b = true ∨ a = b ∨ String.ltb b a = true.
Proof.
  destruct (String.compare a b) eqn:Hc.
  - right. left. by apply String.compare_eq_iff.
  - left. by apply ltb_compare.
  - right. right. apply ltb_compare. rewrite String.compare_antisym, Hc. done.
Qed.

Lemma str_le_refl a : str_le a a.
Proof. apply ltb_irrefl. Qed.

Lemma ltb_str_le a b : String.ltb a b = true → str_le a b.
Proof.
  intros Hab. unfold str_le. destruct (String.ltb b a) eqn:Hba; [|done].
  pose proof (ltb_trans _ _ _ Hab Hba) as H. by rewrite ltb_irrefl in H.
Qed.

Lemma str_le_trans a b c : str_le a b → str_le b c → str_le a c.
Proof.
  unfold str_le. intros Hab Hbc.
  destruct (String.ltb c a) eqn:Hca; [|done].
  destruct (ltb_total a b) as [H|[->|H]]; [|congruence|congruence].
  pose proof (ltb_trans _ _ _ Hca H). congruence.
Qed.

Lemma ltb_str_le_trans a b c :
  String.ltb a b = true → str_le b c → String.ltb a c = true.
Proof.
  unfold str_le. intros Hab Hbc.
  destruct (ltb_total a c) as [H|[->|H]]; [done|congruence|].
  pose proof (ltb_trans _ _ _ H Hab). congruence.
Qed.

Section SortedBy.

Context {A : Type} (key : A → string).

Lemma insert_by_sorted x l :
  StronglySorted (key_le key) l → StronglySorted (key_le key) (insert_by key x l).
Proof.
  induction 1 as [|y l Hl IH Hall]; simpl.
  - apply SSorted_cons; [apply SSorted_nil|apply Forall_nil_2].
  - destruct (String.ltb (key x) (key y)) eqn:Hxy.
    + apply SSorted_cons; [by apply SSorted_cons|].
      apply Forall_cons. split; [by apply ltb_str_le|].
      eapply Forall_impl; [exact Hall|]. intros z Hz.
      eapply str_le_trans; [by apply ltb_str_le|done].
    + apply SSorted_cons; [done|].
      rewrite (insert_by_perm key x l). by apply Forall_cons.
Qed.

Lemma filter_none {B : Type} (Q : B → Prop) `{!∀ x, Decision (Q x)} (l : list B) :
  Forall (fun x => ¬ Q x) l → filter Q l = [].
Proof.
  induction 1 as [|x l Hx _ IH]; [done|].
  rewrite filter_cons. by destruct (decide (Q x)).
Qed.

(** An element is put behind the elements of its key. *)
Lemma insert_by_filter x l k :
  StronglySorted (key_le key) l →
  filter (fun a => key a = k) (insert_by key x l) =
  filter (fun a => key a = k) l ++ filter (fun a => key a = k) [x].
Proof.
  induction 1 as [|y l Hl IH Hall]; [by rewrite app_nil_l|].
  cbn [insert_by]. destruct (String.ltb (key x) (key y)) eqn:Hxy.
  - rewrite (filter_cons _ x (y :: l)), (filter_cons _ x []).
    destruct (decide (key x = k)) as [Hk|Hk]; [|by rewrite app_nil_r].
    assert (filter (fun a => key a = k) (y :: l) = []) as ->; [|done].
    apply filter_none. apply Forall_cons. split.
    + intros Hy. rewrite Hk, Hy in Hxy. by rewrite ltb_irrefl in Hxy.
    + eapply Forall_impl; [exact Hall|]. intros z Hz Hzk.
      pose proof (ltb_str_le_trans _ _ _ Hxy Hz) as Hlt.
      rewrite Hk, Hzk in Hlt. by rewrite ltb_irrefl in Hlt.
  - rewrite (filter_cons _ y (insert_by key x l)), (filter_cons _ y l), IH.
    by destruct (decide (key y = k)).
Qed.

Lemma sorted_by_spec (l : list A) :
  sorted_by key l ≡ₚ l ∧
  StronglySorted (key_le key) (sorted_by key l) ∧
  ∀ k, filter (fun a => key a = k) (sorted_by key l) = filter (fun a => key a = k) l.
Proof.
  split; [apply sorted_by_perm|]. unfold sorted_by.
  enough (∀ acc, StronglySorted (key_le key) acc →
            StronglySorted (key_le key) (fold_left (fun acc x => insert_by key x acc) l acc) ∧
            ∀ k, filter (fun a => key a = k)
                   (fold_left (fun acc x => insert_by key x acc) l acc)
                 = filter (fun a => key a = k) acc ++ filter (fun a => key a = k) l)
    as H.
  { destruct (H [] (SSorted_nil _)) as [H1 H2]. split; [done|].
    intros k. by rewrite H2. }
  induction l as [|x l IH]; intros acc Hacc; simpl.
  - split; [done|]. intros k. by rewrite app_nil_r.
  - destruct (IH (insert_by key x acc)) as [H1 H2]; [by apply insert_by_sorted|].
    split; [done|]. intros k. rewrite H2, insert_by_filter by done.
    rewrite <- app_assoc. f_equal. rewrite (filter_cons _ x l), (filter_cons _ x []).
    by destruct (decide (key x = k)).
Qed.

End SortedBy.

(** X8: a processed scan that found packages stores the list the scan
    returned, sorted by lowercased name: it has the same packages, no
    package comes before one whose lowercased name sorts before its own, and
    packages with the same lowercased name keep the order of the scan; the
    reverse index of the scan is stored with it, and the list of the orphans
    tool is sorted the same way.  A processed scan that found no package
    leaves the package list and the reverse index as they were.  Both hold
    whether the refresh of the package tree that ends the callback returns
    or raises. *)
Theorem stored_snapshot_is_sorted (P : packaging_lib) (PACKAGING_AVAILABLE : bool)
    (format_size : N → string) (format_date : option N → string)
    (vulnerabilities_cache : list (string * list vuln))
    (result : scan_result) (self : app) (tab : manage_tab) :
  let self' :=
    (WithTree._on_installed_loaded P PACKAGING_AVAILABLE format_size format_date
       vulnerabilities_cache result (current_scan_id self) self tab).1 in
  let key := fun p => PyStr.lower (name p) in
  (result.1.1 = [] →
   all_packages self' = all_packages self ∧ reverse_deps self' = reverse_deps self) ∧
  (result.1.1 ≠ [] →
   all_packages self' ≡ₚ result.1.1 ∧
   StronglySorted (fun p q => str_le (key p) (key q)) (all_packages self') ∧
   (∀ k, filter (fun p => key p = k) (all_packages self')
         = filter (fun p => key p = k) result.1.1) ∧
   reverse_deps self' = result.1.2 ∧
   StronglySorted (fun p q => str_le (key p) (key q))
     (orphaned_packages_cache (find_orphaned_packages self'))).
Proof.
  intros self' key.
  assert (all_packages self' = all_packages (store_scan_result result self) ∧
          reverse_deps self' = reverse_deps (store_scan_result result self))
    as [Hall Hrd].
  { subst self'. unfold WithTree._on_installed_loaded.
    rewrite bool_decide_eq_false_2 by (intros H; by apply H).
    by destruct (_filter_packages _ _ _ _ _ _ _). }
  rewrite Hrd. unfold find_orphaned_packages. rewrite Hall. clear Hall Hrd.
  destruct result as [[[|p ps] rd] dm]; cbn [fst snd] in *.
  { split; [done|]. intros Hne. by destruct Hne. }
  split; [done|]. intros _.
  destruct (sorted_by_spec key (p :: ps)) as (Hperm & Hsorted & Hstable).
  assert (all_packages (store_scan_result (p :: ps, rd, dm) self)
          = sorted_by key (p :: ps)) as Hall by done.
  rewrite Hall.
  split; [done|]. split; [done|]. split; [done|]. split; [done|].
  destruct (sorted_by key (p :: ps)) as [|q qs] eqn:Hq.
  - by apply Permutation_nil_cons in Hperm.
  - cbn [orphaned_packages_cache set_orphaned_packages_cache].
    unfold orphaned_packages.
    apply (sorted_by_spec key).
Qed.

(** A scan of three packages is stored in sorted order; an empty scan
    keeps the five packages of the sample. *)
Example sample_snapshots_stored :
  let callback result :=
    (WithTree._on_installed_loaded Packaging.lib true (fun _ => "0 B")
       (fun _ => "N/A") [] result 2 sample_app sample_tab).1 in
  name <$> all_packages
             (callback ([sample_pkg "b" []; sample_pkg "B" []; sample_pkg "a" []], ∅, []))
  = ["a"; "b"; "B"] ∧
  all_packages (callback ([], ∅, [])) = sample_packages.
Proof. by vm_compute. Qed.

(** ** The dependency check *)

Lemma partition_contains sep s :
  sep ≠ "" → (PyStr.partition sep s = None ↔ PyStr.contains sep s = false).
Proof.
  intros Hne. induction s as [|c s IH].
  - simpl. destruct sep; [done|]. done.
  - cbn [PyStr.partition PyStr.contains].
    destruct (PyStr.startswith sep (String c s)); [done|].
    rewrite orb_false_l, <- IH.
    destruct (PyStr.partition sep s) as [[b a]|]; done.
Qed.

Lemma startswith_skip sep s :
  PyStr.startswith sep s = true → s = sep +:+ PyStr.skip (String.length sep) s.
Proof.
  revert s. induction sep as [|a sep IH]; intros s; [done|].
  destruct s as [|b s]; [done|]. simpl.
  rewrite andb_true_iff, bool_decide_eq_true. intros [-> Hs].
  f_equal. by apply IH.
Qed.

Lemma partition_Some sep s before after :
  PyStr.partition sep s = Some (before, after) →
  s = before +:+ sep +:+ after ∧ PyStr.before_first sep s = before.
Proof.
  revert before. induction s as [|c s IH]; intros before; [done|].
  cbn [PyStr.partition PyStr.before_first].
  destruct (PyStr.startswith sep (String c s)) eqn:Hs.
  - intros [= <- <-]. split; [|done]. by apply startswith_skip.
  - destruct (PyStr.partition sep s) as [[b a]|]; [|done].
    intros [= <- <-]. destruct (IH b eq_refl) as [-> ->]. done.
Qed.

(** X9: the dependency check reads the standard output of [pip check]
    line by line, whatever the exit status; a line without the words
    [has requirement] yields no record, every other line yields one
    dependency-conflict record, which names the first word of what precedes
    the first occurrence of these words and quotes what follows it; when
    running the command raises, no record is added. *)
Theorem dependency_check_reads_conflict_lines (w : health_world)
    (problems : list problem) :
  (∀ e, hw_pip_check w = inl e → dep_check w problems = problems) ∧
  (∀ result_proc, hw_pip_check w = inr result_proc →
     dep_check w problems =
     problems ++ flat_map (dep_line [])
                   (PyStr.splitlines (PyStr.strip (stdout result_proc)))) ∧
  (∀ line, PyStr.contains " has requirement " line = false →
           dep_line [] line = []) ∧
  (∀ line, PyStr.contains " has requirement " line = true →
     ∃ package_part req_part,
       line = package_part +:+ " has requirement " +:+ req_part ∧
       package_part = PyStr.before_first " has requirement " line ∧
       dep_line [] line =
       [ {| p_id := "dep-" +:+ PyStr.before_first " " package_part;
            p_name := PyStr.before_first " " package_part;
            p_problem := "Dependency conflict";
            p_details := req_part;
            p_type := reinstallable |} ]).
Proof.
  split; [|split; [|split]].
  - intros e He. unfold dep_check. by rewrite He.
  - intros result_proc Hr. unfold dep_check. rewrite Hr.
    apply fold_left_append_only. intros acc x. apply dep_line_append.
  - intros line Hline. unfold dep_line, PyStr.split1.
    apply partition_contains in Hline; [|done]. by rewrite Hline.
  - intros line Hline. unfold dep_line, PyStr.split1.
    destruct (PyStr.partition " has requirement " line) as [[b a]|] eqn:Hp.
    + destruct (partition_Some _ _ _ _ Hp) as [Heq Hb].
      exists b, a. split; [done|]. split; [done|].
      rewrite head_lookup. unfold PyStr.split. rewrite split_go_head. done.
    + apply partition_contains in Hp; [congruence|done].
Qed.

(** ** Settings *)

Lemma unique_go_spec l :
  ∀ seen : gset string,
    NoDup (PyList.unique_go seen l) ∧
    (∀ x, x ∈ PyList.unique_go seen l ↔ x ∈ l ∧ x ∉ seen) ∧
    PyList.unique_go seen l `sublist_of` l.
Proof.
  induction l as [|y l IH]; intros seen; simpl.
  - split; [apply NoDup_nil_2|]. split; [|done].
    intros x. rewrite elem_of_nil. tauto.
  - case_bool_decide as Hy.
    + destruct (IH seen) as (H1 & H2 & H3).
      split; [done|]. split; [|by apply sublist_cons].
      intros x. rewrite H2, elem_of_cons. split; [tauto|].
      intros [[->|Hx] Hs]; [done|tauto].
    + destruct (IH ({[ y ]} ∪ seen)) as (H1 & H2 & H3).
      split; [|split; [|by apply sublist_skip]].
      * apply NoDup_cons. split; [|done].
        rewrite H2, elem_of_union, elem_of_singleton. tauto.
      * intros x. rewrite !elem_of_cons, H2, elem_of_union, elem_of_singleton.
        destruct (decide (x = y)) as [->|Hne]; tauto.
Qed.

Lemma insert_key_true {A : Type} (x : A) (l : list (bool * A)) :
  insert_key SettingsManager.bool_lt (true, x) l = Ok (l ++ [(true, x)]).
Proof.
  induction l as [|y l IH]; simpl; [done|]. by rewrite IH.
Qed.

Lemma insert_key_false {A : Type} (x : A) (fs ts : list (bool * A)) :
  Forall (fun p => p.1 = false) fs → Forall (fun p => p.1 = true) ts →
  insert_key SettingsManager.bool_lt (false, x) (fs ++ ts)
  = Ok (fs ++ (false, x) :: ts).
Proof.
  intros Hfs Hts. induction Hfs as [|[b y] fs Hy _ IH]; simpl.
  - destruct Hts as [|[b y] ts Hy _]; [done|]. simpl in *. by subst.
  - simpl in Hy. subst. simpl. by rewrite IH.
Qed.

Lemma bool_sort_loop {A : Type} (data : list (bool * A)) :
  ∀ fs ts,
    Forall (fun p => p.1 = false) fs → Forall (fun p => p.1 = true) ts →
    for_each (fun acc x => insert_key SettingsManager.bool_lt x acc) data (fs ++ ts)
    = Ok ((fs ++ filter (fun p => p.1 = false) data)
          ++ (ts ++ filter (fun p => p.1 = true) data)).
Proof.
  induction data as [|[b x] data IH]; intros fs ts Hfs Hts; simpl.
  - by rewrite !app_nil_r.
  - rewrite !filter_cons. cbn [fst]. destruct b.
    + rewrite insert_key_true. simpl. rewrite <- app_assoc.
      rewrite (IH fs (ts ++ [(true, x)])); [|done|].
      * destruct (decide (true = false)); [done|].
        destruct (decide (true = true)); [|done].
        by rewrite <- !app_assoc.
      * apply Forall_app. split; [done|]. by apply Forall_singleton.
    + rewrite insert_key_false by done. simpl.
      change (fs ++ (false, x) :: ts) with (fs ++ [(false, x)] ++ ts).
      rewrite app_assoc.
      rewrite (IH (fs ++ [(false, x)]) ts); [| |done].
      * destruct (decide (false = false)); [|done].
        destruct (decide (false = true)); [done|].
        by rewrite <- !app_assoc.
      * apply Forall_app. split; [done|]. by apply Forall_singleton.
Qed.

Lemma filter_rev {A : Type} (Q : A → Prop) `{!∀ x, Decision (Q x)} (l : list A) :
  filter Q (rev l) = rev (filter Q l).
Proof.
  induction l as [|x l IH]; [done|]. cbn [rev].
  rewrite filter_app, IH, (filter_cons _ x l), (filter_cons _ x []).
  destruct (decide (Q x)); simpl; [done|]. by rewrite app_nil_r.
Qed.

(** Sorting downwards on a truth value puts the true keys first and keeps
    the order on either side. *)
Lemma bool_sort_reverse {A : Type} (data : list (bool * A)) :
  list_sort SettingsManager.bool_lt true data
  = Ok (filter (fun p => p.1 = true) data ++ filter (fun p => p.1 = false) data).
Proof.
  unfold list_sort.
  pose proof (bool_sort_loop (rev data) [] [] (Forall_nil_2 _) (Forall_nil_2 _)) as H.
  rewrite !app_nil_l in H. rewrite H. simpl.
  by rewrite rev_app_distr, !filter_rev, !rev_involutive.
Qed.

Lemma filter_eq_NoDup (x : string) (l : list string) :
  NoDup l → x ∈ l → filter (fun y => y = x) l = [x].
Proof.
  induction 1 as [|y l Hy Hl IH]; intros Hx; [by apply elem_of_nil in Hx|].
  rewrite filter_cons. destruct (decide (y = x)) as [->|Hne].
  - f_equal. apply filter_none. apply Forall_forall. intros z Hz ->. done.
  - apply IH. apply elem_of_cons in Hx as [?|?]; [by subst|done].
Qed.

Lemma filter_fmap_key (x : string) (v : bool) (l : list string) :
  snd <$> filter (fun p : bool * string => p.1 = v)
            ((fun y => (bool_decide (y = x), y)) <$> l)
  = filter (fun y => bool_decide (y = x) = v) l.
Proof.
  induction l as [|y l IH]; [done|].
  rewrite fmap_cons, !filter_cons. cbn [fst].
  destruct (decide (bool_decide (y = x) = v)); [|done].
  rewrite fmap_cons. cbn [snd]. by rewrite IH.
Qed.

(** What [SettingsManager.load] computes: the interpreter running the
    application, then the first occurrences of the others. *)
Lemma load_unfold (sys_executable : string) (file : option (string + settings_json)) :
  let st :=
    match file with
    | Some (inr j) => SettingsManager.setdefaults sys_executable j
    | _ => SettingsManager.defaults sys_executable
    end in
  let listed :=
    if bool_decide (sys_executable ∉ interpreters st)
    then sys_executable :: interpreters st else interpreters st in
  SettingsManager.load sys_executable file
  = Ok {| auto_check_updates := auto_check_updates st;
          cache_expiry_hours := cache_expiry_hours st;
          interpreters :=
            sys_executable
            :: filter (fun y => bool_decide (y = sys_executable) = false)
                 (PyList.unique_go ∅ listed) |}.
Proof.
  intros st listed. unfold SettingsManager.load.
  assert (match file with
          | Some (inr j) => SettingsManager.setdefaults sys_executable j
          | Some (inl _) => SettingsManager.defaults sys_executable
          | None => SettingsManager.defaults sys_executable
          end = st) as -> by (by destruct file as [[e|j]|]).
  fold listed.
  destruct (unique_go_spec listed ∅) as (Hnd & Hin & _).
  assert (sys_executable ∈ listed) as Hexe.
  { subst listed. case_bool_decide as Hx; [apply list_elem_of_here|done]. }
  rewrite bool_sort_reverse. cbn [res_bind].
  rewrite fmap_app, !filter_fmap_key.
  assert (filter (fun y => bool_decide (y = sys_executable) = true)
            (PyList.unique_go ∅ listed) = [sys_executable]) as ->.
  { rewrite <- (filter_eq_NoDup sys_executable (PyList.unique_go ∅ listed)); [|done|].
    - apply list_filter_iff. intros y. by rewrite bool_decide_eq_true.
    - apply Hin. split; [done|]. apply not_elem_of_empty. }
  done.
Qed.

(** ** Cache files *)

(** X11: a cache file that was saved is loaded again, with the data that
    were saved, as long as it is not older than the expiry time, and always
    when the expiry time is zero or negative; it is refused once it is older
    than a positive expiry time; saving under one interpreter leaves what is
    loaded under an interpreter with another cache path as it was. *)
Theorem cache_round_trip (home : string) (sha1_hexdigest : string → string)
    (d : CacheManager.disk) (written now : Z) (interpreter_path : string)
    (data : cache_data) (expiry_hours : Z) :
  let d' := CacheManager.save home sha1_hexdigest d written interpreter_path data in
  let load := CacheManager.load home sha1_hexdigest in
  ((expiry_hours ≤ 0 ∨
    (expiry_hours < 24000000000 ∧ now - written ≤ expiry_hours * 3600000000))%Z →
   load d' now interpreter_path expiry_hours
   = Some {| cf_version := Some CACHE_VERSION; cf_timestamp := Some written;
             cf_data := data |}) ∧
  ((0 < expiry_hours ∧ now - written > expiry_hours * 3600000000)%Z →
   load d' now interpreter_path expiry_hours = None) ∧
  (∀ other,
     CacheManager._get_path home sha1_hexdigest other
     ≠ CacheManager._get_path home sha1_hexdigest interpreter_path →
     load d' now other expiry_hours = load d now other expiry_hours).
Proof.
  intros d' load. subst d' load. unfold CacheManager.load, CacheManager.save.
  unfold CacheManager.disk in *. cbv zeta.
  split; [|split].
  - intros Hfresh. rewrite lookup_insert_eq. cbn [cf_version cf_timestamp].
    rewrite (bool_decide_eq_false_2 (Some CACHE_VERSION ≠ Some CACHE_VERSION))
      by (intros H; by apply H).
    case_bool_decide as Hpos; [|done].
    rewrite !bool_decide_eq_false_2; [done|lia|lia].
  - intros [Hpos Hold]. rewrite lookup_insert_eq. cbn [cf_version cf_timestamp].
    rewrite (bool_decide_eq_false_2 (Some CACHE_VERSION ≠ Some CACHE_VERSION))
      by (intros H; by apply H).
    rewrite (bool_decide_eq_true_2 (0 < expiry_hours)%Z) by done.
    case_bool_decide; [done|]. by rewrite bool_decide_eq_true_2.
  - intros other Hne. by rewrite lookup_insert_ne.
Qed.

(** ** Running pip *)

(** The command of a pip action that is not a question: the prefix, the
    flags, [--yes] for an uninstall by pip, the packages. *)
Lemma _pip_action_started askyesno package_manager action packages title question
    flags on_complete_extra to_clear self :
  packages ≠ [] ∨ (action = "install" ∧ "-r" ∈ flags) →
  (_pip_action askyesno package_manager action packages title question false
     flags on_complete_extra to_clear self).2
  = Started
      {| command :=
           pip_prefix package_manager (current_interpreter self) action
           ++ (match package_manager with
               | pip => if bool_decide (action = "uninstall")
                        then flags ++ ["--yes"] else flags
               | uv _ => flags
               end)
           ++ packages;
         log_title := title +:+ " Log";
         on_complete_extra := on_complete_extra;
         packages_to_clear_from_outdated := to_clear |}.
Proof.
  intros Hgo. unfold _pip_action.
  assert (bool_decide (packages = [])
          && negb (bool_decide (action = "install") && bool_decide ("-r" ∈ flags))
          = false) as ->.
  { destruct Hgo as [Hp|[Ha Hr]].
    - by rewrite (bool_decide_eq_false_2 (packages = [])).
    - rewrite (bool_decide_eq_true_2 (action = "install")) by done.
      rewrite (bool_decide_eq_true_2 ("-r" ∈ flags)) by done.
      by rewrite andb_false_r. }
  cbn [andb]. destruct package_manager;
    cbn [pip_prefix current_interpreter set_action_status _update_ui_state
         set_upgrade_all_btn set_ui_busy snd]; by rewrite <- app_assoc.
Qed.

(** A pip action ends as [Returned] or starts a command. *)
Lemma _pip_action_result askyesno package_manager action packages title question
    is_question flags on_complete_extra to_clear self :
  let r := _pip_action askyesno package_manager action packages title question
             is_question flags on_complete_extra to_clear self in
  r.2 = Returned ∨
  ∃ local_flags,
    r.2 = Started
            {| command :=
                 pip_prefix package_manager (current_interpreter self) action
                 ++ local_flags ++ packages;
               log_title := title +:+ " Log";
               on_complete_extra := on_complete_extra;
               packages_to_clear_from_outdated := to_clear |} ∧
    local_flags = match package_manager with
                  | pip => if bool_decide (action = "uninstall")
                           then flags ++ ["--yes"] else flags
                  | uv _ => flags
                  end ∧
    (packages ≠ [] ∨ (action = "install" ∧ "-r" ∈ flags)).
Proof.
  intros r. subst r. unfold _pip_action.
  destruct (bool_decide (packages = [])
            && negb (bool_decide (action = "install") && bool_decide ("-r" ∈ flags)))
    eqn:Hguard; [by left|].
  destruct (is_question && negb (askyesno title _)); [by left|].
  right. eexists. split; [|split; [reflexivity|]].
  - destruct package_manager;
      cbn [pip_prefix current_interpreter set_action_status _update_ui_state
           set_upgrade_all_btn set_ui_busy snd]; by rewrite <- app_assoc.
  - apply andb_false_iff in Hguard as [Hp|Hr].
    + left. by apply bool_decide_eq_false in Hp.
    + right. apply negb_false_iff, andb_true_iff in Hr as [Ha Hr].
      split; [by apply bool_decide_eq_true in Ha|by apply bool_decide_eq_true in Hr].
Qed.

(** A pip action that asks starts a command only when the user confirms
    the question about the packages. *)
Lemma _pip_action_asked askyesno package_manager action packages title question
    flags on_complete_extra to_clear self run :
  "-r" ∉ flags →
  (_pip_action askyesno package_manager action packages title question true
     flags on_complete_extra to_clear self).2 = Started run →
  askyesno title (pip_question question packages) = true.
Proof.
  intros Hr. unfold _pip_action, pip_question.
  rewrite (bool_decide_eq_true_2 ("-r" ∉ flags)) by done.
  destruct (bool_decide (packages = []) && _); [done|].
  cbn [andb]. by destruct (askyesno title _).
Qed.

(** X12: whenever deleting the selected packages starts a command, no
    selected name is [pip] in any letter case and, when the target is the
    interpreter running the application, none is a package whose removal
    needs a restart; the user has answered yes to the question that lists
    the selected names, and the command uninstalls the selected names, all
    of them and in their order, with [--yes] under pip; the same names are
    cleared from the outdated map afterwards. *)
Theorem delete_never_uninstalls_pip (sys_executable argv0 : string)
    (askyesno : string → string → bool) (first_of : gset string → string)
    (package_manager : pkg_manager) (selected : list string) (self : app)
    (run : pip_run) :
  (delete_selected sys_executable argv0 askyesno first_of package_manager
     selected self).2 = Started run →
  ("pip" ∉ PyStr.lower <$> selected) ∧
  (current_interpreter self = sys_executable →
   ∀ p, p ∈ selected → PyStr.lower p ∉ RESTART_REQUIRED_PACKAGES) ∧
  askyesno "Confirm Deletion"
    (pip_question "Are you sure you want to delete" selected) = true ∧
  command run =
    pip_prefix package_manager (current_interpreter self) "uninstall"
    ++ (match package_manager with pip => ["--yes"] | uv _ => [] end)
    ++ selected ∧
  packages_to_clear_from_outdated run = selected.
Proof.
  unfold delete_selected. destruct selected as [|p0 ps]; [done|].
  set (selected := p0 :: ps).
  destruct (bool_decide
              (list_to_set (PyStr.lower <$> selected) ∩ RESTART_REQUIRED_PACKAGES
               ≠ (∅ : gset string))
            && bool_decide (current_interpreter self = sys_executable)) eqn:Hcrit.
  { by destruct (askyesno _ _). }
  destruct (bool_decide ("pip" ∈ PyStr.lower <$> selected)) eqn:Hpip; [done|].
  apply bool_decide_eq_false in Hpip. intros Hrun.
  pose proof (_pip_action_asked _ _ _ _ _ _ _ _ _ _ _ (not_elem_of_nil _) Hrun)
    as Hyes.
  destruct (_pip_action_result askyesno package_manager "uninstall" selected
              "Confirm Deletion" "Are you sure you want to delete" true []
              no_extra selected self) as [Hret|(fl & Hst & Hfl & _)].
  { rewrite Hret in Hrun. done. }
  rewrite Hst in Hrun. injection Hrun as <-. cbn [command packages_to_clear_from_outdated].
  split; [done|]. split; [|split; [done|split; [|done]]].
  - intros Hown p Hp Hin.
    apply andb_false_iff in Hcrit as [Hc|Hc].
    + apply bool_decide_eq_false in Hc. apply Hc. intros Hempty.
      assert (PyStr.lower p ∈ (list_to_set (PyStr.lower <$> selected)
                               ∩ RESTART_REQUIRED_PACKAGES : gset string)) as Hmem.
      { apply elem_of_intersection. split; [|done].
        apply elem_of_list_to_set, list_elem_of_fmap. by exists p. }
      rewrite Hempty in Hmem. by apply not_elem_of_empty in Hmem.
    + by apply bool_decide_eq_false in Hc.
  - rewrite Hfl. by destruct package_manager.
Qed.

Lemma delete_never_uninstalls_pip_witness :
  ("pip" ∉ PyStr.lower <$> ["lib"; "util"]) ∧
  ∃ run,
    (delete_selected "/usr/bin/python3" "manager.py" always_yes first_element pip
       ["lib"; "util"] sample_app).2 = Started run ∧
    command run = ["/usr/bin/python3"; "-m"; "pip"; "uninstall"; "--yes"; "lib"; "util"].
Proof.
  destruct (delete_never_uninstalls_pip "/usr/bin/python3" "manager.py" always_yes
              first_element pip ["lib"; "util"] sample_app
              {| command := ["/usr/bin/python3"; "-m"; "pip"; "uninstall"; "--yes";
                             "lib"; "util"];
                 log_title := "Confirm Deletion Log";
                 on_complete_extra := no_extra;
                 packages_to_clear_from_outdated := ["lib"; "util"] |})
    as (Hpip & _ & _ & Hcmd & _).
  - vm_compute. reflexivity.
  - split; [exact Hpip|]. eexists. split; [vm_compute; reflexivity|reflexivity].
Defined.

(** A user who declines every question. *)
Example declined_deletion_starts_nothing :
  (delete_selected "/usr/bin/python3" "manager.py" (fun _ _ => false) first_element
     pip ["lib"; "util"] sample_app).2 = Returned.
Proof. by vm_compute. Qed.

(** X13: when deleting the selection ends in a restart, the target is
    the interpreter running the application and the package named on the
    command line of the new process is a selected package, in lower case,
    whose removal needs a restart; started with this command line, the
    program opens no window: it uninstalls that package with pip and then
    launches the application again. *)
Theorem restart_uninstalls_the_package (sys_executable argv0 : string)
    (askyesno : string → string → bool) (first_of : gset string → string)
    (package_manager : pkg_manager) (selected : list string) (self : app)
    (args : list string) :
  (∀ s : gset string, s ≠ ∅ → first_of s ∈ s) →
  argv0 ≠ "--uninstall-on-startup" →
  (delete_selected sys_executable argv0 askyesno first_of package_manager
     selected self).2 = Restarted args →
  ∃ pkg_name,
    pkg_name ∈ RESTART_REQUIRED_PACKAGES ∧
    pkg_name ∈ PyStr.lower <$> selected ∧
    current_interpreter self = sys_executable ∧
    args = [sys_executable; argv0; "--uninstall-on-startup"; pkg_name] ∧
    main sys_executable (tail args)
    = Ok (StartupUninstall
            [sys_executable; "-m"; "pip"; "uninstall"; "--yes"; pkg_name]
            [sys_executable; argv0]).
Proof.
  intros Hfirst Hargv0. unfold delete_selected.
  destruct selected as [|p0 ps]; [done|].
  set (selected := p0 :: ps).
  set (critical := (list_to_set (PyStr.lower <$> selected)
                    ∩ RESTART_REQUIRED_PACKAGES : gset string)).
  destruct (bool_decide (critical ≠ ∅)
            && bool_decide (current_interpreter self = sys_executable)) eqn:Hcrit.
  - apply andb_true_iff in Hcrit as [Hc Hown].
    apply bool_decide_eq_true in Hc. apply bool_decide_eq_true in Hown.
    destruct (askyesno _ _); [|done].
    intros [= <-]. exists (first_of critical).
    pose proof (Hfirst critical Hc) as Hin.
    apply elem_of_intersection in Hin as [Hsel Hreq].
    apply elem_of_list_to_set in Hsel.
    split; [done|]. split; [done|]. split; [done|]. split; [done|].
    cbn [tail]. unfold main.
    rewrite bool_decide_eq_true_2
      by (apply list_elem_of_further, list_elem_of_here).
    cbn [PyList.index].
    rewrite (bool_decide_eq_false_2 (argv0 = "--uninstall-on-startup")) by done.
    by rewrite (bool_decide_eq_true_2 ("--uninstall-on-startup" = "--uninstall-on-startup")).
  - destruct (bool_decide ("pip" ∈ PyStr.lower <$> selected)); [done|]. intros Hrun.
    destruct (_pip_action_result askyesno package_manager "uninstall" selected
                "Confirm Deletion" "Are you sure you want to delete" true []
                no_extra selected self) as [Hret|(fl & Hst & _)];
      [rewrite Hret in Hrun|rewrite Hst in Hrun]; done.
Qed.

Lemma first_element_elem (s : gset string) : s ≠ ∅ → first_element s ∈ s.
Proof.
  intros Hne. unfold first_element.
  destruct (elements s) as [|x l] eqn:Hel.
  - apply elements_empty_iff in Hel. by apply leibniz_equiv in Hel.
  - simpl. apply elem_of_elements. rewrite Hel. apply list_elem_of_here.
Qed.

Lemma restart_uninstalls_the_package_witness :
  main "/usr/bin/python3" ["manager.py"; "--uninstall-on-startup"; "packaging"]
  = Ok (StartupUninstall
          ["/usr/bin/python3"; "-m"; "pip"; "uninstall"; "--yes"; "packaging"]
          ["/usr/bin/python3"; "manager.py"]).
Proof.
  destruct (restart_uninstalls_the_package "/usr/bin/python3" "manager.py"
              always_yes first_element pip ["lib"; "Packaging"] sample_app
              ["/usr/bin/python3"; "manager.py"; "--uninstall-on-startup"; "packaging"]
              first_element_elem)
    as (pkg_name & _ & _ & _ & Hargs & Hmain).
  - discriminate.
  - vm_compute. reflexivity.
  - injection Hargs as <-. exact Hmain.
Defined.

(** X14: the packages the upgrade of all outdated packages passes to
    pip are the names of the outdated map, in its order, that are the exact
    name of an installed package whose installer is allowed (the last
    package of that name in the snapshot counts); a name of the outdated
    map that no installed package bears letter for letter is left out, also
    when the package list shows a package as outdated under it. *)
Theorem upgrade_all_takes_exact_names (askyesno : string → string → bool)
    (package_manager : pkg_manager) (self : app) (run : pip_run) :
  (upgrade_all_outdated askyesno package_manager self).2 = Started run →
  ∃ names,
    names ≠ [] ∧
    command run =
      pip_prefix package_manager (current_interpreter self) "install"
      ++ ["--upgrade"] ++ names ∧
    packages_to_clear_from_outdated run = names ∧
    names `sublist_of` (outdated_packages self).*1 ∧
    (∀ n, n ∈ names ↔
          n ∈ (outdated_packages self).*1 ∧
          ∃ p, last (filter (fun p => name p = n) (all_packages self)) = Some p ∧
               installer p ∈ allowed_installers package_manager).
Proof.
  unfold upgrade_all_outdated.
  set (manageable := fun n : string =>
         match dict_get (package_map (all_packages self)) n with
         | Some p => bool_decide (installer p ∈ allowed_installers package_manager)
         | None => false
         end = true).
  set (names := filter manageable (outdated_packages self).*1).
  assert (∀ n, n ∈ names ↔
            n ∈ (outdated_packages self).*1 ∧
            ∃ p, last (filter (fun p => name p = n) (all_packages self)) = Some p ∧
                 installer p ∈ allowed_installers package_manager) as Hnames.
  { intros n. subst names. rewrite list_elem_of_filter. subst manageable. cbv beta.
    unfold package_map. rewrite dict_get_comprehension. cbn [dict_get].
    destruct (last (filter (fun p => name p = n) (all_packages self))) as [p|].
    - rewrite bool_decide_eq_true. split.
      + intros [Hp Hn]. split; [done|]. by exists p.
      + intros [Hn (p' & [= <-] & Hp)]. done.
    - split; [by intros [? _]|]. by intros [_ (p' & ? & _)]. }
  destruct names as [|n0 ns] eqn:Hn; [done|].
  destruct (askyesno _ _); [|done].
  intros Hrun.
  destruct (_pip_action_result askyesno package_manager "install" (n0 :: ns)
              "Upgrade All Log" "Upgrading all outdated packages..." false
              ["--upgrade"] no_extra (n0 :: ns) self) as [Hret|(fl & Hst & Hfl & _)].
  { rewrite Hret in Hrun. done. }
  rewrite Hst in Hrun. injection Hrun as <-.
  exists (n0 :: ns). split; [done|]. cbn [command packages_to_clear_from_outdated].
  split; [|split; [done|split; [|done]]].
  - rewrite Hfl. destruct package_manager; [|done].
    by rewrite (bool_decide_eq_false_2 ("install" = "uninstall")).
  - rewrite <- Hn. apply sublist_filter.
Qed.

Lemma upgrade_all_takes_exact_names_witness :
  ∃ run,
    (upgrade_all_outdated always_yes pip
       (set_outdated_packages [("lib", sample_info); ("my_package", sample_info)]
          sample_app)).2 = Started run ∧
    command run = ["/usr/bin/python3"; "-m"; "pip"; "install"; "--upgrade"; "lib"].
Proof.
  eexists. split; [vm_compute; reflexivity|].
  destruct (upgrade_all_takes_exact_names always_yes pip
              (set_outdated_packages [("lib", sample_info); ("my_package", sample_info)]
                 sample_app)
              {| command := ["/usr/bin/python3"; "-m"; "pip"; "install"; "--upgrade"; "lib"];
                 log_title := "Upgrade All Log Log";
                 on_complete_extra := no_extra;
                 packages_to_clear_from_outdated := ["lib"] |})
    as (names & _ & Hcmd & _).
  - vm_compute. reflexivity.
  - reflexivity.
Defined.

(** A package shown as outdated through the normalized name is not
    upgraded by the upgrade of all packages. *)
Example flagged_but_not_upgraded :
  let self :=
    set_outdated_packages [("my_package", sample_info)]
      (set_all_packages [sample_pkg "My-Package" []] sample_app) in
  _is_package_outdated (outdated_packages self) "My-Package" = Some sample_info ∧
  (upgrade_all_outdated always_yes pip self).2 = Returned.
Proof. by vm_compute. Qed.

Lemma map_res_Ok {A B : Type} (f : A → res B) xs ys :
  map_res f xs = Ok ys → Forall2 (fun x y => f x = Ok y) xs ys.
Proof.
  revert ys. induction xs as [|x xs IH]; intros ys; simpl.
  - intros [= <-]. apply Forall2_nil_2.
  - destruct (f x) as [y|] eqn:Hx; [|done]. simpl.
    destruct (map_res f xs) as [ys'|]; [|done]. simpl.
    intros [= <-]. constructor; [done|by apply IH].
Qed.

(** A list sorted by the texts themselves that names no text twice
    increases strictly. *)
Lemma sorted_NoDup_strict (l : list string) :
  StronglySorted (key_le (fun x => x)) l → NoDup l →
  StronglySorted (fun a b => String.ltb a b = true) l.
Proof.
  induction 1 as [|x l Hl IH Hall]; intros Hnd; [apply SSorted_nil|].
  apply NoDup_cons in Hnd as [Hx Hnd].
  apply SSorted_cons; [by apply IH|].
  apply Forall_forall. intros y Hy. rewrite Forall_forall in Hall.
  specialize (Hall y Hy). unfold key_le, str_le in Hall.
  destruct (ltb_total x y) as [H|[->|H]]; [done|done|congruence].
Qed.

Lemma sorted_set_spec (s : gset string) :
  StronglySorted (fun a b => String.ltb a b = true) (PyList.sorted (elements s)) ∧
  ∀ n, n ∈ PyList.sorted (elements s) ↔ n ∈ s.
Proof.
  unfold PyList.sorted.
  destruct (sorted_by_spec (fun x : string => x) (elements s)) as (Hperm & Hsorted & _).
  split.
  - apply sorted_NoDup_strict; [done|]. rewrite Hperm. apply NoDup_elements.
  - intros n. by rewrite Hperm, elem_of_elements.
Qed.

(** X15: the packages passed to pip for the reinstallation of the
    selected damaged rows are the package names of these rows, each of them
    once and in increasing order, whatever the order of the selection and
    however many rows name one package; the command forces the
    reinstallation without cache, and the damage scan is run again when it
    ends. *)
Theorem reinstall_names_are_sorted (askyesno : string → string → bool)
    (package_manager : pkg_manager) (self self' : app) (run : pip_run) :
  reinstall_selected_damaged askyesno package_manager self = Ok (self', Started run) →
  ∃ names,
    command run =
      pip_prefix package_manager (current_interpreter self) "install"
      ++ (match package_manager with
          | uv _ => ["--reinstall"; "--no-cache"]
          | pip => ["--force-reinstall"; "--no-cache-dir"]
          end)
      ++ names ∧
    StronglySorted (fun a b => String.ltb a b = true) names ∧
    (∀ n, n ∈ names ↔
          ∃ item_id values,
            item_id ∈ damaged_selection self ∧
            tree_values (damaged_tree self) item_id = Ok values ∧
            values !! 0 = Some n) ∧
    on_complete_extra run = rescan_damaged ∧
    packages_to_clear_from_outdated run = [].
Proof.
  unfold reinstall_selected_damaged.
  destruct (damaged_selection self) as [|i0 sel] eqn:Hsel; [done|].
  destruct (map_res _ (i0 :: sel)) as [names|] eqn:Hnames; [|done].
  cbn [res_bind].
  apply map_res_Ok in Hnames.
  destruct (sorted_set_spec (list_to_set names)) as [Hsorted Hmem].
  set (packages := PyList.sorted (elements (list_to_set names : gset string))) in *.
  assert (∀ n, n ∈ packages ↔
            ∃ item_id values,
              item_id ∈ i0 :: sel ∧
              tree_values (damaged_tree self) item_id = Ok values ∧
              values !! 0 = Some n) as Hrows.
  { intros n. rewrite Hmem, elem_of_list_to_set. split.
    - intros Hn. apply list_elem_of_lookup in Hn as [k Hk].
      destruct (Forall2_lookup_r _ _ _ _ _ Hnames Hk) as (item_id & Hi & Hf).
      destruct (tree_values (damaged_tree self) item_id) as [vs|] eqn:Hvs; [|done].
      simpl in Hf. unfold getitem in Hf.
      destruct (vs !! 0) as [v|] eqn:Hv; [|done]. injection Hf as ->.
      exists item_id, vs. split; [by eapply list_elem_of_lookup_2|done].
    - intros (item_id & vs & Hin & Hvs & Hv).
      apply list_elem_of_lookup in Hin as [k Hk].
      destruct (Forall2_lookup_l _ _ _ _ _ Hnames Hk) as (n' & Hn' & Hf).
      rewrite Hvs in Hf. simpl in Hf. unfold getitem in Hf. rewrite Hv in Hf.
      injection Hf as <-. by eapply list_elem_of_lookup_2. }
  destruct (askyesno _ _); [|done].
  intros [= Hrun].
  assert (packages ≠ []) as Hne.
  { intros Hnil.
    apply Forall2_cons_inv_l in Hnames as (n0 & ns & Hf & _ & ->).
    assert (n0 ∈ packages) as Hin; [|rewrite Hnil in Hin; by apply elem_of_nil in Hin].
    apply Hmem, elem_of_list_to_set, list_elem_of_here. }
  pose proof (_pip_action_started askyesno package_manager "install" packages
                "Reinstalling Damaged Packages" "Reinstalling..."
                (match package_manager with
                 | uv _ => ["--reinstall"; "--no-cache"]
                 | pip => ["--force-reinstall"; "--no-cache-dir"]
                 end) rescan_damaged [] self (or_introl Hne)) as Hst.
  apply (f_equal snd) in Hrun. rewrite Hst in Hrun. cbn [snd] in Hrun.
  injection Hrun as <-.
  exists packages. cbn [command on_complete_extra packages_to_clear_from_outdated].
  split; [|done].
  by destruct package_manager.
Qed.
Lemma reinstall_names_are_sorted_witness :
  ∃ names,
    StronglySorted (fun a b => String.ltb a b = true) names ∧
    ["/usr/bin/python3"; "-m"; "pip"; "install"; "--force-reinstall";
     "--no-cache-dir"; "bar"; "foo"]
    = ["/usr/bin/python3"; "-m"; "pip"; "install"; "--force-reinstall";
       "--no-cache-dir"] ++ names.
Proof.
  destruct (reinstall_names_are_sorted always_yes pip sample_damaged_app
              (_pip_action always_yes pip "install" ["bar"; "foo"]
                 "Reinstalling Damaged Packages" "Reinstalling..." false
                 ["--force-reinstall"; "--no-cache-dir"] rescan_damaged []
                 sample_damaged_app).1
              {| command := ["/usr/bin/python3"; "-m"; "pip"; "install";
                             "--force-reinstall"; "--no-cache-dir"; "bar"; "foo"];
                 log_title := "Reinstalling Damaged Packages Log";
                 on_complete_extra := rescan_damaged;
                 packages_to_clear_from_outdated := [] |})
    as (names & Hcmd & Hsorted & _).
  - vm_compute. reflexivity.
  - exists names. split; [exact Hsorted|exact Hcmd].
Defined.

(** X16: installing from a requirements file starts nothing when the
    file holds only blank lines and comments, and nothing when the user
    answers no to the question that shows the lines of the file; when the
    user answers yes, the command is [install -r] with the path of the file
    and nothing else, whatever the file requires: the lines of the file are
    shown to the user but not passed to pip. *)
Theorem requirements_file_is_passed_by_path (askyesno : string → string → bool)
    (package_manager : pkg_manager) (read_lines : string → string + list string)
    (filepath : string) (self : app) (file_lines : list string) :
  read_lines filepath = inr file_lines →
  let r := (confirm_and_install_from_file askyesno package_manager read_lines
              filepath self).2 in
  let required := fun line =>
    PyStr.strip line ≠ "" ∧ PyStr.startswith "#" (PyStr.strip line) = false in
  let lines :=
    PyStr.strip
      <$> filter (fun line =>
                    (bool_decide (PyStr.strip line ≠ "")
                     && negb (PyStr.startswith "#" (PyStr.strip line))) = true)
            file_lines in
  let confirmed :=
    askyesno "Confirm Installation from File"
      (install_from_file_question filepath lines) in
  (Forall (fun line => ¬ required line) file_lines →
   r = MessageBox "Empty File"
         "The selected requirements file is empty or only contains comments.") ∧
  (Exists required file_lines → confirmed = false → r = Returned) ∧
  (Exists required file_lines → confirmed = true →
   r = Started
         {| command :=
              pip_prefix package_manager (current_interpreter self) "install"
              ++ ["-r"; filepath];
            log_title := "Installation from File Log";
            on_complete_extra := no_extra;
            packages_to_clear_from_outdated := [] |}) ∧
  (∀ run, r = Started run → Exists required file_lines ∧ confirmed = true).
Proof.
  intros Hread r required lines confirmed. subst r confirmed.
  unfold confirm_and_install_from_file. rewrite Hread.
  set (keep := fun line =>
         (bool_decide (PyStr.strip line ≠ "")
          && negb (PyStr.startswith "#" (PyStr.strip line))) = true) in *.
  assert (∀ line, keep line ↔ required line) as Hkeep.
  { intros line. subst keep required. cbv beta.
    rewrite andb_true_iff, bool_decide_eq_true, negb_true_iff. done. }
  fold lines.
  assert (lines = [] ↔ Forall (fun line => ¬ required line) file_lines) as Hempty.
  { subst lines. split.
    - intros Hnil. apply fmap_nil_inv in Hnil. apply Forall_forall.
      intros line Hin Hreq.
      assert (line ∈ filter keep file_lines) as Hf.
      { apply list_elem_of_filter. split; [by apply Hkeep|done]. }
      rewrite Hnil in Hf. by apply elem_of_nil in Hf.
    - intros Hall. rewrite (filter_none keep); [done|].
      apply Forall_forall. intros line Hin Hk.
      rewrite Forall_forall in Hall. apply (Hall line Hin). by apply Hkeep. }
  assert (Exists required file_lines → lines ≠ []) as Hsome.
  { intros Hex Hnil. apply Hempty in Hnil.
    apply Exists_exists in Hex as (line & Hin & Hreq).
    rewrite Forall_forall in Hnil. by apply (Hnil line Hin). }
  destruct lines as [|l0 ls] eqn:Hlines.
  - split; [done|]. split; [by intros Hex%Hsome|]. split; [by intros Hex%Hsome|].
    done.
  - assert (Exists required file_lines) as Hex.
    { destruct (decide (Exists required file_lines)) as [?|Hno]; [done|].
      exfalso. apply not_Exists_Forall in Hno; [|intros x; apply _].
      by apply Hempty in Hno. }
    assert ((_pip_action askyesno package_manager "install" [] "Installation from File"
               "" false ["-r"; filepath] no_extra [] self).2
            = Started
                {| command :=
                     pip_prefix package_manager (current_interpreter self) "install"
                     ++ ["-r"; filepath];
                   log_title := "Installation from File Log";
                   on_complete_extra := no_extra;
                   packages_to_clear_from_outdated := [] |}) as Hstart.
    { rewrite _pip_action_started by (right; split; [done|apply list_elem_of_here]).
      f_equal. f_equal. destruct package_manager; [|done]. by rewrite app_nil_r. }
    split; [|split; [|split]].
    + intros Hall. apply Hempty in Hall. done.
    + intros _ Hno. by rewrite Hno.
    + intros _ Hyes. by rewrite Hyes.
    + intros run. destruct (askyesno _ _); [done|]. done.
Qed.

Lemma requirements_file_is_passed_by_path_witness :
  (confirm_and_install_from_file always_yes pip sample_read_lines
     "/tmp/requirements.txt" sample_app).2
  = Started
      {| command := ["/usr/bin/python3"; "-m"; "pip"; "install"; "-r";
                     "/tmp/requirements.txt"];
         log_title := "Installation from File Log";
         on_complete_extra := no_extra;
         packages_to_clear_from_outdated := [] |}.
Proof.
  destruct (requirements_file_is_passed_by_path always_yes pip sample_read_lines
              "/tmp/requirements.txt" sample_app
              [ "# tools" +:+ PyStr.nl; PyStr.nl; "requests>=2" +:+ PyStr.nl;
                "  flask  " ] eq_refl) as (_ & _ & Hgo & _).
  apply Hgo.
  - apply Exists_cons_tl, Exists_cons_tl, Exists_cons_hd.
    split; [vm_compute; discriminate|vm_compute; reflexivity].
  - reflexivity.
Defined.

(** X17: the packages the orphans tool uninstalls, when they are rows of
    the list the tool has just computed, are installed packages that are no
    key of the reverse index and none of pip, setuptools and wheel; the
    command uninstalls the selected names, all of them and in their order,
    without a further question of pip. *)
Theorem orphan_uninstall_spares_essentials (askyesno : string → string → bool)
    (package_manager : pkg_manager) (selected : list string) (self : app)
    (run : pip_run) :
  all_packages self ≠ [] →
  (∀ n, n ∈ selected →
        n ∈ name <$> orphaned_packages_cache (find_orphaned_packages self)) →
  (uninstall_selected_orphans askyesno package_manager selected
     (find_orphaned_packages self)).2 = Started run →
  command run =
    pip_prefix package_manager (current_interpreter self) "uninstall"
    ++ (match package_manager with pip => ["--yes"] | uv _ => [] end)
    ++ selected ∧
  on_complete_extra run = on_uninstall_complete ∧
  ∀ n, n ∈ selected →
       n ∈ name <$> all_packages self ∧ (n ∉ dom (reverse_deps self)) ∧
       n ≠ "pip" ∧ n ≠ "setuptools" ∧ n ≠ "wheel".
Proof.
  intros Hloaded Hrows Hrun. split; [|split].
  - unfold uninstall_selected_orphans in Hrun.
    destruct selected as [|s0 ss]; [done|].
    destruct (askyesno _ _); [|done].
    rewrite _pip_action_started in Hrun by (by left).
    injection Hrun as <-. cbn [command].
    assert (current_interpreter (find_orphaned_packages self)
            = current_interpreter self) as ->.
    { unfold find_orphaned_packages. by destruct (all_packages self). }
    by destruct package_manager.
  - unfold uninstall_selected_orphans in Hrun.
    destruct selected as [|s0 ss]; [done|].
    destruct (askyesno _ _); [|done].
    rewrite _pip_action_started in Hrun by (by left).
    by injection Hrun as <-.
  - intros n Hn. specialize (Hrows n Hn).
    unfold find_orphaned_packages in Hrows.
    destruct (all_packages self) as [|p ps] eqn:Hp; [done|].
    cbn [orphaned_packages_cache set_orphaned_packages_cache] in Hrows.
    rewrite <- Hp in *. clear Hp.
    apply list_elem_of_fmap in Hrows as (q & -> & Hq).
    unfold orphaned_packages in Hq. rewrite sorted_by_perm in Hq.
    apply list_elem_of_filter in Hq as [Horphan Hq].
    apply elem_of_orphan_names in Horphan as (_ & Hnone & Hess).
    rewrite elem_of_essential_packages in Hess.
    split; [apply list_elem_of_fmap; by exists q|].
    split; [by apply not_elem_of_dom|].
    repeat split; intros Heq; apply Hess; tauto.
Qed.

Lemma orphan_uninstall_spares_essentials_witness :
  command
    {| command := ["/usr/bin/python3"; "-m"; "pip"; "uninstall"; "--yes"; "app"];
       log_title := "Uninstalling Orphaned Packages Log";
       on_complete_extra := on_uninstall_complete;
       packages_to_clear_from_outdated := [] |}
  = ["/usr/bin/python3"; "-m"; "pip"; "uninstall"] ++ ["--yes"] ++ ["app"] ∧
  "app" ≠ "pip".
Proof.
  destruct (orphan_uninstall_spares_essentials always_yes pip ["app"] sample_app
              {| command := ["/usr/bin/python3"; "-m"; "pip"; "uninstall"; "--yes"; "app"];
                 log_title := "Uninstalling Orphaned Packages Log";
                 on_complete_extra := on_uninstall_complete;
                 packages_to_clear_from_outdated := [] |})
    as (Hcmd & _ & Hnames).
  - discriminate.
  - intros n Hn. apply list_elem_of_singleton in Hn as ->. vm_compute.
    apply list_elem_of_here.
  - vm_compute. reflexivity.
  - split; [exact Hcmd|].
    destruct (Hnames "app") as (_ & _ & Hpip & _); [apply list_elem_of_here|exact Hpip].
Defined.

(** ** Vulnerability scan *)

Lemma dict_get_dict_append {V : Type} k (v : V) d k' :
  dict_get (dict_append k v d) k' =
  if bool_decide (k = k') then Some (default [] (dict_get d k) ++ [v])
  else dict_get d k'.
Proof.
  induction d as [|[k0 vs] d IH]; simpl.
  - by destruct (bool_decide (k = k')).
  - destruct (decide (k0 = k)) as [->|Hne].
    + rewrite (bool_decide_eq_true_2 (k = k)) by done. simpl.
      by destruct (bool_decide (k = k')).
    + rewrite (bool_decide_eq_false_2 (k0 = k)) by done. simpl. rewrite IH.
      destruct (decide (k0 = k')) as [->|Hne'].
      * rewrite (bool_decide_eq_true_2 (k' = k')) by done.
        by rewrite (bool_decide_eq_false_2 (k = k')) by done.
      * by rewrite (bool_decide_eq_false_2 (k0 = k')) by done.
Qed.

Lemma dict_get_is_Some {V : Type} (d : list (string * V)) k :
  k ∈ d.*1 ↔ is_Some (dict_get d k).
Proof.
  induction d as [|[k0 v0] d IH]; simpl.
  - rewrite elem_of_nil. split; [done|]. by intros [? ?].
  - rewrite elem_of_cons. case_bool_decide as Hk.
    + split; [by eauto|]. intros _. by left.
    + rewrite <- IH. split; [|tauto]. intros [?|?]; [congruence|done].
Qed.

Lemma dict_get_append_all {V : Type} k (vs : list V) d k' :
  dict_get (fold_left (fun d v => dict_append k v d) vs d) k' =
  if bool_decide (k = k')
  then match vs with
       | [] => dict_get d k'
       | _ :: _ => Some (default [] (dict_get d k) ++ vs)
       end
  else dict_get d k'.
Proof.
  revert d. induction vs as [|v vs IH]; intros d; simpl.
  - by destruct (bool_decide (k = k')).
  - rewrite IH, !dict_get_dict_append.
    rewrite (bool_decide_eq_true_2 (k = k)) by done.
    case_bool_decide; [|done]. simpl. rewrite <- app_assoc.
    by destruct vs.
Qed.

Lemma rows_after_append {B : Type} (g : string → vuln → B) k v d :
  length (flat_map (fun e : string * list vuln => g e.1 <$> e.2) (dict_append k v d))
  = S (length (flat_map (fun e : string * list vuln => g e.1 <$> e.2) d)).
Proof.
  induction d as [|[k0 vs] d IH]; simpl; [done|].
  case_bool_decide; simpl.
  - rewrite !length_app, !length_fmap, length_app. simpl. lia.
  - rewrite !length_app, IH. lia.
Qed.

Lemma rows_after_append_all {B : Type} (g : string → vuln → B) k vs d :
  length (flat_map (fun e : string * list vuln => g e.1 <$> e.2)
            (fold_left (fun d v => dict_append k v d) vs d))
  = length (flat_map (fun e : string * list vuln => g e.1 <$> e.2) d) + length vs.
Proof.
  revert d. induction vs as [|v vs IH]; intros d; simpl; [lia|].
  rewrite IH, rows_after_append. lia.
Qed.

(** One round of the loop over the dependencies of the report. *)
Lemma vulns_step_spec {B : Type} (g : string → vuln → B) dep d :
  let d' :=
    match dep_vulns dep with
    | Some (v :: vs) =>
        fold_left (fun d v => dict_append (PyStr.lower (dep_name dep)) v d)
          (v :: vs) d
    | _ => d
    end in
  (∀ k, dict_get d' k =
        match (if bool_decide (PyStr.lower (dep_name dep) = k)
               then default [] (dep_vulns dep) else []) with
        | [] => dict_get d k
        | x :: l => Some (default [] (dict_get d k) ++ x :: l)
        end) ∧
  length (flat_map (fun e : string * list vuln => g e.1 <$> e.2) d')
  = length (flat_map (fun e : string * list vuln => g e.1 <$> e.2) d)
    + length (default [] (dep_vulns dep)).
Proof.
  intros d'. subst d'. destruct (dep_vulns dep) as [[|v vs]|]; cbn [default].
  - split; [|simpl; lia]. intros k. by destruct (bool_decide _).
  - split; [|apply rows_after_append_all]. intros k.
    rewrite dict_get_append_all. case_bool_decide as Hk; [by subst k|done].
  - split; [|simpl; lia]. intros k. by destruct (bool_decide _).
Qed.

(** The dict the scan builds holds, under each lowercased name, the
    vulnerabilities reported under it, and has one row per vulnerability. *)
Lemma vulns_by_pkg_spec {B : Type} (g : string → vuln → B) dependencies :
  ∀ d,
    let step := fun vulns_by_pkg dep =>
      match dep_vulns dep with
      | Some (v :: vs) =>
          fold_left (fun d v => dict_append (PyStr.lower (dep_name dep)) v d)
            (v :: vs) vulns_by_pkg
      | _ => vulns_by_pkg
      end in
    (∀ k, dict_get (fold_left step dependencies d) k =
          match reported dependencies k with
          | [] => dict_get d k
          | x :: l => Some (default [] (dict_get d k) ++ x :: l)
          end) ∧
    length (flat_map (fun e : string * list vuln => g e.1 <$> e.2)
              (fold_left step dependencies d))
    = length (flat_map (fun e : string * list vuln => g e.1 <$> e.2) d)
      + length (flat_map (fun dep => default [] (dep_vulns dep)) dependencies).
Proof.
  induction dependencies as [|dep deps IH]; intros d step.
  - simpl. split; [done|lia].
  - cbn [fold_left]. destruct (IH (step d dep)) as [IH1 IH2]. fold step in IH1, IH2.
    destruct (vulns_step_spec g dep d) as [Hstep1 Hstep2]. fold (step d dep) in Hstep1, Hstep2.
    split.
    + intros k. rewrite IH1, Hstep1.
      change (reported (dep :: deps) k)
        with ((if bool_decide (PyStr.lower (dep_name dep) = k)
               then default [] (dep_vulns dep) else []) ++ reported deps k).
      destruct (if bool_decide (PyStr.lower (dep_name dep) = k)
                then default [] (dep_vulns dep) else []) as [|x l].
      * done.
      * rewrite <- app_comm_cons. destruct (reported deps k) as [|y r].
        -- by rewrite app_nil_r.
        -- simpl. by rewrite <- app_assoc.
    + rewrite IH2, Hstep2. cbn [flat_map]. rewrite length_app. lia.
Qed.

(** X18: when pip-audit prints a report, the vulnerabilities are filed
    under the lowercased names of the dependencies; if a dependency named
    [error], in any letter case, has a vulnerability, the whole scan is
    reported as failed and nothing is shown; otherwise the cache holds under
    every name the vulnerabilities reported for it, in the order of the
    report, the tree has one row for each vulnerability of the report, and a
    package gets the [vulnerable] tag in the package list exactly when a
    vulnerability is reported for a dependency whose name is that of the
    package up to letter case. *)
Theorem vulnerability_report_is_filed_by_name (w : audit_world) (self : app)
    (result_proc : completed) (dependencies : list audit_dep) :
  aw_pip_audit w = inr result_proc →
  stdout result_proc ≠ "" →
  aw_dependencies w (stdout result_proc) = inr dependencies →
  let r := (_on_vulnerability_scan_complete (_run_vulnerability_scan_task w) self).2 in
  (reported dependencies "error" ≠ [] →
   vulnerabilities_cache r = [] ∧ vuln_tree r = [] ∧
   vuln_status_label r = "Scan failed. See console for details.") ∧
  (reported dependencies "error" = [] →
   (∀ k, default [] (dict_get (vulnerabilities_cache r) k) = reported dependencies k) ∧
   (∀ k, k ∈ (vulnerabilities_cache r).*1 ↔ reported dependencies k ≠ []) ∧
   length (vuln_tree r)
   = length (flat_map (fun dep => default [] (dep_vulns dep)) dependencies) ∧
   ∀ format_size format_date outdated_packages pkg,
     "vulnerable" ∈ tags (package_row format_size format_date outdated_packages
                            (vulnerabilities_cache r) pkg)
     ↔ reported dependencies (PyStr.lower (name pkg)) ≠ []).
Proof.
  intros Hrun Hout Hdeps r. subst r.
  unfold _run_vulnerability_scan_task. rewrite Hrun.
  rewrite (bool_decide_eq_false_2 (stdout result_proc = "")) by done.
  rewrite Hdeps.
  destruct (vulns_by_pkg_spec (vuln_row (all_packages (_update_ui_state false self)))
              dependencies []) as [Hget Hlen].
  cbv zeta in Hget, Hlen.
  set (d := fold_left _ dependencies []) in *.
  assert (∀ k, default [] (dict_get d k) = reported dependencies k) as Hcache.
  { intros k. rewrite Hget. by destruct (reported dependencies k). }
  assert (∀ k, k ∈ d.*1 ↔ reported dependencies k ≠ []) as Hkeys.
  { intros k. rewrite dict_get_is_Some, Hget.
    destruct (reported dependencies k); simpl.
    - split; [by intros [? ?]|done].
    - split; [done|by eauto]. }
  unfold _on_vulnerability_scan_complete. cbn [has_error_key].
  split.
  - intros Herr. rewrite bool_decide_eq_true_2 by (by apply Hkeys). done.
  - intros Herr. rewrite bool_decide_eq_false_2 by (intros Hin; by apply Hkeys in Hin).
    cbn [snd vulnerabilities_cache vuln_tree].
    split; [exact Hcache|]. split; [exact Hkeys|]. split; [by rewrite Hlen|].
    intros format_size format_date outdated_packages pkg.
    unfold package_row. cbn [tags]. rewrite <- Hkeys.
    case_bool_decide as Hin.
    + split; [done|]. intros _. apply elem_of_app. right. apply list_elem_of_here.
    + split; [|done]. intros Hv. exfalso.
      destruct (_is_package_outdated outdated_packages (name pkg)).
      * apply list_elem_of_singleton in Hv. done.
      * by apply elem_of_nil in Hv.
Qed.

Lemma vulnerability_report_is_filed_by_name_witness :
  vuln_status_label
    (_on_vulnerability_scan_complete (_run_vulnerability_scan_task sample_audit_world)
       sample_app).2
  = "Scan failed. See console for details.".
Proof.
  destruct (vulnerability_report_is_filed_by_name sample_audit_world sample_app
              {| returncode := 1; stdout := "{...}"; stderr := "" |}
              [ {| dep_name := "lib"; dep_vulns := Some [sample_vuln] |};
                {| dep_name := "Error"; dep_vulns := Some [sample_vuln] |};
                {| dep_name := "util"; dep_vulns := Some [] |} ]
              eq_refl) as [Hfail _].
  - discriminate.
  - reflexivity.
  - destruct Hfail as (_ & _ & Hlabel); [vm_compute; discriminate|exact Hlabel].
Defined.

(** A report without such a name: one row for each vulnerability. *)
Example sample_vulnerability_rows :
  let w :=
    {| aw_pip_audit := inr {| returncode := 1; stdout := "{...}"; stderr := "" |};
       aw_dependencies := fun _ =>
         inr [ {| dep_name := "Lib"; dep_vulns := Some [sample_vuln; sample_vuln] |};
               {| dep_name := "other"; dep_vulns := None |} ] |} in
  let r := (_on_vulnerability_scan_complete (_run_vulnerability_scan_task w)
              sample_app).2 in
  vuln_tree r
  = [ ["lib"; "1.0"; "PYSEC-1"; "N/A"; "2.0, 2.1"];
      ["lib"; "1.0"; "PYSEC-1"; "N/A"; "2.0, 2.1"] ] ∧
  vuln_status_label r = "Scan complete. Found 2 vulnerabilit(y/ies).".
Proof. by vm_compute. Qed.

(** ** Sorting the package tree *)

Section ColumnSort.

Context (P : packaging_lib).

Lemma insert_key_num {A : Type} (x : column_key (Version P) * A) l :
  (∃ n, x.1 = ColNum n) → Forall (fun p => ∃ n, p.1 = ColNum n) l →
  ∃ r, insert_key (column_key_lt P) x l = Ok r ∧ r ≡ₚ x :: l.
Proof.
  intros [n Hx] Hl. apply insert_key_ok. intros y Hy.
  rewrite Forall_forall in Hl. destruct (Hl y Hy) as [m Hm].
  rewrite Hx, Hm. simpl. eauto.
Qed.

(** Once a row is in place, a key [None] met later stops the sort. *)
Lemma date_loop_raises {A : Type} (data acc : list (column_key (Version P) * A)) :
  Forall (fun p => p.1 = ColNone ∨ ∃ n, p.1 = ColNum n) data →
  Forall (fun p => ∃ n, p.1 = ColNum n) acc → acc ≠ [] →
  Exists (fun p => p.1 = ColNone) data →
  for_each (fun acc x => insert_key (column_key_lt P) x acc) data acc
  = Raise TypeError.
Proof.
  revert acc. induction data as [|x data IH]; intros acc Hd Hacc Hne Hex.
  - by apply Exists_nil in Hex.
  - apply Forall_cons in Hd as [Hx Hd]. simpl.
    destruct Hx as [Hx|[n Hx]].
    + destruct acc as [|y acc]; [done|]. simpl. rewrite Hx. by destruct (y.1).
    + destruct (insert_key_num x acc) as (r & -> & Hr); [by eauto|done|].
      simpl. apply IH; [done| | |].
      * rewrite Hr. constructor; eauto.
      * intros ->. by apply Permutation_nil_cons in Hr.
      * apply Exists_cons in Hex as [Hex|Hex]; [congruence|done].
Qed.

Lemma date_loop_spec {A : Type} (data : list (column_key (Version P) * A)) :
  Forall (fun p => p.1 = ColNone ∨ ∃ n, p.1 = ColNum n) data →
  (2 ≤ length data ∧ Exists (fun p => p.1 = ColNone) data →
   for_each (fun acc x => insert_key (column_key_lt P) x acc) data []
   = Raise TypeError) ∧
  (¬ (2 ≤ length data ∧ Exists (fun p => p.1 = ColNone) data) →
   ∃ r, for_each (fun acc x => insert_key (column_key_lt P) x acc) data [] = Ok r ∧
        r ≡ₚ data).
Proof.
  intros Hd. split.
  - intros [Hlen Hex]. destruct data as [|x [|y data]]; simpl in Hlen; [lia|lia|].
    apply Forall_cons in Hd as [Hx Hd].
    assert (for_each (fun acc x => insert_key (column_key_lt P) x acc)
              (x :: y :: data) []
            = for_each (fun acc x => insert_key (column_key_lt P) x acc)
                (y :: data) [x]) as -> by done.
    destruct Hx as [Hx|[n Hx]].
    + apply Forall_cons in Hd as [Hy _]. simpl. rewrite Hx.
      by destruct Hy as [->|[m ->]].
    + apply date_loop_raises; [done| |done|].
      * apply Forall_singleton. eauto.
      * apply Exists_cons in Hex as [Hex|Hex]; [congruence|done].
  - intros Hno. destruct (decide (2 ≤ length data)) as [Hlen|Hlen].
    + assert (Forall (fun p : column_key (Version P) * A => ∃ n, p.1 = ColNum n) data)
        as Hnum.
      { apply Forall_forall. intros p Hp. rewrite Forall_forall in Hd.
        destruct (Hd p Hp) as [Hnone|?]; [|done].
        exfalso. apply Hno. split; [done|]. apply Exists_exists. eauto. }
      destruct (insertion_loop_ok (column_key_lt P) data []) as (r & Hr & Hperm).
      { intros x y. rewrite !app_nil_r. intros Hx Hy.
        rewrite Forall_forall in Hnum.
        destruct (Hnum x Hx) as [n ->]. destruct (Hnum y Hy) as [m ->].
        simpl. eauto. }
      eauto.
    + destruct data as [|x [|y data]]; simpl in Hlen; [| |lia].
      * by exists [].
      * by exists [x].
Qed.

Lemma date_list_sort {A : Type} reverse (data : list (column_key (Version P) * A)) :
  Forall (fun p => p.1 = ColNone ∨ ∃ n, p.1 = ColNum n) data →
  (2 ≤ length data ∧ Exists (fun p => p.1 = ColNone) data →
   list_sort (column_key_lt P) reverse data = Raise TypeError) ∧
  (¬ (2 ≤ length data ∧ Exists (fun p => p.1 = ColNone) data) →
   ∃ r, list_sort (column_key_lt P) reverse data = Ok r ∧ r ≡ₚ data).
Proof.
  intros Hd. unfold list_sort. destruct reverse; [|by apply date_loop_spec].
  destruct (date_loop_spec (rev data)) as [Hraise Hok].
  { apply Forall_forall. intros p Hp. rewrite <- Permutation_rev in Hp.
    rewrite Forall_forall in Hd. by apply Hd. }
  assert (2 ≤ length (rev data) ∧ Exists (fun p => p.1 = ColNone) (rev data)
          ↔ 2 ≤ length data ∧ Exists (fun p => p.1 = ColNone) data) as Hiff.
  { rewrite length_rev, !Exists_exists.
    split; intros [? (p & Hp & ?)]; (split; [done|]); exists p; split; try done.
    - by rewrite <- Permutation_rev in Hp.
    - by rewrite <- Permutation_rev. }
  split.
  - intros H. by rewrite Hraise by (by apply Hiff).
  - intros H. destruct Hok as (r & -> & Hr); [by rewrite Hiff|].
    simpl. exists (rev r). split; [done|].
    by rewrite <- Permutation_rev, Hr, <- Permutation_rev.
Qed.

Lemma date_key_spec (all_packages : list pkg_info) (item : tree_item) :
  let k : column_key (Version P) :=
    PyList.next_or (fun p => bool_decide (name p = iid item))
      (fun p => match install_date_ts p with
                | Some t => ColNum t
                | None => ColNone
                end)
      (ColNum 0) all_packages in
  (k = ColNone ↔ lacks_install_date all_packages item = true) ∧
  (k = ColNone ∨ ∃ n, k = ColNum n).
Proof.
  unfold lacks_install_date.
  induction all_packages as [|p l IH]; simpl.
  - split; [done|]. right. eauto.
  - destruct (bool_decide (name p = iid item)); [|done].
    destruct (install_date_ts p) as [t|].
    + split; [|right; eauto]. rewrite bool_decide_eq_false_2 by done. done.
    + split; [|by left]. by rewrite bool_decide_eq_true_2.
Qed.

End ColumnSort.

(** X19: sorting the package tree by the Date column raises [TypeError]
    exactly when the tree has two rows or
    more and one of them stands for a package without install date;
    otherwise the rows are reordered and the column noted as the one sorted
    last. *)
Theorem date_sort_needs_install_dates (P : packaging_lib)
    (PACKAGING_AVAILABLE : bool) (all_packages : list pkg_info) (reverse : bool)
    (tab : manage_tab) :
  let undated :=
    2 ≤ length (tree tab) ∧
    ∃ item, item ∈ tree tab ∧ lacks_install_date all_packages item = true in
  (undated →
   _sort_column P PACKAGING_AVAILABLE all_packages Date_col reverse tab
   = Raise TypeError) ∧
  (¬ undated →
   ∃ tab',
     _sort_column P PACKAGING_AVAILABLE all_packages Date_col reverse tab = Ok tab' ∧
     tree tab' ≡ₚ tree tab ∧
     last_sort_column tab' = Date_col ∧ last_sort_reverse tab' = reverse).
Proof.
  intros undated. subst undated. unfold _sort_column.
  set (key := fun item : tree_item =>
         PyList.next_or (fun p => bool_decide (name p = iid item))
           (fun p => match install_date_ts p with
                     | Some t => ColNum t
                     | None => ColNone
                     end)
           (ColNum 0) all_packages : column_key (Version P)).
  rewrite (map_res_ok _ (fun child => (key child, child))) by done.
  cbn [res_bind].
  destruct (date_list_sort P reverse ((fun child => (key child, child)) <$> tree tab))
    as [Hraise Hok].
  { apply Forall_fmap, Forall_forall. intros item _. cbn [fst].
    apply (date_key_spec P all_packages item). }
  assert (2 ≤ length ((fun child => (key child, child)) <$> tree tab) ∧
          Exists (fun p => p.1 = ColNone) ((fun child => (key child, child)) <$> tree tab)
          ↔ 2 ≤ length (tree tab) ∧
            ∃ item, item ∈ tree tab ∧ lacks_install_date all_packages item = true)
    as Hiff.
  { rewrite length_fmap, Exists_fmap, Exists_exists.
    split; intros [? (item & Hin & Hk)]; (split; [done|]); exists item; split; try done.
    - by apply (date_key_spec P all_packages item).
    - by apply (date_key_spec P all_packages item). }
  split.
  - intros H. by rewrite Hraise by (by apply Hiff).
  - intros H. destruct Hok as (r & -> & Hr); [by rewrite Hiff|].
    cbn [res_bind]. eexists. split; [done|]. cbn [tree last_sort_column last_sort_reverse].
    split; [|done]. rewrite Hr, <- list_fmap_compose. by rewrite list_fmap_id.
Qed.
Lemma fmap_rev {A B : Type} (f : A → B) (l : list A) : f <$> rev l = rev (f <$> l).
Proof.
  induction l as [|x l IH]; [done|]. cbn [rev]. rewrite fmap_app, IH. done.
Qed.

Lemma StronglySorted_snoc {A : Type} (R : A → A → Prop) l x :
  StronglySorted R l → Forall (fun y => R y x) l → StronglySorted R (l ++ [x]).
Proof.
  induction 1 as [|y l Hl IH Hy]; intros Hx; simpl.
  - constructor; constructor.
  - apply Forall_cons in Hx as [Hyx Hx]. constructor; [by apply IH|].
    apply Forall_app. split; [done|]. by apply Forall_singleton.
Qed.

Lemma StronglySorted_rev {A : Type} (R : A → A → Prop) l :
  StronglySorted R l → StronglySorted (flip R) (rev l).
Proof.
  induction 1 as [|x l Hl IH Hx]; [constructor|]. cbn [rev].
  apply StronglySorted_snoc; [done|].
  apply Forall_forall. intros y Hy. rewrite <- Permutation_rev in Hy.
  rewrite Forall_forall in Hx. by apply Hx.
Qed.

Section NameSort.

Context (P : packaging_lib) {A : Type} (key : A → string).

Lemma insert_key_name x l :
  insert_key (column_key_lt P) (ColStr (key x), x)
    ((fun a => (ColStr (key a), a)) <$> l)
  = Ok ((fun a => (ColStr (key a), a)) <$> insert_by key x l).
Proof.
  induction l as [|y l IH]; [done|]. rewrite fmap_cons.
  cbn [insert_key insert_by fst column_key_lt res_bind].
  destruct (String.ltb (key x) (key y)); [done|]. by rewrite IH.
Qed.

Lemma name_loop data acc :
  for_each (fun acc x => insert_key (column_key_lt P) x acc)
    ((fun a => (ColStr (key a), a)) <$> data)
    ((fun a => (ColStr (key a), a)) <$> acc)
  = Ok ((fun a => (ColStr (key a), a))
          <$> fold_left (fun acc x => insert_by key x acc) data acc).
Proof.
  revert acc. induction data as [|x data IH]; intros acc; [done|].
  rewrite fmap_cons. cbn [for_each fold_left]. rewrite insert_key_name.
  cbn [res_bind]. apply IH.
Qed.

(** On text keys the sort of the pairs is the stable sort by key. *)
Lemma name_list_sort reverse data :
  list_sort (column_key_lt P) reverse ((fun a => (ColStr (key a), a)) <$> data)
  = Ok ((fun a => (ColStr (key a), a))
          <$> (if reverse then rev (sorted_by key (rev data)) else sorted_by key data)).
Proof.
  unfold list_sort, sorted_by. destruct reverse.
  - rewrite <- fmap_rev. pose proof (name_loop (rev data) []) as H.
    rewrite fmap_nil in H. rewrite H. cbn [res_bind].
    by rewrite fmap_rev.
  - apply (name_loop data []).
Qed.

End NameSort.

Lemma name_sort_spec (P : packaging_lib) (PACKAGING_AVAILABLE : bool)
    (all_packages : list pkg_info) (reverse : bool) (tab : manage_tab) :
  let key := fun item => PyStr.lower (cell item Name_col) in
  _sort_column P PACKAGING_AVAILABLE all_packages Name_col reverse tab
  = Ok {| tree := if reverse then rev (sorted_by key (rev (tree tab)))
                  else sorted_by key (tree tab);
          search_var := search_var tab;
          show_outdated_var := show_outdated_var tab;
          last_sort_column := Name_col; last_sort_reverse := reverse |}.
Proof.
  intros key. unfold _sort_column.
  rewrite (map_res_ok _ (fun child => (ColStr (key child), child))) by done.
  cbn [res_bind]. rewrite (name_list_sort P key). cbn [res_bind].
  by rewrite <- list_fmap_compose, list_fmap_id.
Qed.

(** X20: sorting the package tree by the Name column never fails; the tree
    keeps its rows, in ascending order of the lowercased Name cell (in
    descending order when the sort is reversed), and rows with the same
    lowercased name keep their order in both directions. *)
Theorem name_sort_is_stable (P : packaging_lib) (PACKAGING_AVAILABLE : bool)
    (all_packages : list pkg_info) (reverse : bool) (tab : manage_tab) :
  let key := fun item => PyStr.lower (cell item Name_col) in
  ∃ tab',
    _sort_column P PACKAGING_AVAILABLE all_packages Name_col reverse tab = Ok tab' ∧
    tree tab' ≡ₚ tree tab ∧
    StronglySorted (if reverse then flip (key_le key) else key_le key) (tree tab') ∧
    (∀ k, filter (fun item => key item = k) (tree tab')
          = filter (fun item => key item = k) (tree tab)) ∧
    last_sort_column tab' = Name_col ∧ last_sort_reverse tab' = reverse.
Proof.
  intros key. rewrite name_sort_spec. fold key. eexists. split; [done|].
  cbn [tree last_sort_column last_sort_reverse].
  destruct reverse.
  - destruct (sorted_by_spec key (rev (tree tab))) as (Hperm & Hsorted & Hstable).
    split; [by rewrite <- Permutation_rev, Hperm, <- Permutation_rev|].
    split; [by apply StronglySorted_rev|]. split; [|done].
    intros k. by rewrite filter_rev, Hstable, filter_rev, rev_involutive.
  - destruct (sorted_by_spec key (tree tab)) as (Hperm & Hsorted & Hstable).
    done.
Qed.

(** ** Filling the package tree *)

Section PopulateTree.

Variable format_size : N → string.
Variable format_date : option N → string.
Variable outdated_packages : list (string * outdated_info).
Variable vulnerabilities_cache : list (string * list vuln).



End PopulateTree.


(** ** The search box *)





(** ** The interpreter list *)

Lemma unique_go_id l :
  ∀ seen : gset string,
    NoDup l → (∀ x, x ∈ l → x ∉ seen) → PyList.unique_go seen l = l.
Proof.
  induction l as [|y l IH]; intros seen Hnd Hseen; simpl; [done|].
  apply NoDup_cons in Hnd as [Hy Hnd].
  rewrite bool_decide_eq_false_2 by apply Hseen, list_elem_of_here.
  f_equal. apply IH; [done|]. intros x Hx.
  rewrite elem_of_union, elem_of_singleton. intros [->|Hin]; [done|].
  by apply (Hseen x); [apply list_elem_of_further|].
Qed.

Lemma filter_all {A : Type} (Q : A → Prop) `{!∀ x, Decision (Q x)} (l : list A) :
  Forall Q l → filter Q l = l.
Proof.
  induction 1 as [|x l Hx _ IH]; [done|].
  rewrite filter_cons. destruct (decide (Q x)); [|done]. by rewrite IH.
Qed.

Lemma filter_ext_elem {A : Type} (Q R : A → Prop) `{!∀ x, Decision (Q x)}
    `{!∀ x, Decision (R x)} (l : list A) :
  (∀ x, x ∈ l → (Q x ↔ R x)) → filter Q l = filter R l.
Proof.
  induction l as [|x l IH]; intros Hext; [done|].
  rewrite !filter_cons.
  pose proof (Hext x (list_elem_of_here _ _)) as Hx.
  rewrite IH by (intros y Hy; by apply Hext, list_elem_of_further).
  destruct (decide (Q x)), (decide (R x)); tauto.
Qed.

(** Settings whose list of interpreters is in the form [load] gives are
    read back as they were written. *)
Lemma load_save_normalised (sys_executable : string) (s : settings)
    (rest : list string) :
  interpreters s = sys_executable :: rest → NoDup (sys_executable :: rest) →
  SettingsManager.load sys_executable (SettingsManager.save s) = Ok s.
Proof.
  intros Hi Hnd. unfold SettingsManager.load, SettingsManager.save.
  unfold SettingsManager.setdefaults.
  cbn [j_auto_check_updates j_cache_expiry_hours j_interpreters default
       from_option auto_check_updates cache_expiry_hours interpreters id].
  rewrite Hi.
  rewrite bool_decide_eq_false_2 by (intros H; apply H, list_elem_of_here).
  rewrite unique_go_id by (done || intros; apply not_elem_of_empty).
  rewrite bool_sort_reverse. cbn [res_bind]. rewrite fmap_app, !filter_fmap_key.
  apply NoDup_cons in Hnd as [Hsys Hnd].
  rewrite !filter_cons.
  destruct (decide (bool_decide (sys_executable = sys_executable) = true)) as [_|Hf];
    [|by rewrite bool_decide_eq_true_2 in Hf].
  destruct (decide (bool_decide (sys_executable = sys_executable) = false)) as [Hf|_];
    [by rewrite bool_decide_eq_true_2 in Hf|].
  rewrite (filter_none (fun y => bool_decide (y = sys_executable) = true) rest).
  - rewrite (filter_all (fun y => bool_decide (y = sys_executable) = false) rest).
    + destruct s. simpl in *. by subst.
    + apply Forall_forall. intros y Hy. apply bool_decide_eq_false_2.
      intros ->. done.
  - apply Forall_forall. intros y Hy. rewrite bool_decide_eq_true. intros ->. done.
Qed.

Lemma remove_spec (x : string) (l : list string) :
  NoDup l →
  NoDup (PyList.remove x l) ∧ ∀ y, y ∈ PyList.remove x l ↔ y ∈ l ∧ y ≠ x.
Proof.
  induction 1 as [|z l Hz Hl IH]; simpl.
  - split; [apply NoDup_nil_2|]. intros y. rewrite elem_of_nil. tauto.
  - destruct IH as [IH1 IH2]. case_bool_decide as Hzx.
    + subst z. split; [done|]. intros y. rewrite elem_of_cons.
      split; [|tauto]. intros Hy. split; [tauto|]. by intros ->.
    + split.
      * apply NoDup_cons. split; [|done]. rewrite IH2. tauto.
      * intros y. rewrite !elem_of_cons, IH2.
        split; [intros [->|[? ?]]; tauto|tauto].
Qed.

(** X24: removing an interpreter does nothing when none is selected, when
    the selected one runs the application, which is refused with a message,
    or when the user declines.  Otherwise the selected interpreter leaves
    the list, which still starts with the interpreter running the
    application and names none twice; the box shows the interpreter in
    use, even when that is the one removed; and the settings file written
    is read back as the settings in memory. *)
Theorem remove_keeps_running_interpreter (sys_executable : string)
    (askyesno : string → string → bool) (self : app) (bar : interpreter_bar)
    (rest : list string) :
  interpreter_combo bar = sys_executable :: rest →
  NoDup (sys_executable :: rest) →
  let selected := interpreter_var bar in
  let confirmed := askyesno "Confirm Removal" (removal_question selected) in
  let r := _remove_interpreter sys_executable askyesno self bar in
  (selected = "" ∨ selected = sys_executable ∨ confirmed = false → r.1 = bar) ∧
  (selected = sys_executable → selected ≠ "" → is_Some r.2) ∧
  (selected ≠ "" → selected ≠ sys_executable → confirmed = true →
   ∃ rest',
     interpreter_combo r.1 = sys_executable :: rest' ∧
     NoDup (sys_executable :: rest') ∧
     (∀ x, x ∈ rest' ↔ x ∈ rest ∧ x ≠ selected) ∧
     interpreter_var r.1 = current_interpreter self ∧
     remove_interpreter_btn r.1
     = negb (bool_decide (current_interpreter self = sys_executable)) ∧
     interpreters (settings_dict r.1) = interpreter_combo r.1 ∧
     SettingsManager.load sys_executable (settings_file r.1) = Ok (settings_dict r.1)).
Proof.
  intros Hcombo Hnd selected confirmed r. subst r. unfold _remove_interpreter.
  fold selected. fold confirmed.
  split; [|split].
  - intros [Hsel|[Hsel|Hno]].
    + by rewrite (bool_decide_eq_true_2 (selected = "")).
    + case_bool_decide; [done|]. by rewrite (bool_decide_eq_true_2 _ Hsel).
    + case_bool_decide; [done|]. case_bool_decide; [done|]. by rewrite Hno.
  - intros Hsel Hne. rewrite (bool_decide_eq_false_2 _ Hne).
    rewrite (bool_decide_eq_true_2 _ Hsel). simpl. eauto.
  - intros Hne Hsys Hyes.
    rewrite (bool_decide_eq_false_2 _ Hne), (bool_decide_eq_false_2 _ Hsys), Hyes.
    cbn [fst set_interpreter_combo interpreter_var].
    rewrite (bool_decide_eq_true_2 (selected = selected)) by done.
    rewrite Hcombo.
    set (rest' := if bool_decide (selected ∈ rest) then PyList.remove selected rest
                  else rest).
    assert ((if bool_decide (selected ∈ sys_executable :: rest)
             then PyList.remove selected (sys_executable :: rest)
             else sys_executable :: rest) = sys_executable :: rest') as ->.
    { subst rest'. cbn [PyList.remove].
      rewrite (bool_decide_eq_false_2 (sys_executable = selected)) by done.
      destruct (decide (selected ∈ rest)) as [Hin|Hnin].
      - rewrite (bool_decide_eq_true_2 (selected ∈ rest)) by done.
        rewrite bool_decide_eq_true_2; [done|]. by apply list_elem_of_further.
      - rewrite (bool_decide_eq_false_2 (selected ∈ rest)) by done.
        rewrite bool_decide_eq_false_2; [done|].
        rewrite elem_of_cons. intros [?|?]; done. }
    apply NoDup_cons in Hnd as [Hsysrest Hrest].
    assert (NoDup rest' ∧ ∀ x, x ∈ rest' ↔ x ∈ rest ∧ x ≠ selected) as [Hnd' Hin'].
    { subst rest'. case_bool_decide as Hin; [by apply remove_spec|].
      split; [done|]. intros x. split; [|tauto]. intros Hx. split; [done|].
      by intros ->. }
    assert (NoDup (sys_executable :: rest')) as Hnd''.
    { apply NoDup_cons. split; [|done]. rewrite Hin'. tauto. }
    exists rest'. split; [done|]. split; [done|]. split; [done|].
    split; [done|]. split; [done|]. split; [done|].
    cbn. by apply (load_save_normalised sys_executable _ rest').
Qed.

Lemma remove_keeps_running_interpreter_witness :
  let r := _remove_interpreter "/usr/bin/python3" always_yes
             (set_current_interpreter "/opt/venv/bin/python" sample_app) sample_bar in
  interpreter_combo r.1 = ["/usr/bin/python3"] ∧
  interpreter_var r.1 = "/opt/venv/bin/python".
Proof.
  destruct (remove_keeps_running_interpreter "/usr/bin/python3" always_yes
              (set_current_interpreter "/opt/venv/bin/python" sample_app) sample_bar
              ["/opt/venv/bin/python"] eq_refl) as (_ & _ & Hremoved).
  - apply (bool_decide_unpack (NoDup ["/usr/bin/python3"; "/opt/venv/bin/python"])).
    vm_compute. exact I.
  - destruct Hremoved as (rest' & _ & _ & _ & Hvar & _).
    + vm_compute. discriminate.
    + vm_compute. discriminate.
    + reflexivity.
    + split; [reflexivity|exact Hvar].
Defined.

(** X25: the check of the interpreters at startup changes nothing when
    every listed interpreter exists or when the user declines the question,
    which lists the missing ones.  When the user accepts, the list keeps the
    interpreter running the application and the listed interpreters that
    exist, in their order; the interpreter in use becomes the one running
    the application if it was among the missing ones, while the package
    list and the scan stamp stay as they were; and the settings file
    written is read back as the settings in memory. *)
Theorem validation_keeps_existing_interpreters (sys_executable : string)
    (path_exists : string → bool) (askyesno : string → string → bool)
    (self : app) (bar : interpreter_bar) (rest : list string) :
  interpreters (settings_dict bar) = sys_executable :: rest →
  NoDup (sys_executable :: rest) →
  let missing := filter (fun p => path_exists p = false) rest in
  let accepted :=
    askyesno "Invalid Interpreters Found" (invalid_interpreters_message missing) in
  let r := _validate_interpreters_on_startup sys_executable path_exists askyesno
             self bar in
  (missing = [] ∨ accepted = false → r = (self, bar)) ∧
  (missing ≠ [] → accepted = true →
   interpreter_combo r.2
   = sys_executable :: filter (fun p => path_exists p = true) rest ∧
   interpreters (settings_dict r.2) = interpreter_combo r.2 ∧
   SettingsManager.load sys_executable (settings_file r.2) = Ok (settings_dict r.2) ∧
   current_interpreter r.1
   = (if bool_decide (current_interpreter self ∈ missing) then sys_executable
      else current_interpreter self) ∧
   interpreter_var r.2
   = (if bool_decide (current_interpreter self ∈ missing) then sys_executable
      else interpreter_var bar) ∧
   all_packages r.1 = all_packages self ∧
   current_scan_id r.1 = current_scan_id self).
Proof.
  intros Hi Hnd missing accepted r. subst r.
  unfold _validate_interpreters_on_startup. rewrite Hi.
  pose proof Hnd as Hnd0. apply NoDup_cons in Hnd0 as [Hsys Hrest].
  assert (filter (fun interp_path =>
                    (bool_decide (interp_path = sys_executable)
                     || path_exists interp_path) = true) (sys_executable :: rest)
          = sys_executable :: filter (fun p => path_exists p = true) rest) as ->.
  { rewrite filter_cons.
    destruct (decide _) as [_|Hf];
      [|by rewrite bool_decide_eq_true_2 in Hf].
    f_equal. apply filter_ext_elem. intros x Hx.
    rewrite bool_decide_eq_false_2; [done|]. by intros ->. }
  assert (filter (fun interp_path =>
                    (bool_decide (interp_path = sys_executable)
                     || path_exists interp_path) ≠ true) (sys_executable :: rest)
          = missing) as ->.
  { rewrite filter_cons.
    destruct (decide _) as [Hf|_];
      [by rewrite bool_decide_eq_true_2 in Hf|].
    apply filter_ext_elem. intros x Hx.
    rewrite bool_decide_eq_false_2 by (by intros ->). simpl.
    by destruct (path_exists x). }
  fold accepted. split.
  - intros [Hnone|Hno].
    + by rewrite Hnone.
    + destruct missing; [done|]. by rewrite Hno.
  - intros Hsome Hyes. destruct missing as [|m ms] eqn:Hmissing; [done|].
    rewrite Hyes.
    assert (NoDup (sys_executable :: filter (fun p => path_exists p = true) rest))
      as Hnd'.
    { apply NoDup_cons. split; [|by apply NoDup_filter].
      rewrite list_elem_of_filter. tauto. }
    destruct (bool_decide (current_interpreter self ∈ m :: ms)); cbn.
    + split; [done|]. split; [done|]. split; [|done].
      by apply (load_save_normalised sys_executable _
                  (filter (fun p => path_exists p = true) rest)).
    + split; [done|]. split; [done|]. split; [|done].
      by apply (load_save_normalised sys_executable _
                  (filter (fun p => path_exists p = true) rest)).
Qed.

Lemma validation_keeps_existing_interpreters_witness :
  let r := _validate_interpreters_on_startup "/usr/bin/python3"
             (fun p => bool_decide (p = "/usr/bin/python3")) always_yes
             (set_current_interpreter "/opt/venv/bin/python" sample_app)
             sample_bar in
  interpreter_combo r.2 = ["/usr/bin/python3"] ∧
  current_interpreter r.1 = "/usr/bin/python3".
Proof.
  destruct (validation_keeps_existing_interpreters "/usr/bin/python3"
              (fun p => bool_decide (p = "/usr/bin/python3")) always_yes
              (set_current_interpreter "/opt/venv/bin/python" sample_app)
              sample_bar ["/opt/venv/bin/python"] eq_refl) as [_ Hacc].
  - apply (bool_decide_unpack (NoDup ["/usr/bin/python3"; "/opt/venv/bin/python"])).
    vm_compute. exact I.
  - destruct Hacc as (Hcombo & _ & _ & Hcur & _).
    + vm_compute. discriminate.
    + reflexivity.
    + split; [exact Hcombo|exact Hcur].
Defined.

(** ** The completion callbacks with the refresh of the package tree *)

Section WithTreeFacts.

Context (P : packaging_lib).
Variable PACKAGING_AVAILABLE : bool.
Variable format_size : N → string.
Variable format_date : option N → string.
Variable vulnerabilities_cache : list (string * list vuln).




(** When the refresh returns, a callback leaves the application object as
    the statements without the refresh do. *)
Lemma _on_installed_loaded_returns result scan_id self tab tab' :
  let r := WithTree._on_installed_loaded P PACKAGING_AVAILABLE format_size
             format_date vulnerabilities_cache result scan_id self tab in
  r.2 = Ok tab' → r.1 = _on_installed_loaded result scan_id self.
Proof.
  unfold WithTree._on_installed_loaded, _on_installed_loaded.
  case_bool_decide; [done|]. by destruct (_filter_packages _ _ _ _ _ _ _).
Qed.

Lemma _on_packages_loaded_then_check_returns result scan_id self tab tab' :
  let r := WithTree._on_packages_loaded_then_check P PACKAGING_AVAILABLE format_size
             format_date vulnerabilities_cache result scan_id self tab in
  r.2 = Ok tab' → r.1 = _on_packages_loaded_then_check result scan_id self.
Proof.
  unfold WithTree._on_packages_loaded_then_check, _on_packages_loaded_then_check.
  case_bool_decide; [done|]. by destruct (_filter_packages _ _ _ _ _ _ _).
Qed.

Lemma _on_outdated_checked_returns outdated_map scan_id self tab tab' :
  let r := WithTree._on_outdated_checked P PACKAGING_AVAILABLE format_size
             format_date vulnerabilities_cache outdated_map scan_id self tab in
  r.2 = Ok tab' → r.1 = _on_outdated_checked outdated_map scan_id self.
Proof.
  unfold WithTree._on_outdated_checked, _on_outdated_checked.
  case_bool_decide; [done|]. by destruct (res_bind _ _).
Qed.

(** When the refresh raises, only the statements before it are run. *)
Lemma _on_installed_loaded_raises result scan_id self tab e :
  let r := WithTree._on_installed_loaded P PACKAGING_AVAILABLE format_size
             format_date vulnerabilities_cache result scan_id self tab in
  r.2 = Raise e → r.1 = store_scan_result result self.
Proof.
  unfold WithTree._on_installed_loaded.
  case_bool_decide; [done|]. by destruct (_filter_packages _ _ _ _ _ _ _).
Qed.

End WithTreeFacts.





(** With two packages of one name in the snapshot the callback is left by
    [TclError] and the status is not set. *)
Example duplicate_names_leave_status :
  let self := set_all_packages [sample_pkg "a" []; sample_pkg "a" []] sample_app in
  let after := WithTree._on_outdated_checked Packaging.lib true (fun _ => "0 B")
                 (fun _ => "N/A") [] [] 2 self sample_tab in
  after.2 = Raise (TclError "Item a already exists") ∧
  action_status after.1 = "" ∧ ui_busy after.1 = true.
Proof. by vm_compute. Qed.

(** ** The settings file, whatever it holds *)

Lemma filter_fmap_pair {A : Type} (f : A → bool) (v : bool) (l : list A) :
  snd <$> filter (fun p : bool * A => p.1 = v) ((fun y => (f y, y)) <$> l)
  = filter (fun y => f y = v) l.
Proof.
  induction l as [|y l IH]; [done|].
  rewrite fmap_cons, !filter_cons. cbn [fst].
  destruct (decide (f y = v)); [|done].
  rewrite fmap_cons. cbn [snd]. by rewrite IH.
Qed.

Lemma dict_set_same {V : Type} k (v : V) d :
  dict_get d k = Some v → dict_set k v d = d.
Proof.
  induction d as [|[k0 v0] d IH]; simpl; [done|].
  case_bool_decide as Hk.
  - intros [= ->]. by subst.
  - intros Hget. by rewrite IH.
Qed.

Lemma dict_set_keys {V : Type} k (v : V) d : k ∈ d.*1 → (dict_set k v d).*1 = d.*1.
Proof.
  intros Hk. destruct (dict_set_spec k v d) as [-> _].
  by rewrite bool_decide_eq_true_2.
Qed.

Section SettingsFileFacts.

Variable sys_executable : string.

Lemma dict_get_setdefault key value settings k :
  dict_get (SettingsFile.setdefault key value settings) k
  = match dict_get settings k with
    | Some v => Some v
    | None => if bool_decide (key = k) then Some value else None
    end.
Proof.
  unfold SettingsFile.setdefault. case_bool_decide as Hin.
  - destruct (dict_get settings k) as [v|] eqn:Hk; [done|].
    case_bool_decide as Heq; [|done]. subst k.
    apply dict_get_is_Some in Hin as [v Hv]. congruence.
  - induction settings as [|[k0 v0] settings IH]; simpl.
    + by destruct (bool_decide (key = k)).
    + rewrite fmap_cons in Hin. cbn [fst] in Hin.
      apply not_elem_of_cons in Hin as [Hne Hin].
      destruct (decide (k0 = k)) as [->|Hk].
      * by rewrite !(bool_decide_eq_true_2 (k = k)).
      * rewrite !(bool_decide_eq_false_2 (k0 = k)) by done. by apply IH.
Qed.

Lemma setdefault_keys key value settings k :
  k ∈ (SettingsFile.setdefault key value settings).*1 ↔ k = key ∨ k ∈ settings.*1.
Proof.
  unfold SettingsFile.setdefault. case_bool_decide as Hin.
  - split; [tauto|]. by intros [->|?].
  - rewrite fmap_app, elem_of_app. simpl. rewrite list_elem_of_singleton. tauto.
Qed.

Lemma setdefault_present key value settings :
  key ∈ settings.*1 → SettingsFile.setdefault key value settings = settings.
Proof. intros Hin. unfold SettingsFile.setdefault. by rewrite bool_decide_eq_true_2. Qed.

(** The value [load] finds under ["interpreters"]: that of the file, or
    the default. *)
Lemma read_interpreters file settings :
  SettingsFile.read sys_executable file = inr settings →
  dict_get settings "interpreters"
  = Some match file with
         | SettingsFile.Holds (JObject o) =>
             default (JArray [JString sys_executable]) (dict_get o "interpreters")
         | _ => JArray [JString sys_executable]
         end ∧
  (∀ k, k ∈ (SettingsFile.defaults sys_executable).*1 → k ∈ settings.*1).
Proof.
  unfold SettingsFile.read.
  assert (dict_get (SettingsFile.defaults sys_executable) "interpreters"
          = Some (JArray [JString sys_executable])) as Hd by done.
  destruct file as [|e|v].
  - by intros [= <-].
  - destruct (SettingsFile.caught e); [by intros [= <-]|done].
  - destruct v as [| | | | |o]; try done. intros [= <-]. cbn [fold_left SettingsFile.defaults fst snd].
    split.
    + rewrite !dict_get_setdefault.
      destruct (dict_get o "interpreters"); [done|].
      rewrite !(bool_decide_eq_false_2 (_ = "interpreters")) by done. done.
    + intros k Hk. rewrite !setdefault_keys.
      cbn in Hk. rewrite !elem_of_cons, elem_of_nil in Hk. tauto.
Qed.

(** *** The first occurrences *)

Lemma unique_unhashable l :
  ∀ seen, Exists (fun x => PyHash.of_json x = None) l →
          SettingsFile.unique seen l = inl SettingsFile.TypeError.
Proof.
  induction l as [|x l IH]; intros seen Hex; [by apply Exists_nil in Hex|].
  simpl. destruct (PyHash.of_json x) as [k|] eqn:Hk; [|done].
  apply Exists_cons in Hex as [Hx|Hex]; [congruence|].
  case_bool_decide; [by apply IH|]. by rewrite IH.
Qed.

Lemma unique_hashable l :
  ∀ seen, Forall (fun x => is_Some (PyHash.of_json x)) l →
    ∃ U, SettingsFile.unique seen l = inr U ∧
         U `sublist_of` l ∧
         NoDup (PyHash.of_json <$> U) ∧
         (∀ x, x ∈ U → ∀ k, PyHash.of_json x = Some k → k ∉ seen) ∧
         (∀ x k, x ∈ l → PyHash.of_json x = Some k →
                 k ∈ seen ∨ ∃ y, y ∈ U ∧ PyHash.of_json y = Some k) ∧
         (∀ x l' k, l = x :: l' → PyHash.of_json x = Some k → k ∉ seen →
                    ∃ U', U = x :: U').
Proof.
  induction l as [|x l IH]; intros seen Hall.
  - exists []. simpl. split; [done|]. split; [done|]. split; [apply NoDup_nil_2|].
    split; [by intros x Hx; apply elem_of_nil in Hx|].
    split; [by intros x k Hx; apply elem_of_nil in Hx|]. done.
  - apply Forall_cons in Hall as [[k Hk] Hall]. simpl. rewrite Hk.
    case_bool_decide as Hseen.
    + destruct (IH seen Hall) as (U & -> & Hsub & Hnd & Hnew & Hcov & _).
      exists U. split; [done|]. split; [by apply sublist_cons|].
      split; [done|]. split; [done|]. split.
      * intros y ky Hy Hky. apply elem_of_cons in Hy as [->|Hy]; [|by eauto].
        left. congruence.
      * intros y l' ky [= <- <-] Hky Hnot. congruence.
    + destruct (IH (k :: seen) Hall) as (U & -> & Hsub & Hnd & Hnew & Hcov & _).
      exists (x :: U). split; [done|]. split; [by apply sublist_skip|].
      split; [|split; [|split]].
      * rewrite fmap_cons, Hk. apply NoDup_cons. split; [|done].
        intros Hin. apply list_elem_of_fmap in Hin as (y & Hy & Hin).
        apply (Hnew y Hin k); [done|]. apply list_elem_of_here.
      * intros y Hy ky Hky. apply elem_of_cons in Hy as [->|Hy]; [congruence|].
        intros Hin. apply (Hnew y Hy ky Hky). by apply list_elem_of_further.
      * intros y ky Hy Hky. apply elem_of_cons in Hy as [->|Hy].
        -- right. exists x. split; [apply list_elem_of_here|done].
        -- destruct (Hcov y ky Hy Hky) as [Hin|(z & Hz & Hkz)].
           ++ apply elem_of_cons in Hin as [->|Hin]; [|by left].
              right. exists x. split; [apply list_elem_of_here|done].
           ++ right. exists z. split; [by apply list_elem_of_further|done].
      * intros y l' ky [= <- <-] _ _. by exists U.
Qed.

(** A list without two equal elements is its own list of first
    occurrences. *)
Lemma unique_fixed U :
  ∀ seen, NoDup (PyHash.of_json <$> U) →
          (∀ x, x ∈ U → ∃ k, PyHash.of_json x = Some k ∧ k ∉ seen) →
          SettingsFile.unique seen U = inr U.
Proof.
  induction U as [|x U IH]; intros seen Hnd Hnew; [done|].
  rewrite fmap_cons in Hnd. apply NoDup_cons in Hnd as [Hx Hnd].
  destruct (Hnew x (list_elem_of_here _ _)) as (k & Hk & Hseen).
  simpl. rewrite Hk, bool_decide_eq_false_2 by done.
  rewrite IH; [done|done|].
  intros y Hy. destruct (Hnew y (list_elem_of_further _ _ _ Hy)) as (ky & Hky & Hs).
  exists ky. split; [done|]. intros Hin.
  apply elem_of_cons in Hin as [->|Hin]; [|done].
  apply Hx. rewrite Hk, <- Hky. apply list_elem_of_fmap. by exists y.
Qed.

(** On texts the first occurrences are those of [PyList.unique_go]. *)
Lemma unique_strings l :
  ∀ (seen : gset string) (keys : list PyHash.key),
    (∀ s, PyHash.KString s ∈ keys ↔ s ∈ seen) →
    SettingsFile.unique keys (JString <$> l)
    = inr (JString <$> PyList.unique_go seen l).
Proof.
  induction l as [|x l IH]; intros seen keys Hrel; [done|].
  rewrite fmap_cons. simpl.
  destruct (decide (x ∈ seen)) as [Hin|Hnin].
  - rewrite !bool_decide_eq_true_2 by (done || by apply Hrel). by apply IH.
  - rewrite !bool_decide_eq_false_2 by (done || by rewrite Hrel).
    rewrite (IH ({[ x ]} ∪ seen) (PyHash.KString x :: keys)); [done|].
    intros s. rewrite elem_of_cons, elem_of_union, elem_of_singleton, Hrel.
    split; [intros [[= ->]|?]; tauto|intros [->|?]; tauto].
Qed.

(** *** The sort *)

Lemma sorted_interpreters (U : list json) :
  list_sort SettingsManager.bool_lt true
    ((fun x => (SettingsFile.is_executable sys_executable x, x)) <$> U)
  = Ok ((fun x => (SettingsFile.is_executable sys_executable x, x))
          <$> (filter (fun x => SettingsFile.is_executable sys_executable x = true) U
               ++ filter (fun x => SettingsFile.is_executable sys_executable x = false)
                    U)).
Proof.
  rewrite bool_sort_reverse. f_equal.
  rewrite fmap_app. f_equal.
  - induction U as [|x U IH]; [done|].
    rewrite fmap_cons, !filter_cons. cbn [fst].
    destruct (decide (_ = true)); [|done]. by rewrite fmap_cons, IH.
  - induction U as [|x U IH]; [done|].
    rewrite fmap_cons, !filter_cons. cbn [fst].
    destruct (decide (_ = false)); [|done]. by rewrite fmap_cons, IH.
Qed.

Lemma is_executable_spec x :
  SettingsFile.is_executable sys_executable x = true ↔ x = JString sys_executable.
Proof.
  destruct x; simpl; try (split; [done|intros [=]]).
  rewrite bool_decide_eq_true. split; [by intros ->|by intros [= ->]].
Qed.

Lemma existsb_executable l :
  existsb (SettingsFile.is_executable sys_executable) l = true
  ↔ JString sys_executable ∈ l.
Proof.
  rewrite existsb_exists. split.
  - intros (x & Hx & Hexe). apply is_executable_spec in Hexe. subst x.
    by apply list_elem_of_In.
  - intros Hin. exists (JString sys_executable). split; [by apply list_elem_of_In|].
    by apply is_executable_spec.
Qed.

Lemma filter_executable U :
  NoDup (PyHash.of_json <$> U) →
  (JString sys_executable ∈ U →
   filter (fun x => SettingsFile.is_executable sys_executable x = true) U
   = [JString sys_executable]) ∧
  (JString sys_executable ∉ U →
   filter (fun x => SettingsFile.is_executable sys_executable x = true) U = []).
Proof.
  intros Hnd.
  assert (JString sys_executable ∉ U →
          filter (fun x => SettingsFile.is_executable sys_executable x = true) U = [])
    as Hnone.
  { intros Hnot. apply filter_none, Forall_forall. intros x Hx Hexe.
    apply is_executable_spec in Hexe. by subst x. }
  split; [|done]. clear Hnone.
  induction U as [|x U IH]; intros Hin; [by apply elem_of_nil in Hin|].
  rewrite fmap_cons in Hnd. apply NoDup_cons in Hnd as [Hx Hnd].
  rewrite filter_cons. destruct (decide (_ = true)) as [Hexe|Hexe].
  - apply is_executable_spec in Hexe. subst x. f_equal.
    apply filter_none, Forall_forall. intros y Hy Hexe.
    apply is_executable_spec in Hexe. subst y.
    apply Hx. apply list_elem_of_fmap. by exists (JString sys_executable).
  - rewrite is_executable_spec in Hexe.
    apply elem_of_cons in Hin as [?|Hin]; [done|]. by apply IH.
Qed.

Lemma sorted_perm (U : list json) :
  filter (fun x => SettingsFile.is_executable sys_executable x = true) U
  ++ filter (fun x => SettingsFile.is_executable sys_executable x = false) U
  ≡ₚ U.
Proof.
  induction U as [|x U IH]; [done|].
  rewrite !filter_cons.
  destruct (SettingsFile.is_executable sys_executable x) eqn:Hx.
  - destruct (decide (true = true)); [|done]. destruct (decide (true = false)); [done|].
    simpl. by rewrite IH.
  - destruct (decide (false = true)); [done|]. destruct (decide (false = false)); [|done].
    rewrite <- Permutation_middle. by rewrite IH.
Qed.

(** *** What [load] computes *)

Lemma load_closed file settings v l U :
  SettingsFile.read sys_executable file = inr settings →
  dict_get settings "interpreters" = Some v →
  SettingsFile.listed sys_executable v = inr l →
  SettingsFile.unique [] l = inr U →
  SettingsFile.load sys_executable file
  = inr (dict_set "interpreters"
           (JArray
              (filter (fun x => SettingsFile.is_executable sys_executable x = true) U
               ++ filter (fun x => SettingsFile.is_executable sys_executable x = false)
                    U))
           settings).
Proof.
  intros Hread Hget Hlisted Hunique. unfold SettingsFile.load.
  rewrite Hread, Hget, Hlisted, Hunique, sorted_interpreters.
  by rewrite <- list_fmap_compose, list_fmap_id.
Qed.

Lemma key_string_inv y s : PyHash.of_json y = Some (PyHash.KString s) → y = JString s.
Proof.
  assert (∀ sg m e, PyHash.finite sg m e ≠ PyHash.KString s) as Hfinite.
  { intros sg [|p] e; simpl; [done|]. by destruct (PyHash.odd_part p e). }
  destruct y as [|b|n|t|l|o]; try done.
  - by destruct b.
  - destruct n as [[|p|p]|sg m e|sg|]; try done; intros [= H]; exfalso.
    + exact (Hfinite false (Npos p) 0%Z H).
    + exact (Hfinite true (Npos p) 0%Z H).
    + exact (Hfinite sg m e H).
  - by intros [= ->].
Qed.

Lemma hashable_or_not (l : list json) :
  Forall (fun x => is_Some (PyHash.of_json x)) l
  ∨ Exists (fun x => PyHash.of_json x = None) l.
Proof.
  induction l as [|x l [IH|IH]].
  - left. constructor.
  - destruct (PyHash.of_json x) as [k|] eqn:Hk.
    + left. constructor; [by rewrite Hk|done].
    + right. by apply Exists_cons_hd.
  - right. by apply Exists_cons_tl.
Qed.

Lemma filter_texts (ls : list string) :
  filter (fun x => SettingsFile.is_executable sys_executable x = true) (JString <$> ls)
  = JString <$> filter (fun y => y = sys_executable) ls ∧
  filter (fun x => SettingsFile.is_executable sys_executable x = false) (JString <$> ls)
  = JString <$> filter (fun y => y ≠ sys_executable) ls.
Proof.
  induction ls as [|y ls [IH1 IH2]]; [done|].
  rewrite fmap_cons.
  destruct (decide (y = sys_executable)) as [Heq|Hne].
  - assert (SettingsFile.is_executable sys_executable (JString y) = true) as Hexe
      by (by apply bool_decide_eq_true_2).
    rewrite (filter_cons_True
               (fun x => SettingsFile.is_executable sys_executable x = true)) by done.
    rewrite (filter_cons_True (fun y => y = sys_executable)) by done.
    rewrite (filter_cons_False
               (fun x => SettingsFile.is_executable sys_executable x = false))
      by (by rewrite Hexe).
    rewrite (filter_cons_False (fun y => y ≠ sys_executable)) by (by intros H; apply H).
    by rewrite IH1, IH2.
  - assert (SettingsFile.is_executable sys_executable (JString y) = false) as Hexe
      by (by apply bool_decide_eq_false_2).
    rewrite (filter_cons_False
               (fun x => SettingsFile.is_executable sys_executable x = true))
      by (by rewrite Hexe).
    rewrite (filter_cons_False (fun y => y = sys_executable)) by done.
    rewrite (filter_cons_True
               (fun x => SettingsFile.is_executable sys_executable x = false)) by done.
    rewrite (filter_cons_True (fun y => y ≠ sys_executable)) by done.
    by rewrite IH1, IH2.
Qed.

(** [load] on a value under ["interpreters"] that is iterated as texts. *)
Lemma load_texts file settings v ls :
  SettingsFile.read sys_executable file = inr settings →
  dict_get settings "interpreters" = Some v →
  SettingsFile.listed sys_executable v = inr (JString <$> ls) →
  let u := PyList.unique_go ∅ ls in
  SettingsFile.load sys_executable file
  = inr (dict_set "interpreters"
           (JArray (JString <$> (filter (fun y => y = sys_executable) u
                                 ++ filter (fun y => y ≠ sys_executable) u)))
           settings).
Proof.
  intros Hread Hget Hlisted u.
  rewrite (load_closed file settings v (JString <$> ls) (JString <$> u)); try done.
  - destruct (filter_texts u) as [-> ->]. by rewrite fmap_app.
  - apply (unique_strings ls ∅ []). intros s.
    split; [by intros H; apply elem_of_nil in H|by intros H; apply not_elem_of_empty in H].
Qed.

(** [load] on a list under ["interpreters"]. *)
Lemma load_array file settings items :
  SettingsFile.read sys_executable file = inr settings →
  dict_get settings "interpreters" = Some (JArray items) →
  (Exists (fun x => PyHash.of_json x = None) items →
   SettingsFile.load sys_executable file = inl SettingsFile.TypeError) ∧
  (Forall (fun x => is_Some (PyHash.of_json x)) items →
   ∃ rest,
     SettingsFile.load sys_executable file
     = inr (dict_set "interpreters" (JArray (JString sys_executable :: rest)) settings) ∧
     NoDup (PyHash.of_json <$> (JString sys_executable :: rest)) ∧
     rest `sublist_of` items ∧
     (JString sys_executable ∉ rest) ∧
     (∀ x, x ∈ items →
           ∃ y, y ∈ JString sys_executable :: rest ∧
                PyHash.of_json y = PyHash.of_json x)).
Proof.
  intros Hread Hget.
  set (l := if existsb (SettingsFile.is_executable sys_executable) items then items
            else JString sys_executable :: items).
  assert (SettingsFile.listed sys_executable (JArray items) = inr l) as Hlisted by done.
  assert (JString sys_executable ∈ l) as Hexe.
  { subst l. destruct (existsb _ items) eqn:Hex.
    - by apply existsb_executable.
    - apply list_elem_of_here. }
  assert (∀ x, x ∈ items → x ∈ l) as Hitems.
  { intros x Hx. subst l. destruct (existsb _ items); [done|].
    by apply list_elem_of_further. }
  split.
  - intros Hex. unfold SettingsFile.load. rewrite Hread, Hget, Hlisted.
    rewrite unique_unhashable; [done|].
    apply Exists_exists in Hex as (x & Hx & Hnone).
    apply Exists_exists. exists x. split; [by apply Hitems|done].
  - intros Hall.
    assert (Forall (fun x => is_Some (PyHash.of_json x)) l) as Hl.
    { subst l. destruct (existsb _ items); [done|]. constructor; [by eexists|done]. }
    destruct (unique_hashable l [] Hl) as (U & HU & Hsub & Hnd & _ & Hcov & _).
    assert (∀ x, x ∈ l → ∃ y, y ∈ U ∧ PyHash.of_json y = PyHash.of_json x) as Hcov'.
    { intros x Hx. rewrite Forall_forall in Hl. destruct (Hl x Hx) as [k Hk].
      destruct (Hcov x k Hx Hk) as [Hin|(y & Hy & Hky)]; [by apply elem_of_nil in Hin|].
      exists y. split; [done|congruence]. }
    assert (JString sys_executable ∈ U) as HexeU.
    { destruct (Hcov' _ Hexe) as (y & Hy & Hky). simpl in Hky.
      apply key_string_inv in Hky. by subst y. }
    set (rest := filter (fun x => SettingsFile.is_executable sys_executable x = false) U).
    assert (JString sys_executable :: rest ≡ₚ U) as Hperm.
    { etransitivity; [|apply (sorted_perm U)].
      by rewrite (proj1 (filter_executable U Hnd) HexeU). }
    assert (JString sys_executable ∉ rest) as Hnotin.
    { subst rest. rewrite list_elem_of_filter. intros [Hf _]. simpl in Hf.
      by rewrite bool_decide_eq_true_2 in Hf. }
    exists rest. split; [|split; [|split; [|split]]].
    + rewrite (load_closed file settings (JArray items) l U) by done.
      by rewrite (proj1 (filter_executable U Hnd) HexeU).
    + by rewrite Hperm.
    + assert (rest `sublist_of` l) as Hrl.
      { etransitivity; [apply sublist_filter|done]. }
      subst l. destruct (existsb _ items); [done|].
      apply sublist_cons_r in Hrl as [?|(r' & Heq & _)]; [done|].
      exfalso. apply Hnotin. rewrite Heq. apply list_elem_of_here.
    + done.
    + intros x Hx. destruct (Hcov' x (Hitems x Hx)) as (y & Hy & Hky).
      exists y. split; [by rewrite Hperm|done].
Qed.

Lemma sublist_fmap_inv {A B : Type} (f : A → B) (k : list A) :
  ∀ l, l `sublist_of` f <$> k → ∃ k', l = f <$> k' ∧ k' `sublist_of` k.
Proof.
  induction k as [|a k IH]; intros l Hl.
  - apply sublist_nil_r in Hl. subst l. by exists [].
  - rewrite fmap_cons in Hl. apply sublist_cons_r in Hl as [Hl|(l' & -> & Hl)].
    + destruct (IH _ Hl) as (k' & -> & Hk'). exists k'. split; [done|].
      by apply sublist_cons.
    + destruct (IH _ Hl) as (k' & -> & Hk'). exists (a :: k'). split; [done|].
      by apply sublist_skip.
Qed.

(** What a successful [load] is made of. *)
Lemma load_inr_inv file d :
  SettingsFile.load sys_executable file = inr d →
  ∃ settings v l U,
    SettingsFile.read sys_executable file = inr settings ∧
    dict_get settings "interpreters" = Some v ∧
    SettingsFile.listed sys_executable v = inr l ∧
    SettingsFile.unique [] l = inr U ∧
    NoDup (PyHash.of_json <$> U) ∧
    Forall (fun x => is_Some (PyHash.of_json x)) U ∧
    (JString sys_executable ∈ l → JString sys_executable ∈ U) ∧
    d = dict_set "interpreters"
          (JArray
             (filter (fun x => SettingsFile.is_executable sys_executable x = true) U
              ++ filter (fun x => SettingsFile.is_executable sys_executable x = false)
                   U))
          settings.
Proof.
  intros Hload.
  destruct (SettingsFile.read sys_executable file) as [e|settings] eqn:Hread;
    [by unfold SettingsFile.load in Hload; rewrite Hread in Hload|].
  destruct (dict_get settings "interpreters") as [v|] eqn:Hget;
    [|by unfold SettingsFile.load in Hload; rewrite Hread, Hget in Hload].
  destruct (SettingsFile.listed sys_executable v) as [e|l] eqn:Hlisted;
    [by unfold SettingsFile.load in Hload; rewrite Hread, Hget, Hlisted in Hload|].
  destruct (SettingsFile.unique [] l) as [e|U] eqn:Hunique;
    [by unfold SettingsFile.load in Hload;
        rewrite Hread, Hget, Hlisted, Hunique in Hload|].
  rewrite (load_closed file settings v l U) in Hload by done.
  injection Hload as <-.
  destruct (hashable_or_not l) as [Hall|Hex];
    [|by rewrite unique_unhashable in Hunique].
  destruct (unique_hashable l [] Hall) as (U' & HU' & Hsub & Hnd & _ & Hcov & _).
  assert (U' = U) as -> by congruence.
  exists settings, v, l, U. repeat (split; [done|]).
  split; [|split; [|done]].
  - apply Forall_forall. intros x Hx. rewrite Forall_forall in Hall.
    apply Hall. by eapply elem_of_sublist.
  - intros Hexe.
    destruct (Hcov _ _ Hexe eq_refl) as [Hin|(y & Hy & Hky)];
      [by apply elem_of_nil in Hin|].
    apply key_string_inv in Hky. by subst y.
Qed.

End SettingsFileFacts.

(** [SettingsFile.load] and [SettingsManager.load] load the same settings
    from the files of the latter. *)
Lemma load_refines (sys_executable : string) (file : option (string + settings_json)) :
  ∃ st d,
    SettingsManager.load sys_executable file = Ok st ∧
    SettingsFile.load sys_executable (SettingsFile.of_typed file) = inr d ∧
    dict_get d "auto_check_updates" = Some (JBool (auto_check_updates st)) ∧
    dict_get d "cache_expiry_hours" = Some (JNumber (NInt (cache_expiry_hours st))) ∧
    dict_get d "interpreters" = Some (JArray (JString <$> interpreters st)) ∧
    d.*1 ≡ₚ ["auto_check_updates"; "cache_expiry_hours"; "interpreters"].
Proof.
  pose proof (load_unfold sys_executable file) as Htyped. cbv zeta in Htyped.
  set (st := match file with
             | Some (inr j) => SettingsManager.setdefaults sys_executable j
             | _ => SettingsManager.defaults sys_executable
             end) in Htyped.
  set (ls := if bool_decide (sys_executable ∉ interpreters st)
             then sys_executable :: interpreters st else interpreters st) in Htyped.
  assert (∃ settings,
             SettingsFile.read sys_executable (SettingsFile.of_typed file) = inr settings ∧
             dict_get settings "auto_check_updates" = Some (JBool (auto_check_updates st)) ∧
             dict_get settings "cache_expiry_hours"
             = Some (JNumber (NInt (cache_expiry_hours st))) ∧
             dict_get settings "interpreters"
             = Some (JArray (JString <$> interpreters st)) ∧
             settings.*1 ≡ₚ ["auto_check_updates"; "cache_expiry_hours"; "interpreters"])
    as (settings & Hread & Hauto & Hhours & Hget & Hkeys).
  { subst st. destruct file as [[e|[[b|] [h|] [l|]]]|];
      (eexists; split; [reflexivity|]);
      (split; [reflexivity|]); (split; [reflexivity|]); (split; [reflexivity|]);
      cbn;
      first [ done
            | apply Permutation_swap
            | apply perm_skip, Permutation_swap
            | etransitivity; [apply Permutation_swap|]; apply perm_skip, Permutation_swap
            | etransitivity; [apply perm_skip, Permutation_swap|];
              apply Permutation_swap ]. }
  assert (SettingsFile.listed sys_executable (JArray (JString <$> interpreters st))
          = inr (JString <$> ls)) as Hlisted.
  { simpl. subst ls. f_equal. destruct (existsb _ _) eqn:Hex.
    - apply existsb_executable in Hex.
      apply list_elem_of_fmap in Hex as (x & [= <-] & Hx).
      rewrite bool_decide_eq_false_2; [done|]. by intros H.
    - rewrite bool_decide_eq_true_2; [done|]. intros Hin.
      assert (existsb (SettingsFile.is_executable sys_executable)
                (JString <$> interpreters st) = true) as Hex'.
      { apply existsb_executable, list_elem_of_fmap. by exists sys_executable. }
      by rewrite Hex in Hex'. }
  pose proof (load_texts sys_executable _ settings _ ls Hread Hget Hlisted) as Hload.
  cbv zeta in Hload.
  destruct (unique_go_spec ls ∅) as (Hnd & Hin & _).
  assert (sys_executable ∈ PyList.unique_go ∅ ls) as Hexe.
  { apply Hin. split; [|apply not_elem_of_empty].
    subst ls. case_bool_decide as Hx; [apply list_elem_of_here|].
    by destruct (decide (sys_executable ∈ interpreters st)). }
  rewrite (filter_eq_NoDup sys_executable _ Hnd Hexe) in Hload.
  eexists _, _. split; [exact Htyped|]. split; [exact Hload|].
  rewrite !dict_get_dict_set. cbn [auto_check_updates cache_expiry_hours interpreters].
  split; [by rewrite bool_decide_eq_false_2|].
  split; [by rewrite bool_decide_eq_false_2|].
  split.
  - rewrite bool_decide_eq_true_2 by done. do 3 f_equal.
    change ([sys_executable] ++ ?l) with (sys_executable :: l). f_equal.
    apply list_filter_iff. intros y. rewrite bool_decide_eq_false. done.
  - rewrite dict_set_keys; [done|]. apply dict_get_is_Some. by rewrite Hget.
Qed.

(** X10: what loading the settings does, whatever the file holds.  An
    exception of reading other than [JSONDecodeError] and [TypeError]
    leaves [load]; a JSON value that is not an object raises
    [AttributeError].  Otherwise the value under [interpreters] decides
    (that of the file, or the default list when the file is missing, is not
    JSON or lacks the key): [null], a truth value and a number raise
    [TypeError]; a text and an object raise [AttributeError] unless they
    contain the running interpreter (as a part of the text, as a key), and
    then their characters, their keys, are loaded as the interpreters; a
    list with a list or an object in it raises [TypeError]; any other list
    is loaded as the running interpreter followed by the first occurrences
    of the other items, in their order, no two of them equal.  For a list of
    texts this is a list without repetition that starts with the running
    interpreter and holds it and the texts of the file and no other. *)
Theorem loaded_interpreters_are_normalised (sys_executable : string)
    (file : SettingsFile.content) :
  let load := SettingsFile.load sys_executable file in
  let given :=
    match file with
    | SettingsFile.Holds (JObject o) =>
        default (JArray [JString sys_executable]) (dict_get o "interpreters")
    | _ => JArray [JString sys_executable]
    end in
  (∀ e, file = SettingsFile.Unreadable e → SettingsFile.caught e = false →
        load = inl e) ∧
  (∀ v, file = SettingsFile.Holds v → (∀ o, v ≠ JObject o) →
        load = inl SettingsFile.AttributeError) ∧
  (file = SettingsFile.Missing
   ∨ (∃ e, file = SettingsFile.Unreadable e ∧ SettingsFile.caught e = true)
   ∨ (∃ o, file = SettingsFile.Holds (JObject o)) →
   match given with
   | JNull | JBool _ | JNumber _ => load = inl SettingsFile.TypeError
   | JString s =>
       if PyStr.contains sys_executable s then
         ∃ d,
           load = inr d ∧
           dict_get d "interpreters"
           = Some (JArray
                     (JString
                        <$> (let cs := PyList.unique_go ∅ (str_iter s) in
                             filter (fun c => c = sys_executable) cs
                             ++ filter (fun c => c ≠ sys_executable) cs)))
       else load = inl SettingsFile.AttributeError
   | JObject members =>
       if bool_decide (sys_executable ∈ members.*1) then
         ∃ d rest,
           load = inr d ∧
           dict_get d "interpreters"
           = Some (JArray (JString <$> (sys_executable :: rest))) ∧
           NoDup (sys_executable :: rest) ∧
           (∀ x, x ∈ sys_executable :: rest ↔ x ∈ members.*1)
       else load = inl SettingsFile.AttributeError
   | JArray items =>
       (Exists (fun x => PyHash.of_json x = None) items →
        load = inl SettingsFile.TypeError) ∧
       (Forall (fun x => is_Some (PyHash.of_json x)) items →
        ∃ d rest,
          load = inr d ∧
          dict_get d "interpreters"
          = Some (JArray (JString sys_executable :: rest)) ∧
          NoDup (PyHash.of_json <$> (JString sys_executable :: rest)) ∧
          rest `sublist_of` items ∧
          (∀ x, x ∈ items →
                ∃ y, y ∈ JString sys_executable :: rest ∧
                     PyHash.of_json y = PyHash.of_json x)) ∧
       (∀ texts, items = JString <$> texts →
        ∃ d rest,
          load = inr d ∧
          dict_get d "interpreters"
          = Some (JArray (JString <$> (sys_executable :: rest))) ∧
          NoDup (sys_executable :: rest) ∧
          (∀ x, x ∈ sys_executable :: rest ↔ x = sys_executable ∨ x ∈ texts) ∧
          rest `sublist_of` texts)
   end).
Proof.
  intros load given. subst load. split; [|split].
  - intros e -> Hcaught. unfold SettingsFile.load. simpl. by rewrite Hcaught.
  - intros v -> Hv. unfold SettingsFile.load. simpl.
    destruct v as [| | | | |o]; try done. by destruct (Hv o).
  - intros Hreadable.
    assert (∃ settings, SettingsFile.read sys_executable file = inr settings)
      as [settings Hread].
    { destruct Hreadable as [->|[(e & -> & Hc)|(o & ->)]]; simpl; [by eauto| |by eauto].
      rewrite Hc. by eauto. }
    destruct (read_interpreters sys_executable file settings Hread) as [Hget _].
    fold given in Hget.
    destruct given as [|b|n|s|items|members] eqn:Hgiven.
    + unfold SettingsFile.load. by rewrite Hread, Hget.
    + unfold SettingsFile.load. by rewrite Hread, Hget.
    + unfold SettingsFile.load. by rewrite Hread, Hget.
    + destruct (PyStr.contains sys_executable s) eqn:Hc.
      * eexists. split.
        -- apply (load_texts sys_executable file settings (JString s) (str_iter s));
             [done|done|]. simpl. by rewrite Hc.
        -- rewrite dict_get_dict_set. by rewrite bool_decide_eq_true_2.
      * unfold SettingsFile.load. rewrite Hread, Hget. simpl. by rewrite Hc.
    + destruct (load_array sys_executable file settings items Hread Hget)
        as [Hbad Hgood].
      assert (Forall (fun x => is_Some (PyHash.of_json x)) items →
              ∃ d rest,
                SettingsFile.load sys_executable file = inr d ∧
                dict_get d "interpreters"
                = Some (JArray (JString sys_executable :: rest)) ∧
                NoDup (PyHash.of_json <$> (JString sys_executable :: rest)) ∧
                rest `sublist_of` items ∧
                (∀ x, x ∈ items →
                      ∃ y, y ∈ JString sys_executable :: rest ∧
                           PyHash.of_json y = PyHash.of_json x)) as Hgood'.
      { intros Hall. destruct (Hgood Hall) as (rest & Hload & Hnd & Hsub & _ & Hcov).
        eexists _, rest. split; [exact Hload|].
        split; [|done]. rewrite dict_get_dict_set. by rewrite bool_decide_eq_true_2. }
      split; [done|]. split; [done|].
      intros texts ->.
      destruct Hgood' as (d & rest & Hload & Hd & Hnd & Hsub & Hcov).
      { apply Forall_fmap, Forall_forall. intros x _. simpl. by eexists. }
      apply sublist_fmap_inv in Hsub as (rest' & -> & Hsub).
      exists d, rest'. split; [done|]. split; [done|].
      assert (NoDup (sys_executable :: rest')) as Hnd'.
      { change (JString sys_executable :: (JString <$> rest'))
          with (JString <$> (sys_executable :: rest')) in Hnd.
        rewrite <- list_fmap_compose in Hnd.
        by apply NoDup_fmap_1 in Hnd. }
      split; [done|]. split; [|done].
      intros x. split.
      * intros Hx. apply elem_of_cons in Hx as [->|Hx]; [by left|]. right.
        by eapply elem_of_sublist.
      * intros [->|Hx]; [apply list_elem_of_here|].
        destruct (Hcov (JString x)) as (y & Hy & Hky).
        { apply list_elem_of_fmap. by exists x. }
        simpl in Hky. apply key_string_inv in Hky. subst y.
        change (JString sys_executable :: (JString <$> rest'))
          with (JString <$> (sys_executable :: rest')) in Hy.
        apply list_elem_of_fmap in Hy as (x' & [= ->] & Hx'). done.
    + case_bool_decide as Hkey.
      * destruct (unique_go_spec members.*1 ∅) as (Hnd & Hin & _).
        assert (sys_executable ∈ PyList.unique_go ∅ members.*1) as Hu.
        { apply Hin. split; [done|apply not_elem_of_empty]. }
        eexists _, (filter (fun y => y ≠ sys_executable)
                      (PyList.unique_go ∅ members.*1)).
        split.
        -- apply (load_texts sys_executable file settings (JObject members)
                    members.*1); [done|done|].
           simpl. by rewrite bool_decide_eq_true_2.
        -- rewrite dict_get_dict_set. rewrite bool_decide_eq_true_2 by done.
           rewrite (filter_eq_NoDup sys_executable _ Hnd Hu).
           split; [done|]. split.
           ++ apply NoDup_cons. split; [|by apply NoDup_filter].
              rewrite list_elem_of_filter. tauto.
           ++ intros x. rewrite elem_of_cons, list_elem_of_filter, Hin.
              destruct (decide (x = sys_executable)) as [->|Hne]; [tauto|].
              split; [tauto|]. intros Hx. right.
              split; [done|]. split; [done|apply not_elem_of_empty].
      * unfold SettingsFile.load. rewrite Hread, Hget. simpl.
        by rewrite bool_decide_eq_false_2.
Qed.

(** X23: settings that were loaded, once saved, are loaded again as they
    are exactly when the list of interpreters loaded holds the running
    interpreter; it does unless the file gave a text for the interpreters. *)
Theorem settings_round_trip (sys_executable : string) (file : SettingsFile.content)
    (d : list (string * json)) :
  SettingsFile.load sys_executable file = inr d →
  ∃ loaded,
    dict_get d "interpreters" = Some (JArray loaded) ∧
    (JString sys_executable ∈ loaded →
     SettingsFile.load sys_executable (SettingsFile.save d) = inr d) ∧
    (JString sys_executable ∉ loaded →
     SettingsFile.load sys_executable (SettingsFile.save d) ≠ inr d) ∧
    ((∀ o s, file = SettingsFile.Holds (JObject o) →
             dict_get o "interpreters" ≠ Some (JString s)) →
     JString sys_executable ∈ loaded).
Proof.
  intros Hload.
  destruct (load_inr_inv sys_executable file d Hload)
    as (settings & v & l & U & Hread & Hget & Hlisted & Hunique & Hnd & Hhash
        & HexeU & ->).
  set (S := filter (fun x => SettingsFile.is_executable sys_executable x = true) U
            ++ filter (fun x => SettingsFile.is_executable sys_executable x = false) U).
  assert (S ≡ₚ U) as Hperm by apply sorted_perm.
  set (d := dict_set "interpreters" (JArray S) settings).
  assert (dict_get d "interpreters" = Some (JArray S)) as Hd.
  { subst d. rewrite dict_get_dict_set. by rewrite bool_decide_eq_true_2. }
  assert (SettingsFile.read sys_executable (SettingsFile.save d) = inr d) as Hread'.
  { destruct (read_interpreters sys_executable file settings Hread) as [_ Hkeys].
    assert (d.*1 = settings.*1) as Hdk.
    { subst d. apply dict_set_keys. apply dict_get_is_Some. by rewrite Hget. }
    unfold SettingsFile.save, SettingsFile.read.
    cbn [fold_left SettingsFile.defaults fst snd].
    assert (∀ k, k ∈ (SettingsFile.defaults sys_executable).*1 → k ∈ d.*1) as Hkeys'.
    { intros k Hk. rewrite Hdk. by apply Hkeys. }
    rewrite (setdefault_present "auto_check_updates")
      by (apply Hkeys'; cbn; rewrite !elem_of_cons; tauto).
    rewrite (setdefault_present "cache_expiry_hours")
      by (apply Hkeys'; cbn; rewrite !elem_of_cons; tauto).
    rewrite (setdefault_present "interpreters")
      by (apply Hkeys'; cbn; rewrite !elem_of_cons; tauto).
    done. }
  exists S. split; [done|]. split; [|split].
  - intros Hexe.
    assert (JString sys_executable ∈ U) as Hin by (by rewrite <- Hperm).
    assert (S = JString sys_executable
                :: filter (fun x => SettingsFile.is_executable sys_executable x = false)
                     U) as HS.
    { subst S. by rewrite (proj1 (filter_executable sys_executable U Hnd) Hin). }
    assert (filter (fun x => SettingsFile.is_executable sys_executable x = true) S
            ++ filter (fun x => SettingsFile.is_executable sys_executable x = false) S
            = S) as Hfix.
    { assert (NoDup (PyHash.of_json <$> S)) as HndS by (by rewrite Hperm).
      rewrite (proj1 (filter_executable sys_executable S HndS) Hexe).
      rewrite HS at 1.
      rewrite (filter_cons_False
                 (fun x => SettingsFile.is_executable sys_executable x = false)).
      - rewrite (filter_all
                   (fun x => SettingsFile.is_executable sys_executable x = false));
          [by rewrite HS|].
        apply Forall_forall. intros x Hx. by apply list_elem_of_filter in Hx as [? _].
      - simpl. by rewrite bool_decide_eq_true_2. }
    rewrite (load_closed sys_executable _ d (JArray S) S S Hread' Hd).
    + rewrite Hfix. f_equal. by apply dict_set_same.
    + simpl. by rewrite (proj2 (existsb_executable sys_executable S) Hexe).
    + apply unique_fixed; [by rewrite Hperm|].
      intros x Hx. rewrite Hperm in Hx. rewrite Forall_forall in Hhash.
      destruct (Hhash x Hx) as [k Hk]. exists k. split; [done|apply not_elem_of_nil].
  - intros Hnot Hagain.
    destruct (load_inr_inv sys_executable _ d Hagain)
      as (settings' & v' & l' & U' & Hr & Hg & Hl & _ & _ & _ & HexeU' & Heq).
    assert (settings' = d) as -> by congruence.
    assert (v' = JArray S) as -> by congruence.
    simpl in Hl.
    assert (existsb (SettingsFile.is_executable sys_executable) S = false) as Hex.
    { destruct (existsb _ S) eqn:Hex; [|done].
      by apply existsb_executable in Hex. }
    rewrite Hex in Hl. injection Hl as <-.
    apply Hnot.
    assert (dict_get d "interpreters"
            = Some (JArray
                      (filter (fun x => SettingsFile.is_executable sys_executable x = true)
                         U'
                       ++ filter
                            (fun x => SettingsFile.is_executable sys_executable x = false)
                            U'))) as Hd'.
    { rewrite Heq at 1. rewrite dict_get_dict_set. by rewrite bool_decide_eq_true_2. }
    rewrite Hd in Hd'. injection Hd' as ->.
    rewrite (sorted_perm sys_executable U'). apply HexeU'. apply list_elem_of_here.
  - intros Hnotext. rewrite Hperm. apply HexeU.
    destruct (read_interpreters sys_executable file settings Hread) as [Hgiven _].
    rewrite Hget in Hgiven. injection Hgiven as Hv.
    destruct v as [|b|n|s|items|members]; simpl in Hlisted; try done.
    + exfalso. destruct file as [| |[| | | | |o]]; try done.
      destruct (dict_get o "interpreters") as [w|] eqn:Ho; [|done].
      simpl in Hv. subst w. by apply (Hnotext o s).
    + injection Hlisted as <-. destruct (existsb _ items) eqn:Hex.
      * by apply existsb_executable.
      * apply list_elem_of_here.
    + case_bool_decide as Hkey; [|done]. injection Hlisted as <-.
      apply list_elem_of_fmap. by exists sys_executable.
Qed.

Lemma settings_round_trip_witness :
  let d := [ ("interpreters", JArray [JString "/usr/bin/python3"; JString "b"]);
             ("auto_check_updates", JBool true);
             ("cache_expiry_hours", JNumber (NInt 24)) ] in
  SettingsFile.load "/usr/bin/python3" (SettingsFile.save d) = inr d.
Proof.
  destruct (settings_round_trip "/usr/bin/python3"
              (SettingsFile.Holds
                 (JObject [("interpreters",
                            JArray [JString "b"; JString "/usr/bin/python3";
                                    JString "b"])]))
              [ ("interpreters", JArray [JString "/usr/bin/python3"; JString "b"]);
                ("auto_check_updates", JBool true);
                ("cache_expiry_hours", JNumber (NInt 24)) ])
    as (loaded & Hloaded & Hback & _).
  - vm_compute. reflexivity.
  - injection Hloaded as <-. apply Hback. apply list_elem_of_here.
Defined.

(** A text under [interpreters] that is the path of the running
    interpreter is loaded as the list of its characters, and loading what
    was saved puts the path in front of them. *)
Example text_for_interpreters :
  let exe := "/usr/bin/py" in
  let file := SettingsFile.Holds (JObject [("interpreters", JString exe)]) in
  ∃ d d',
    SettingsFile.load exe file = inr d ∧
    dict_get d "interpreters"
    = Some (JArray (JString <$> ["/"; "u"; "s"; "r"; "b"; "i"; "n"; "p"; "y"])) ∧
    SettingsFile.load exe (SettingsFile.save d) = inr d' ∧
    dict_get d' "interpreters"
    = Some (JArray (JString <$> [exe; "/"; "u"; "s"; "r"; "b"; "i"; "n"; "p"; "y"])).
Proof. eexists _, _. by vm_compute. Qed.

(** Numbers and truth values among the interpreters: [1], [True] and [1.0]
    are one element, and so are the two [NaN]. *)
Example numbers_for_interpreters :
  SettingsFile.load "/usr/bin/python3"
    (SettingsFile.Holds
       (JObject
          [("interpreters",
            JArray [JNumber (NInt 1); JBool true; JNumber (NFloat false 2 (-1));
                    JString "a"; JNull; JString "a"; JNumber NNaN; JNumber NNaN])]))
  = inr [ ("interpreters",
           JArray [JString "/usr/bin/python3"; JNumber (NInt 1); JString "a"; JNull;
                   JNumber NNaN]);
          ("auto_check_updates", JBool true);
          ("cache_expiry_hours", JNumber (NInt 24)) ].
Proof. by vm_compute. Qed.
